(** * A shallow embedding of the Google Meet bot (src/bots/GoogleMeetBot.ts)

    The bot is a sequence of asynchronous steps driven from Node, plus
    closures that run inside the meeting page and are driven by timers.
    Both are embedded as pure functions:

    - Node-side [async] code is written in a small exception-and-log monad
      ([M]); [try]/[catch] is [try_catch];
    - what the page answers to a query (a locator count, the URL, the
      aria-labels of the buttons) is an explicit observation argument;
    - page-side timer callbacks are handlers on a record of the variables
      their closure captures, one call per timer firing.

    JavaScript numbers that hold counters and millisecond clocks are [Z].
    The samples of the capture path are doubles with the arithmetic of
    IEEE 754 ([spec_float]); the byte values of the silence monitor and
    the samples of the WAV encoder, whose tests are exact, are
    rationals ([Q]). *)

From Stdlib Require Import ZArith QArith Qabs Qminmax String Ascii List Lia Bool.
From Stdlib Require Import SpecFloat.
From stdpp Require Import base decidable list strings pretty gmap.
Import ListNotations.
Open Scope Z_scope.
Set Warnings "-clear-no-such-hyp".

(* ================================================================= *)
(** ** JavaScript array and string primitives used by the bot *)
(* ================================================================= *)

Module Js.

Section Arrays.
Context {A : Type} `{EqDecision A}.

(** [Array.prototype.includes] *)
Definition includes (l : list A) (x : A) : bool := bool_decide (x ∈ l).

(** [Array.prototype.indexOf]: the first index, [-1] when absent. *)
Fixpoint indexOf (l : list A) (x : A) : Z :=
  match l with
  | [] => -1
  | y :: l' =>
      if decide (y = x) then 0
      else let i := indexOf l' x in if i <? 0 then -1 else i + 1
  end.

(** [l.splice(start, deleteCount, item)] for the array left in [l]:
    a negative [start] counts from the end, both arguments are
    clamped to the array. *)
Definition splice (l : list A) (start deleteCount : Z) (item : A) : list A :=
  let len := Z.of_nat (length l) in
  let s := if start <? 0 then Z.max (len + start) 0 else Z.min start len in
  let d := Z.min (Z.max deleteCount 0) (len - s) in
  take (Z.to_nat s) l ++ item :: drop (Z.to_nat (s + d)) l.

(** [Array.prototype.push] *)
Definition push (l : list A) (x : A) : list A := l ++ [x].
End Arrays.

(** [String.prototype.startsWith] *)
Definition startsWith (s p : string) : bool := String.prefix p s.

(** [String.prototype.includes] *)
Fixpoint str_includes (s p : string) : bool :=
  if String.prefix p s then true
  else match s with
       | EmptyString => false
       | String _ s' => str_includes s' p
       end.

(** White space removed by [String.prototype.trim], on one-byte code
    units: TAB, LF, VT, FF, CR, SPACE and NBSP. *)
Definition is_space (c : ascii) : bool :=
  let n := N_of_ascii c in
  ((9 <=? n) && (n <=? 13) || (n =? 32) || (n =? 160))%N.

Fixpoint trimStart (s : string) : string :=
  match s with
  | String c s' => if is_space c then trimStart s' else s
  | EmptyString => EmptyString
  end.

(** [trimEnd], right to left: a space is dropped when everything after
    it has been dropped. *)
Fixpoint trimEnd (s : string) : string :=
  match s with
  | EmptyString => EmptyString
  | String c s' =>
      match trimEnd s' with
      | EmptyString => if is_space c then EmptyString else String c EmptyString
      | t => String c t
      end
  end.

Definition trim (s : string) : string := trimEnd (trimStart s).

(** [s.length] *)
Definition strlen (s : string) : Z := Z.of_nat (String.length s).

Definition is_digit (c : ascii) : bool :=
  let n := N_of_ascii c in ((48 <=? n) && (n <=? 57))%N.

(** Line terminators, which [.] does not match in a regular expression. *)
Definition is_line_terminator (c : ascii) : bool :=
  let n := N_of_ascii c in ((n =? 10) || (n =? 13))%N.

(** A greedy run of digits at the head of [s]: what [\d+] consumes. *)
Fixpoint digits_prefix (s : string) : string :=
  match s with
  | String c s' => if is_digit c then String c (digits_prefix s') else EmptyString
  | EmptyString => EmptyString
  end.

(** [parseInt] on a string of decimal digits. *)
(** [s.substring(n)] *)
Fixpoint str_drop (n : nat) (s : string) : string :=
  match n, s with
  | S n', String _ s' => str_drop n' s'
  | _, _ => s
  end.

Definition parseInt_digits (s : string) : Z :=
  fold_left (fun acc c => 10 * acc + (Z.of_N (N_of_ascii c) - 48))
            (list_ascii_of_string s) 0.

(** The double quote (code unit 34), and a text between two of them,
    as the log lines of the bot have it. *)
Definition dquote : string := String "034"%char EmptyString.
Definition quoted (s : string) : string := dquote ++ s ++ dquote.

(** A number in a template literal: its decimal digits. *)
Definition number_text (n : Z) : string := pretty n.

End Js.

(* ================================================================= *)
(** ** Node-side effects: exceptions and the logger *)
(* ================================================================= *)

(** The classification returned by [verifyItIsOnGoogleMeetPage]; JavaScript
    [null] is [None] at the use sites. *)
Inductive page_status := SIGN_IN_PAGE | GOOGLE_MEET_PAGE | UNSUPPORTED_PAGE.

(** The values the bot throws: its two error classes of [../error], and
    every other exception (a Playwright time-out, a closed page, ...). *)
Inductive error :=
| UnsupportedMeetingError (message : string) (googleMeetPageStatus : page_status)
| WaitingAtLobbyRetryError (message bodyText : string) (retryable : bool) (maxRetries : Z)
| OtherError (message : string).

Inductive result (A : Type) :=
| Ok (a : A)
| Throw (e : error).
Arguments Ok {A} a.
Arguments Throw {A} e.

Inductive level := Info | Warn | Err.

(** [BotStatus] of [../types]. *)
Inductive BotStatus := processing | joined | finished | failed.

#[global] Instance BotStatus_eq_dec : EqDecision BotStatus.
Proof. solve_decision. Defined.

(** What Node-side code can change, oldest first: the lines written to
    the logger, the actions performed on the Playwright page, the array
    [_state] of [join] that [pushState] appends to, and the status
    histories handed to [patchBotStatus]. *)
Record world := mkWorld {
  logs : list (level * string);
  actions : list string;
  _state : list BotStatus;
  reported : list (list BotStatus)
}.

Definition M (A : Type) : Type := world -> result A * world.

Definition ret {A} (a : A) : M A := fun w => (Ok a, w).
Definition throw {A} (e : error) : M A := fun w => (Throw e, w).
Definition bind {A B} (m : M A) (k : A -> M B) : M B :=
  fun w => match m w with
           | (Ok a, w') => k a w'
           | (Throw e, w') => (Throw e, w')
           end.
(** [try { m } catch (e) { h e }] *)
Definition try_catch {A} (m : M A) (h : error -> M A) : M A :=
  fun w => match m w with
           | (Ok a, w') => (Ok a, w')
           | (Throw e, w') => h e w'
           end.
(** Awaiting a page query whose outcome the environment fixed. *)
Definition await {A} (r : result A) : M A := fun w => (r, w).
Definition log (l : level) (msg : string) : M unit :=
  fun w => (Ok tt, mkWorld (logs w ++ [(l, msg)]) (actions w) (_state w) (reported w)).
Definition act (a : string) : M unit :=
  fun w => (Ok tt, mkWorld (logs w) (actions w ++ [a]) (_state w) (reported w)).
(** Reading and writing the array [_state]. *)
Definition get_state : M (list BotStatus) := fun w => (Ok (_state w), w).
Definition set_state (l : list BotStatus) : M unit :=
  fun w => (Ok tt, mkWorld (logs w) (actions w) l (reported w)).

Declare Scope js_scope.
Delimit Scope js_scope with js.
Notation "'let*' x := m 'in' k" := (bind m (fun x => k))
  (at level 10, x name, m at level 100, k at level 200) : js_scope.
Notation "m ;; k" := (bind m (fun _ => k))
  (at level 100, k at level 200, right associativity) : js_scope.
Open Scope js_scope.

Definition logged (l : level) (msg : string) (w : world) : Prop := (l, msg) ∈ logs w.

Definition w0 : world := mkWorld [] [] [] [].

(** [m] ends the same way in every world. *)
Definition yields {A} (m : M A) (r : result A) : Prop := forall w, fst (m w) = r.

(** [m] only adds to the log and to the page actions: it leaves the
    status array and the reports alone. *)
Definition quiet {A} (m : M A) : Prop :=
  forall w,
    logs w `prefix_of` logs (snd (m w))
    /\ actions w `prefix_of` actions (snd (m w))
    /\ _state (snd (m w)) = _state w
    /\ reported (snd (m w)) = reported w.


(* ================================================================= *)
(** ** Page-type classification (joinMeeting, lines 208-244) *)
(* ================================================================= *)

Module PageCheck.

(** What the page answers while it is classified: [page.url()], and the
    [h1] locator with text Sign in ([count()], [isVisible()]). *)
Record page := mkPage {
  page_url : result string;
  signIn_count : result Z;
  signIn_visible : result bool
}.

Definition msg_sign_in_url := "Google Meet bot is on the sign in page...".
Definition msg_sign_in_heading : string :=
  "Google Meet bot is on the page with " ++ Js.quoted "Sign in" ++ " heading...".
Definition msg_verify_error := "Error verifying if Google Meet bot is on the Google Meet page...".
Definition msg_exiting := "Exiting now as meeting requires sign in...".
Definition msg_unsupported := "Google Meet bot is on the unsupported page...".

Definition detectSignInPage (p : page) : M bool :=
  let* url := await (page_url p) in
  let* result :=
    (if Js.startsWith url "https://accounts.google.com/"
     then log Info msg_sign_in_url ;; ret true
     else ret false) in
  let* count := await (signIn_count p) in
  let* heading := (if count >? 0 then await (signIn_visible p) else ret false) in
  if heading
  then log Info msg_sign_in_heading ;; ret (result && true)
  else ret result.

(** [null] is [None]. *)
Definition verifyItIsOnGoogleMeetPage (p : page) : M (option page_status) :=
  try_catch
    (let* pageUrl := await (page_url p) in
     if negb (Js.str_includes pageUrl "meet.google.com")
     then
       let* signInPage := detectSignInPage p in
       ret (Some (if signInPage then SIGN_IN_PAGE else UNSUPPORTED_PAGE))
     else ret (Some GOOGLE_MEET_PAGE))
    (fun _ => log Err msg_verify_error ;; ret None).

(** Lines 236-244: what joinMeeting does with the classification. It
    returns normally when joinMeeting goes on to the name field. *)
Definition classify (p : page) : M unit :=
  let* googleMeetPageStatus := verifyItIsOnGoogleMeetPage p in
  match googleMeetPageStatus with
  | Some SIGN_IN_PAGE =>
      log Info msg_exiting ;;
      throw (UnsupportedMeetingError "Meeting requires sign in" SIGN_IN_PAGE)
  | Some UNSUPPORTED_PAGE => log Info msg_unsupported
  | _ => ret tt
  end.

End PageCheck.

(* ================================================================= *)
(** ** Waiting in the lobby (joinMeeting, lines 335-490) *)
(* ================================================================= *)

Module Lobby.

(** A Playwright locator as one poll sees it. *)
Record locator := mkLocator {
  loc_count : result Z;
  loc_visible : result bool
}.

(** [await l.count() > 0 && await l.isVisible()] *)
Definition shown (l : locator) : M bool :=
  let* count := await (loc_count l) in
  if count >? 0 then await (loc_visible l) else ret false.

(** What the page shows at one tick of [waitInterval]:
    - whether each [waitForSelector] found its button within 5 s (it
      throws otherwise);
    - the locators of the three texts of [../constants];
    - the [aria-label] of every [button] in document order ([None]
      for a button without the attribute), or the exception of
      [page.evaluate]. *)
Record poll_obs := mkObs {
  peopleElement : bool;
  callButtonElement : bool;
  lobbyModeHostWaitingText : locator;
  lobbyModeRequestTimeoutText : locator;
  buttonLabels : result (list (option string));
  deniedText : locator
}.

Inductive lobby_mode :=
| WAITING_FOR_HOST_TO_ADMIT_BOT
| WAITING_REQUEST_TIMEOUT
| LOBBY_MODE_NOT_ACTIVE
| UNABLE_TO_DETECT_LOBBY_MODE.

Definition detectLobbyModeHostWaitingText (o : poll_obs) : M lobby_mode :=
  try_catch
    (let* host := shown (lobbyModeHostWaitingText o) in
     if host then ret WAITING_FOR_HOST_TO_ADMIT_BOT
     else
       let* timeout := shown (lobbyModeRequestTimeoutText o) in
       if timeout then ret WAITING_REQUEST_TIMEOUT
       else ret LOBBY_MODE_NOT_ACTIVE)
    (fun _ =>
       log Err "Error detecting lobby mode host waiting text..." ;;
       ret UNABLE_TO_DETECT_LOBBY_MODE).

(** [.*?(\d+)] at the head of [s]: skip as few characters as possible,
    none of them a line terminator, up to a digit, then take the whole
    run of digits. *)
Fixpoint lazy_to_digits (s : string) : option string :=
  match s with
  | EmptyString => None
  | String c s' =>
      if Js.is_digit c then Some (Js.digits_prefix s)
      else if Js.is_line_terminator c then None
      else lazy_to_digits s'
  end.

(** Group 1 of [label.match(/People.*?(\d+)/)], [None] for no match: the
    leftmost position where the pattern matches. *)
Fixpoint match_People_count (s : string) : option string :=
  match (if Js.startsWith s "People" then lazy_to_digits (Js.str_drop 6 s) else None) with
  | Some d => Some d
  | None =>
      match s with
      | EmptyString => None
      | String _ s' => match_People_count s'
      end
  end.

(** The function evaluated in the page (lines 406-432) on the buttons
    of the document. *)
Definition participantCountDetected (labels : list (option string)) : bool :=
  let peopleButton :=
    List.find (fun b => match b with
                        | Some l => Js.startsWith l "People"
                        | None => false
                        end) labels in
  let first :=
    match peopleButton with
    | Some (Some ariaLabel) =>
        match match_People_count ariaLabel with
        | Some d => Js.parseInt_digits d >=? 1
        | None => false
        end
    | _ => false
    end in
  if first then true
  else existsb (fun b => match b with
                         | Some label =>
                             negb (String.eqb label EmptyString)
                             && bool_decide (is_Some (match_People_count label))
                         | None => false
                         end) labels.

(** How one tick ends: the interval stays armed, or one of the three
    [resolveWaiting] calls of the callback is reached (each of them
    first clears the interval and the time-out). *)
Inductive poll_action :=
| KeepWaiting
| ResolveRequestTimedOut   (* line 400: resolveWaiting(false) *)
| ResolveEntering          (* line 438: resolveWaiting(true)  *)
| ResolveDenied.           (* line 464: resolveWaiting(false) *)

Definition wait_error (found : bool) : M unit :=
  if found then ret tt else log Err "wait error".

(** The callback of [waitInterval] (lines 347-472). *)
Definition poll (o : poll_obs) : M poll_action :=
  try_catch
    (wait_error (peopleElement o) ;;
     wait_error (callButtonElement o) ;;
     let* returned :=
       (if peopleElement o || callButtonElement o
        then
          let* lobbyModeHostWaitingText := detectLobbyModeHostWaitingText o in
          match lobbyModeHostWaitingText with
          | WAITING_FOR_HOST_TO_ADMIT_BOT =>
              log Info "Lobbdy Mode: Google Meet Bot is waiting for the host to admit it..." ;;
              ret None
          | WAITING_REQUEST_TIMEOUT =>
              log Info "Lobby Mode: Google Meet Bot join request timed out..." ;;
              ret (Some ResolveRequestTimedOut)
          | _ =>
              try_catch
                (let* labels := await (buttonLabels o) in
                 if participantCountDetected labels
                 then
                   log Info "Google Meet Bot is entering the meeting..." ;;
                   ret (Some ResolveEntering)
                 else
                   log Info "People button found but participant count not visible yet - continuing to wait..." ;;
                   ret (Some KeepWaiting))
                (fun _ =>
                   log Err "Error checking participant visibility" ;;
                   ret (Some KeepWaiting))
          end
        else ret None) in
     match returned with
     | Some a => ret a
     | None =>
         let* botWasDeniedAccess :=
           try_catch (shown (deniedText o)) (fun _ => ret false) in
         if botWasDeniedAccess
         then
           log Info "Google Meet Bot is denied access to the meeting..." ;;
           ret ResolveDenied
         else ret KeepWaiting
     end)
    (fun _ => log Err "wait error" ;; ret KeepWaiting).

(** Which call resolved [waitAtLobbyPromise]: one of the three of the
    interval callback, or the one of [waitTimeout] (line 344). *)
Inductive exit :=
| EnteredMeeting
| RequestTimedOut
| DeniedAccess
| WanderingTimeElapsed.

(** The value the promise resolves to. *)
Definition resolved_value (e : exit) : bool :=
  match e with
  | EnteredMeeting => true
  | _ => false
  end.

(** The interval fires every 20 s and the time-out once, after
    [wanderingTime] ms; a tick counts when it is due strictly before
    the time-out (the time-out is armed first and clears the interval).
    A tick is taken to complete before the next timer is due. *)
Definition ticks_before (wanderingTime : Z) : nat :=
  Z.to_nat ((wanderingTime - 1) / 20000).

(** [ticks] ticks from tick number [k] on, [obs k] being what the page
    shows at tick [k]. *)
Fixpoint waitInterval (ticks : nat) (obs : nat -> poll_obs) (k : nat) : M exit :=
  match ticks with
  | O => ret WanderingTimeElapsed
  | S ticks' =>
      let* a := poll (obs k) in
      match a with
      | KeepWaiting => waitInterval ticks' obs (S k)
      | ResolveRequestTimedOut => ret RequestTimedOut
      | ResolveEntering => ret EnteredMeeting
      | ResolveDenied => ret DeniedAccess
      end
  end.

Definition waitAtLobbyPromise (joinWaitTime : Z) (obs : nat -> poll_obs) : M exit :=
  let wanderingTime := joinWaitTime * 60 * 1000 in
  waitInterval (ticks_before wanderingTime) obs 0.

(** Lines 335-490. [GOOGLE_REQUEST_DENIED] is the constant of
    [../constants]; [bodyText] is [document.body.innerText] ([None] for
    [null] or [undefined]) or the exception of [page.evaluate];
    [close] is the outcome of closing the browser. *)
Definition waitAtLobby (GOOGLE_REQUEST_DENIED : string) (joinWaitTime : Z)
    (obs : nat -> poll_obs) (bodyText : result (option string))
    (close : result unit) : M unit :=
  try_catch
    (let* e := waitAtLobbyPromise joinWaitTime obs in
     let waitingAtLobbySuccess := resolved_value e in
     if negb waitingAtLobbySuccess
     then
       let* bodyText := await bodyText in
       let userDenied :=
         Js.str_includes (default EmptyString bodyText) GOOGLE_REQUEST_DENIED in
       log Err "Cant finish wait at the lobby check" ;;
       throw (WaitingAtLobbyRetryError
                "Google Meet bot could not enter the meeting..."
                (default EmptyString bodyText) (negb userDenied) 2)
     else ret tt)
    (fun lobbyError =>
       log Info "Closing the browser on error..." ;;
       act "browser.close" ;;
       await close ;;
       throw lobbyError).

End Lobby.

(* ================================================================= *)
(** ** Speaking in the meeting (lines 55-87 and 566-939) *)
(* ================================================================= *)

Module Speak.

(** An element as one call of [findAndOptionallyClickElement] finds it.
    [isVisible] is called with [.catch(() => false)], so a failure of
    it reads as [false]. *)
Record element := mkElement {
  el_count : result Z;
  el_visible : result bool;
  el_click : result unit;
  el_wait : result unit
}.

Definition findAndOptionallyClickElement (el : element) (xpath : string)
    (shouldClick : bool) : M bool :=
  try_catch
    (let* count := await (el_count el) in
     if count =? 0
     then log Info ("Element not found: " ++ xpath) ;; ret false
     else
       let isVisible := match el_visible el with Ok b => b | Throw _ => false end in
       if negb isVisible
       then log Info ("Element found but not visible: " ++ xpath) ;; ret false
       else
         (if shouldClick
          then
            act ("click " ++ xpath) ;;
            await (el_click el) ;;
            await (el_wait el) ;;
            log Info ("Successfully clicked element: " ++ xpath)
          else ret tt) ;;
         ret true)
    (fun _ => log Info ("Could not find/click element: " ++ xpath) ;; ret false).

(** A button of the page as Method 3 reads it. *)
Record button := mkButton {
  btn_ariaLabel : result (option string);
  btn_is_mic_on : bool;   (* /microphone/i and /on|unmute/i match the label *)
  btn_visible : result bool;
  btn_click : result unit
}.

(** What the two functions evaluated in the page return; the page
    functions catch their own exceptions and answer [success: false]. *)
Record stream_result := mkStream { stream_success : bool }.
Record playback_result := mkPlayback { playback_success : bool; audioReplaced : bool }.

(** Everything outside speakInMeeting that decides how a call goes. *)
Record env := mkEnv {
  deepgramApiKey : bool;                      (* config.deepgramApiKey is truthy *)
  page_on_console : result unit;              (* this.page.on('console', ...) *)
  textToSpeech : result string;               (* new TtsService(..).textToSpeech(text), base64 *)
  ttsStreamCreated : result stream_result;    (* first page.evaluate *)
  micOn : string -> element;                  (* Method 1, by selector *)
  micButton : element;                        (* Method 2 *)
  allButtons : result (list button);          (* Method 3 *)
  wait_after_mic : result unit;               (* waitForTimeout(2000) *)
  toggleOff : element;
  wait_toggle : result unit;                  (* waitForTimeout(500) *)
  toggleOn : element;
  wait_after_toggle : result unit;            (* waitForTimeout(2000) *)
  playbackResult : result playback_result;    (* second page.evaluate *)
  wait_after_playback : result unit;          (* waitForTimeout(2000) *)
  isVoiceListeningActive : result bool;       (* third page.evaluate *)
  micOff : string -> element
}.

Definition micSelectors : list string :=
  [ "//div[@role='button' and @aria-label='Turn on microphone']";
    "//div[@role='button' and contains(@aria-label, 'microphone') and contains(@aria-label, 'on')]";
    "//button[@aria-label='Turn on microphone']";
    "//button[contains(@aria-label, 'microphone') and contains(@aria-label, 'on')]" ].

Definition micOffSelectors : list string :=
  [ "//div[@role='button' and @aria-label='Turn off microphone']";
    "//div[@role='button' and contains(@aria-label, 'microphone') and contains(@aria-label, 'off')]";
    "//button[@aria-label='Turn off microphone']";
    "//button[contains(@aria-label, 'microphone') and contains(@aria-label, 'off')]" ].

(** [for (const selector of selectors) { if (await find(selector)) { found = true; break; } }] *)
Fixpoint first_clicked (find : string -> element) (selectors : list string)
    (msg : string) : M bool :=
  match selectors with
  | [] => ret false
  | selector :: rest =>
      let* enabled := findAndOptionallyClickElement (find selector) selector true in
      if enabled then log Info msg ;; ret true
      else first_clicked find rest msg
  end.

(** Method 2 (lines 683-695). *)
Definition method2 (e : env) : M bool :=
  try_catch
    (let* count := await (el_count (micButton e)) in
     let isVisible :=
       (count >? 0) && match el_visible (micButton e) with Ok b => b | Throw _ => false end in
     if isVisible
     then
       act "click micButton" ;;
       await (el_click (micButton e)) ;;
       log Info "Microphone enabled using Playwright locator" ;;
       ret true
     else ret false)
    (fun _ => log Info "Could not enable microphone using Playwright locator" ;; ret false).

(** Method 3 (lines 698-720): the loop over all buttons, each turn in
    its own [try]. *)
Fixpoint method3_loop (bs : list button) : M bool :=
  match bs with
  | [] => ret false
  | btn :: rest =>
      let* clicked :=
        try_catch
          (let* ariaLabel := await (btn_ariaLabel btn) in
           if bool_decide (is_Some ariaLabel) && btn_is_mic_on btn
           then
             let isVisible := match btn_visible btn with Ok b => b | Throw _ => false end in
             if isVisible
             then
               act "click button" ;;
               await (btn_click btn) ;;
               log Info "Microphone enabled by finding button with aria-label" ;;
               ret true
             else ret false
           else ret false)
          (fun _ => ret false) in
      if clicked then ret true else method3_loop rest
  end.

Definition method3 (e : env) : M bool :=
  try_catch
    (let* allButtons := await (allButtons e) in method3_loop allButtons)
    (fun _ => log Info "Could not enable microphone by searching buttons" ;; ret false).

Definition msg_no_key := "Deepgram API key not configured, skipping TTS".
Definition msg_stream_failed := "Failed to create TTS stream".
Definition msg_playback_failed := "TTS playback failed".
Definition msg_speak_error := "Error speaking in meeting".
Definition msg_spoke := "Successfully spoke text in meeting".

(** Enabling the microphone and toggling it (lines 657-743). *)
Definition enable_microphone (e : env) : M unit :=
  log Info "Enabling microphone for TTS..." ;;
  let* m1 := first_clicked (micOn e) micSelectors
               "Microphone enabled using XPath selector" in
  let* m2 := (if negb m1 then method2 e else ret m1) in
  let* micEnabled := (if negb m2 then method3 e else ret m2) in
  (if negb micEnabled
   then log Warn "Could not enable microphone button, but will attempt to inject audio anyway"
   else ret tt) ;;
  await (wait_after_mic e) ;;
  log Info "Toggling microphone to trigger getUserMedia..." ;;
  findAndOptionallyClickElement (toggleOff e)
    "//button[@aria-label='Turn off microphone']" true ;;
  await (wait_toggle e) ;;
  findAndOptionallyClickElement (toggleOn e)
    "//button[@aria-label='Turn on microphone']" true ;;
  await (wait_after_toggle e).

(** Playing the audio and what follows (lines 745-934). *)
Definition playback (e : env) : M unit :=
  log Info "Starting TTS audio playback in browser..." ;;
  act "evaluate: play TTS audio" ;;
  let* playbackResult := await (playbackResult e) in
  log Info "TTS playback result" ;;
  (if negb (playback_success playbackResult)
   then log Err msg_playback_failed
   else if audioReplaced playbackResult
        then log Info "TTS audio successfully injected into RTCPeerConnection"
        else log Warn "TTS audio played but may not have been injected into Google Meet") ;;
  await (wait_after_playback e) ;;
  let* isVoiceListeningActive := await (isVoiceListeningActive e) in
  (if negb isVoiceListeningActive
   then
     log Info "Disabling microphone after TTS..." ;;
     first_clicked (micOff e) micOffSelectors "Microphone disabled using selector" ;;
     ret tt
   else log Info "Keeping microphone on for voice-activated listening") ;;
  log Info msg_spoke.

(** The body of the [try] of speakInMeeting. *)
Definition speak_body (e : env) (text : string) : M unit :=
  if negb (deepgramApiKey e)
  then log Warn msg_no_key
  else
    log Info "Generating TTS audio for meeting" ;;
    await (page_on_console e) ;;
    let* audioBase64 := await (textToSpeech e) in
    log Info "Pre-creating TTS stream in browser..." ;;
    act "evaluate: create TTS stream" ;;
    let* ttsStreamCreated := await (ttsStreamCreated e) in
    log Info "TTS stream creation result" ;;
    if negb (stream_success ttsStreamCreated)
    then log Err msg_stream_failed
    else enable_microphone e ;; playback e.

Definition speakInMeeting (e : env) (text : string) : M unit :=
  try_catch (speak_body e text) (fun _ => log Err msg_speak_error).

End Speak.

(* ================================================================= *)
(** ** Listening: the capture path and the response trigger
       (startVoiceActivatedListening, lines 951-1561) *)
(* ================================================================= *)

Module Voice.

(** A sample as the page script reads it from a Float32Array, and every
    number it computes from samples: a double (binary64). *)
Definition double : Type := spec_float.
Definition prec : Z := 53.
Definition emax : Z := 1024.

(** [a + b] and [a / b], rounded to the nearest double, ties to even;
    [a > b], which is false when one of the two is NaN. *)
Definition fadd : double -> double -> double := SFadd prec emax.
Definition fdiv : double -> double -> double := SFdiv prec emax.
Definition fgt (a b : double) : bool := SFltb b a.

(** An integer as a double. *)
Definition of_int (n : Z) : double := binary_normalize prec emax n 0 false.

(** [Math.abs] *)
Definition Math_abs : double -> double := SFabs.

(** [Math.max] of two numbers: NaN when one of them is, and [+0] for
    the two zeros. *)
Definition Math_max (a b : double) : double :=
  match a, b with
  | S754_nan, _ | _, S754_nan => S754_nan
  | S754_zero sa, S754_zero sb => S754_zero (sa && sb)
  | _, _ => if SFltb a b then b else a
  end.

(** The literals [0], [0.001] and [0.01]: the doubles they denote,
    [0x1.0624dd2f1a9fcp-10] and [0x1.47ae147ae147bp-7]. *)
Definition zero : double := S754_zero false.
Definition d0_001 : double := S754_finite false 4611686018427388 (-62).
Definition d0_01 : double := S754_finite false 5764607523034235 (-59).

(** The variables captured by the closures of the page script. A pending
    [setTimeout(() => { isSpeaking = false }, 10000)] is the time at
    which it is due. *)
Record state := mkState {
  isSpeaking : bool;
  pcmAudioBuffers : list (list double);
  lastTranscriptionTime : Z;
  lastAudioActivityTime : Z;
  bufferCount : Z;
  readyTimers : list Z
}.

(** The variables as tryCaptureAndTranscribe leaves them at time [now]. *)
Definition init (now : Z) : state := mkState false [] 0 now 0 [].

Definition set_isSpeaking (b : bool) (s : state) : state :=
  mkState b (pcmAudioBuffers s) (lastTranscriptionTime s)
          (lastAudioActivityTime s) (bufferCount s) (readyTimers s).
Definition set_pcmAudioBuffers (l : list (list double)) (s : state) : state :=
  mkState (isSpeaking s) l (lastTranscriptionTime s)
          (lastAudioActivityTime s) (bufferCount s) (readyTimers s).
Definition set_lastTranscriptionTime (t : Z) (s : state) : state :=
  mkState (isSpeaking s) (pcmAudioBuffers s) t
          (lastAudioActivityTime s) (bufferCount s) (readyTimers s).
Definition set_readyTimers (l : list Z) (s : state) : state :=
  mkState (isSpeaking s) (pcmAudioBuffers s) (lastTranscriptionTime s)
          (lastAudioActivityTime s) (bufferCount s) l.

(** The loop of onaudioprocess (lines 1280-1285): the sum and the
    maximum of the absolute values of a frame, added and compared as
    doubles in the order of the samples. *)
Definition frame_sum (channelData : list double) : double :=
  fold_left (fun sum x => fadd sum (Math_abs x)) channelData zero.
Definition frame_max (channelData : list double) : double :=
  fold_left (fun max x => Math_max max (Math_abs x)) channelData zero.

(** The test of line 1288 on the frame. *)
Definition frame_active (channelData : list double) : bool :=
  let average := fdiv (frame_sum channelData) (of_int (Z.of_nat (length channelData))) in
  fgt average d0_001 || fgt (frame_max channelData) d0_01.

(** scriptProcessor.onaudioprocess (lines 1271-1297) at time [now]. *)
Definition onaudioprocess (now : Z) (channelData : list double) (s : state) : state :=
  mkState (isSpeaking s)
          (pcmAudioBuffers s ++ [channelData])
          (lastTranscriptionTime s)
          (if frame_active channelData then now else lastAudioActivityTime s)
          (bufferCount s + 1)
          (readyTimers s).

Definition totalSamples {A} (bufs : list (list A)) : Z :=
  fold_left (fun sum buf => sum + Z.of_nat (length buf)) bufs 0.

Definition minSamples : Z := 32000.

(** How the synchronous part of a tick of transcriptionInterval ends. *)
Inductive check_result :=
| SkippedSpeaking                      (* line 1363 *)
| NoData                               (* line 1372 *)
| WaitingForMore                       (* line 1383 *)
| Discarded                            (* line 1391 *)
| Submitted (batch : list (list double)).   (* line 1427: __processAudioChunk *)

(** The callback of transcriptionInterval up to its first [await]
    (lines 1361-1427), at time [now]. *)
Definition check (now : Z) (s : state) : state * check_result :=
  if isSpeaking s then (s, SkippedSpeaking)
  else
    let timeSinceLastActivity := now - lastAudioActivityTime s in
    let timeSinceLastTranscription := now - lastTranscriptionTime s in
    if bool_decide (pcmAudioBuffers s = []) then (s, NoData)
    else
      let totalSamples := totalSamples (pcmAudioBuffers s) in
      if (totalSamples <? minSamples) || (timeSinceLastTranscription <? 5000)
      then (s, WaitingForMore)
      else if timeSinceLastActivity >? 5000
      then (set_pcmAudioBuffers [] s, Discarded)
      else (set_lastTranscriptionTime now s, Submitted (pcmAudioBuffers s)).

(** What [await __processAudioChunk(..)] gives back. *)
Inductive chunk_result :=
| ChunkResult (success : bool) (transcript : string)
| ChunkThrows.

(** After the transcription came back (lines 1429-1436 and 1450-1460):
    [Some t] when [__triggerBotResponse(t)] is called and awaited. *)
Definition transcription_done (r : chunk_result) (s : state) : state * option string :=
  match r with
  | ChunkResult success transcript =>
      if success && negb (String.eqb transcript EmptyString)
         && (Js.strlen (Js.trim transcript) >? 2)
      then (set_isSpeaking true s, Some (Js.trim transcript))
      else (set_pcmAudioBuffers [] s, None)
  | ChunkThrows => (set_pcmAudioBuffers [] s, None)
  end.

(** After [await __triggerBotResponse(..)], at time [now]: it returned
    ([ok]) and the timer is armed, or it threw; lines 1438-1449. *)
Definition response_returned (now : Z) (ok : bool) (s : state) : state :=
  if ok then set_readyTimers (readyTimers s ++ [now + 10000]) s
  else set_isSpeaking false s.

(** The same point of the capture path, which then clears the batch
    (line 1455). *)
Definition capture_response_returned (now : Z) (ok : bool) (s : state) : state :=
  set_pcmAudioBuffers [] (response_returned now ok s).

(** The timers armed by [response_returned] that are due at time [now]
    fire (lines 1442-1445 and 1511-1514); the others stay armed. *)
Definition ready_timers_fire (now : Z) (s : state) : state :=
  match filter (fun due => due <= now) (readyTimers s) with
  | [] => s
  | _ :: _ =>
      set_readyTimers (filter (fun due => ~ due <= now) (readyTimers s))
                      (set_isSpeaking false s)
  end.

(** recognition.onresult of the microphone fallback, up to its [await]
    (lines 1490-1508). *)
Definition mic_onresult (transcript : string) (s : state) : state * option string :=
  if isSpeaking s then (s, None)
  else
    let trimmedTranscript := Js.trim transcript in
    if Js.strlen trimmedTranscript <? 2 then (s, None)
    else (set_isSpeaking true s, Some trimmedTranscript).

(** The callback given to createLiveConnection (lines 1022-1043), in
    Node: [Some t] when [__triggerBotResponse(t)] is called in the page.
    It reads none of the variables of the page script. *)
Definition onLiveTranscript (transcript : string) (isFinal : bool) : option string :=
  if isFinal && (Js.strlen (Js.trim transcript) >? 2)
  then Some (Js.trim transcript)
  else None.

(** A finalized transcript arriving on one of the three paths. *)
Inductive transcript_event :=
| Streaming (transcript : string) (isFinal : bool)
| Batch (r : chunk_result)
| Microphone (transcript : string).

(** The state after the event, and the text the response pipeline
    ([__triggerBotResponse]) is invoked with, if it is. *)
Definition deliver (ev : transcript_event) (s : state) : state * option string :=
  match ev with
  | Streaming transcript isFinal => (s, onLiveTranscript transcript isFinal)
  | Batch r => transcription_done r s
  | Microphone transcript => mic_onresult transcript s
  end.

(** *** 1.5 s of speech followed by 3 s of silence

    The context runs at 16 kHz and the processor delivers frames of
    4096 samples, one every 256 ms; the interval fires every 2000 ms. *)
Definition bufferSize : nat := 4096.
Definition frame_ms : Z := 256.

(** What runs on the capture path, one closure at a time. *)
Inductive capture_event :=
| Frame (channelData : list double)   (* onaudioprocess *)
| Tick                                 (* transcriptionInterval fires *)
| Transcribed (r : chunk_result)       (* __processAudioChunk settles *)
| Responded (ok : bool)                (* __triggerBotResponse settles *)
| TimersDue.                           (* the 10 s timers that are due fire *)

(** Events in the order they fire, each with its time; the outcome of
    every check is recorded. *)
Fixpoint run (evs : list (Z * capture_event)) (s : state)
    : state * list (Z * check_result) :=
  match evs with
  | [] => (s, [])
  | (now, Frame channelData) :: rest => run rest (onaudioprocess now channelData s)
  | (now, Tick) :: rest =>
      let '(s1, r) := check now s in
      let '(s2, rs) := run rest s1 in
      (s2, (now, r) :: rs)
  | (now, Transcribed r) :: rest => run rest (fst (transcription_done r s))
  | (now, Responded ok) :: rest => run rest (capture_response_returned now ok s)
  | (now, TimersDue) :: rest => run rest (ready_timers_fire now s)
  end.

(** The delivery time of the last frame of [evs] that passes the test
    of line 1288, if there is one. *)
Fixpoint last_active_frame (evs : list (Z * capture_event)) : option Z :=
  match evs with
  | [] => None
  | (now, ev) :: rest =>
      match last_active_frame rest with
      | Some t => Some t
      | None =>
          match ev with
          | Frame channelData => if frame_active channelData then Some now else None
          | _ => None
          end
      end
  end.

(** The time of the last check of [rs] that submitted a batch, if
    there is one. *)
Fixpoint last_submission (rs : list (Z * check_result)) : option Z :=
  match rs with
  | [] => None
  | (now, r) :: rest =>
      match last_submission rest with
      | Some t => Some t
      | None => match r with Submitted _ => Some now | _ => None end
      end
  end.

(** The samples of the track: 1.5 s of full-scale signal, then 3 s of
    zeros, at 16000 samples a second. *)
Definition one : double := of_int 1.
Definition speech_then_silence : list double :=
  repeat one (Z.to_nat 24000) ++ repeat zero (Z.to_nat 48000).

(** Frame [i] (from 1) holds samples [4096 (i - 1)] to [4096 i - 1] and
    is delivered when its last sample has been played, [256 i] ms in. *)
Definition frame (i : nat) : list double :=
  take bufferSize (drop (bufferSize * (i - 1)) speech_then_silence).

Definition silent_frame : list double := repeat zero bufferSize.

(** The 17 whole frames of those 4.5 s, and the checks at 2000 ms and
    4000 ms. *)
Definition scenario (t0 : Z) : list (Z * capture_event) :=
  let delivered i := (t0 + frame_ms * Z.of_nat i, Frame (frame i)) in
  map delivered (seq 1 7)
  ++ [(t0 + 2000, Tick)]
  ++ map delivered (seq 8 8)
  ++ [(t0 + 4000, Tick)]
  ++ map delivered (seq 16 2).

(** A track that is silent from the start: the frames and the two
    checks of the first 4 s. *)
Definition silence_from_the_start (t0 : Z) : list (Z * capture_event) :=
  let delivered i := (t0 + frame_ms * Z.of_nat i, Frame silent_frame) in
  map delivered (seq 1 7)
  ++ [(t0 + 2000, Tick)]
  ++ map delivered (seq 8 8)
  ++ [(t0 + 4000, Tick)].

End Voice.


(* ================================================================= *)
(** ** The recording script of the page (recordMeetingPage, lines 1597-1983) *)
(* ================================================================= *)

Module Recording.

(** The timers of the script. The first six are the variables that
    hold a timer identifier; [monitorSilenceTimeout] is the
    [setTimeout(monitorSilence, 100)] whose identifier is dropped. *)
Inductive timer :=
| timeoutId
| inactivityParticipantDetectionTimeout
| inactivitySilenceDetectionTimeout
| loneTest
| isOnValidGoogleMeetPageInterval
| dismissModalsInterval
| monitorSilenceTimeout.

#[global] Instance timer_eq_dec : EqDecision timer.
Proof. solve_decision. Defined.

Definition timer_code (t : timer) : nat :=
  match t with
  | timeoutId => 0
  | inactivityParticipantDetectionTimeout => 1
  | inactivitySilenceDetectionTimeout => 2
  | loneTest => 3
  | isOnValidGoogleMeetPageInterval => 4
  | dismissModalsInterval => 5
  | monitorSilenceTimeout => 6
  end%nat.

Definition timer_of_code (n : nat) : timer :=
  match n with
  | 0 => timeoutId
  | 1 => inactivityParticipantDetectionTimeout
  | 2 => inactivitySilenceDetectionTimeout
  | 3 => loneTest
  | 4 => isOnValidGoogleMeetPageInterval
  | 5 => dismissModalsInterval
  | _ => monitorSilenceTimeout
  end%nat.

#[global] Instance timer_countable : Countable timer.
Proof.
  refine (inj_countable' timer_code timer_of_code _).
  intros []; reflexivity.
Defined.

(** What a callback asks of the rest of the script. *)
Inductive call :=
| RetryWithBackoff            (* retryWithBackoff(): arm loneTest, 5000 ms *)
| ClearLoneTest               (* clearTimeout(loneTest) *)
| SetTimeoutMonitorSilence    (* setTimeout(monitorSilence, 100) *)
| StopTheRecording.           (* stopTheRecording() *)

#[global] Instance call_eq_dec : EqDecision call.
Proof. solve_decision. Defined.

(** *** The presence monitor (lines 1713-1814) *)

(** What getContributorsCount gives when it is called: a number, or
    [undefined], or an exception. *)
Inductive read :=
| Count (contributors : Z)
| Unknown
| ReadThrows.

Record presence := mkPresence {
  detectionFailures : Z;
  loneTestDetectionActive : bool
}.

Definition maxDetectionFailures : Z := 10.

Definition presence_init : presence := mkPresence 0 true.

(** What one firing of the loneTest timer did: whether it called
    getContributorsCount, and what it asked for. *)
Record firing := mkFiring {
  evaluated : bool;
  calls : list call
}.

(** The timer callback [check] (lines 1775-1810). *)
Definition check (r : read) (p : presence) : presence * firing :=
  if negb (loneTestDetectionActive p)
  then (p, mkFiring false [ClearLoneTest])
  else
    match r with
    | Unknown =>
        let detectionFailures := detectionFailures p + 1 in
        (mkPresence detectionFailures
                    (if detectionFailures >=? maxDetectionFailures
                     then false else loneTestDetectionActive p),
         mkFiring true [RetryWithBackoff])
    | Count contributors =>
        if contributors <? 2
        then (mkPresence 0 false, mkFiring true [StopTheRecording])
        else (mkPresence 0 (loneTestDetectionActive p), mkFiring true [RetryWithBackoff])
    | ReadThrows =>
        (mkPresence (detectionFailures p + 1) (loneTestDetectionActive p),
         mkFiring true [RetryWithBackoff])
    end.

(** The monitor on its own: [armed] says that a loneTest timer is
    pending; every 5 s it fires and the page would answer with the next
    read. A timer that is not armed does not fire. *)
Fixpoint presence_chain (reads : list read) (p : presence) (armed : bool)
    : presence * bool * list firing :=
  match reads with
  | [] => (p, armed, [])
  | r :: rest =>
      if armed
      then
        let '(p1, f) := check r p in
        let '(p2, a2, fs) :=
          presence_chain rest p1 (bool_decide (RetryWithBackoff ∈ calls f)) in
        (p2, a2, f :: fs)
      else (p, false, [])
  end.

(** *** The silence monitor (lines 1816-1887) *)

Record silence := mkSilence {
  silenceDuration : Z;
  totalChecks : Z;
  audioActivitySum : Q;
  monitor : bool
}.

Definition silenceThreshold : Q := 10.

Definition silence_init : silence := mkSilence 0 0 0 true.

(** [dataArray.reduce((a, b) => a + b)], which throws on an empty
    array. *)
Definition reduce_sum (dataArray : list Z) : option Z :=
  match dataArray with
  | [] => None
  | a :: rest => Some (fold_left Z.add rest a)
  end.

(** The mean of the frequency bins, [None] when computing it throws:
    [getByteFrequencyData] failed ([Throw]) or the array is empty. The
    bins are bytes and the analyser has 128 of them, so the sum and its
    quotient are exact in the page as well. *)
Definition audioActivity (sample : result (list Z)) : option Q :=
  match sample with
  | Throw _ => None
  | Ok dataArray =>
      match reduce_sum dataArray with
      | None => None
      | Some sum => Some (inject_Z sum / inject_Z (Z.of_nat (length dataArray)))%Q
      end
  end.

Definition Qltb (a b : Q) : bool := negb (Qle_bool b a).

(** monitorSilence (lines 1849-1879). *)
Definition monitorSilence (inactivityLimit : Z) (sample : result (list Z))
    (s : silence) : silence * list call :=
  match audioActivity sample with
  | None => (mkSilence (silenceDuration s) (totalChecks s) (audioActivitySum s) false, [])
  | Some audioActivity =>
      let audioActivitySum := (audioActivitySum s + audioActivity)%Q in
      let totalChecks := totalChecks s + 1 in
      let '(silenceDuration, stop) :=
        if Qltb audioActivity silenceThreshold
        then (silenceDuration s + 100,
              bool_decide (silenceDuration s + 100 >= inactivityLimit))
        else (0, false) in
      let monitor := if stop then false else monitor s in
      (mkSilence silenceDuration totalChecks audioActivitySum monitor,
       (if stop then [StopTheRecording] else [])
       ++ (if monitor then [SetTimeoutMonitorSilence] else []))
  end.

(** detectIncrediblySilentMeeting (lines 1816-1887): [None] when the
    monitor does not start, for want of an audio track or because
    setting up the analyser threw ([context_ok = false]); else the
    monitor after its first, immediate, sample. *)
Definition detectIncrediblySilentMeeting (hasAudioTracks context_ok : bool)
    (inactivityLimit : Z) (sample : result (list Z))
    : option (silence * list call) :=
  if negb hasAudioTracks then None
  else if negb context_ok then None
  else Some (monitorSilence inactivityLimit sample silence_init).

(** The monitor on its own, sample after sample, for as long as it
    re-arms its timer: what each sample that was taken asked for. *)
Fixpoint silence_chain (inactivityLimit : Z) (samples : list (result (list Z)))
    (s : silence) : silence * list (list call) :=
  match samples with
  | [] => (s, [])
  | sample :: rest =>
      let '(s1, cs) := monitorSilence inactivityLimit sample s in
      if bool_decide (SetTimeoutMonitorSilence ∈ cs)
      then let '(s2, css) := silence_chain inactivityLimit rest s1 in (s2, cs :: css)
      else (s1, [cs])
  end.

(** The whole monitor from its activation. *)
Definition silence_monitor (hasAudioTracks : bool) (inactivityLimit : Z)
    (samples : list (result (list Z))) : option (silence * list (list call)) :=
  if negb hasAudioTracks then None
  else Some (silence_chain inactivityLimit samples silence_init).

(** *** The stop routine and the timers (lines 1679-1711, 1889-1979) *)

(** The calls that leave the script, in order. *)
Inductive effect :=
| RecorderStop                (* mediaRecorder.stop() *)
| TrackStop (i : nat)         (* track.stop() on track i of the stream *)
| ClearTimer (t : timer)      (* clearTimeout(t) or clearInterval(t) *)
| ConsoleError                (* 'Error dismissing modals:' *)
| MeetEnd (id : string).      (* window.screenAppMeetEnd(id) *)

#[global] Instance effect_eq_dec : EqDecision effect.
Proof. solve_decision. Defined.

Record config := mkConfig {
  slightlySecretId : string;
  inactivityLimit : Z;
  hasAudioTracks : bool
}.

(** The variables of startRecording: the recorder and the tracks of
    the stream ([true] for a live track), the timers that are armed,
    the variables that hold a timer identifier, the monitors. *)
Record state := mkState {
  recording : bool;
  tracks : list bool;
  pending : gset timer;
  assigned : gset timer;
  lastDimissError : bool;
  dismissModalErrorCount : Z;
  presence_state : presence;
  silence_state : option silence;
  effects : list effect
}.

(** [if (t) { clearTimeout(t) }] *)
Definition clear_if_assigned (s : state) (t : timer) : list effect :=
  if bool_decide (t ∈ assigned s) then [ClearTimer t] else [].

(** The calls of one run of stopTheRecording, in order. Stopping a
    recorder that is already inactive does nothing and does not throw
    (MediaStream Recording, [stop()]). *)
Definition cleanup (cfg : config) (s : state) : list effect :=
  [RecorderStop]
  ++ map TrackStop (seq 0 (length (tracks s)))
  ++ [ClearTimer timeoutId]
  ++ clear_if_assigned s inactivityParticipantDetectionTimeout
  ++ clear_if_assigned s inactivitySilenceDetectionTimeout
  ++ clear_if_assigned s loneTest
  ++ clear_if_assigned s isOnValidGoogleMeetPageInterval
  ++ clear_if_assigned s dismissModalsInterval
  ++ (if bool_decide (dismissModalsInterval ∈ assigned s) && lastDimissError s
      then [ConsoleError] else [])
  ++ [MeetEnd (slightlySecretId cfg)].

(** The timers those calls disarm. *)
Definition cleared (s : state) : gset timer :=
  {[timeoutId]} ∪
  (assigned s ∩ {[inactivityParticipantDetectionTimeout;
                  inactivitySilenceDetectionTimeout;
                  loneTest;
                  isOnValidGoogleMeetPageInterval;
                  dismissModalsInterval]}).

(** stopTheRecording (lines 1679-1711). *)
Definition stopTheRecording (cfg : config) (s : state) : state :=
  mkState false
          (map (fun _ => false) (tracks s))
          (pending s ∖ cleared s)
          (assigned s)
          (lastDimissError s)
          (dismissModalErrorCount s)
          (presence_state s)
          (silence_state s)
          (effects s ++ cleanup cfg s).

Fixpoint stop_times (n : nat) (cfg : config) (s : state) : state :=
  match n with
  | O => s
  | S n' => stop_times n' cfg (stopTheRecording cfg s)
  end.

Definition set_pending (f : gset timer -> gset timer) (s : state) : state :=
  mkState (recording s) (tracks s) (f (pending s)) (assigned s)
          (lastDimissError s) (dismissModalErrorCount s)
          (presence_state s) (silence_state s) (effects s).
Definition set_assigned (f : gset timer -> gset timer) (s : state) : state :=
  mkState (recording s) (tracks s) (pending s) (f (assigned s))
          (lastDimissError s) (dismissModalErrorCount s)
          (presence_state s) (silence_state s) (effects s).
Definition set_presence (p : presence) (s : state) : state :=
  mkState (recording s) (tracks s) (pending s) (assigned s)
          (lastDimissError s) (dismissModalErrorCount s)
          p (silence_state s) (effects s).
Definition set_silence (q : option silence) (s : state) : state :=
  mkState (recording s) (tracks s) (pending s) (assigned s)
          (lastDimissError s) (dismissModalErrorCount s)
          (presence_state s) q (effects s).
Definition add_effect (e : effect) (s : state) : state :=
  mkState (recording s) (tracks s) (pending s) (assigned s)
          (lastDimissError s) (dismissModalErrorCount s)
          (presence_state s) (silence_state s) (effects s ++ [e]).
Definition dismiss_failed (s : state) : state :=
  mkState (recording s) (tracks s) (pending s) (assigned s)
          true (dismissModalErrorCount s + 1)
          (presence_state s) (silence_state s) (effects s).

(** [t = setTimeout(..)] or [t = setInterval(..)] *)
Definition arm (t : timer) (s : state) : state :=
  set_assigned (fun a => {[t]} ∪ a) (set_pending (fun p => {[t]} ∪ p) s).
(** [clearTimeout(t)] or [clearInterval(t)] *)
Definition clear (t : timer) (s : state) : state :=
  add_effect (ClearTimer t) (set_pending (fun p => p ∖ {[t]}) s).

Definition perform (cfg : config) (c : call) (s : state) : state :=
  match c with
  | RetryWithBackoff => arm loneTest s
  | ClearLoneTest => clear loneTest s
  | SetTimeoutMonitorSilence => set_pending (fun p => {[monitorSilenceTimeout]} ∪ p) s
  | StopTheRecording => stopTheRecording cfg s
  end.

Definition perform_all (cfg : config) (cs : list call) (s : state) : state :=
  fold_left (fun s c => perform cfg c s) cs s.

(** The script once startRecording has armed its timers (lines
    1892-1978), with [n] tracks in the stream. *)
Definition started (n : nat) : state :=
  let armed : gset timer :=
    {[inactivityParticipantDetectionTimeout;
      inactivitySilenceDetectionTimeout;
      dismissModalsInterval;
      isOnValidGoogleMeetPageInterval;
      timeoutId]} in
  mkState true (repeat true n) armed armed false 0 presence_init None [].

(** A timer fires, with what the page shows to its callback. *)
Inductive event :=
| DurationElapsed                                   (* timeoutId *)
| ActivatePresence                                  (* inactivityParticipantDetectionTimeout *)
| ActivateSilence (context_ok : bool) (sample : result (list Z))
                                                    (* inactivitySilenceDetectionTimeout *)
| LoneTestFires (r : read)                          (* loneTest *)
| MonitorSilenceFires (sample : result (list Z))    (* monitorSilenceTimeout *)
| ValidPageCheck (valid : bool)                     (* isOnValidGoogleMeetPageInterval *)
| DismissModals (ok : bool).                        (* dismissModalsInterval *)

Definition timer_of (ev : event) : timer :=
  match ev with
  | DurationElapsed => timeoutId
  | ActivatePresence => inactivityParticipantDetectionTimeout
  | ActivateSilence _ _ => inactivitySilenceDetectionTimeout
  | LoneTestFires _ => loneTest
  | MonitorSilenceFires _ => monitorSilenceTimeout
  | ValidPageCheck _ => isOnValidGoogleMeetPageInterval
  | DismissModals _ => dismissModalsInterval
  end.

Definition is_interval (t : timer) : bool :=
  match t with
  | isOnValidGoogleMeetPageInterval | dismissModalsInterval => true
  | _ => false
  end.

(** The callback of the timer of [ev]. *)
Definition callback (cfg : config) (ev : event) (s : state) : state :=
  match ev with
  | DurationElapsed => stopTheRecording cfg s
  | ActivatePresence => perform cfg RetryWithBackoff s
  | ActivateSilence context_ok sample =>
      match detectIncrediblySilentMeeting (hasAudioTracks cfg) context_ok
              (inactivityLimit cfg) sample with
      | None => s
      | Some (q, cs) => perform_all cfg cs (set_silence (Some q) s)
      end
  | LoneTestFires r =>
      let '(p, f) := check r (presence_state s) in
      perform_all cfg (calls f) (set_presence p s)
  | MonitorSilenceFires sample =>
      match silence_state s with
      | None => s
      | Some q =>
          let '(q', cs) := monitorSilence (inactivityLimit cfg) sample q in
          perform_all cfg cs (set_silence (Some q') s)
      end
  | ValidPageCheck valid =>
      if valid then s
      else stopTheRecording cfg (clear isOnValidGoogleMeetPageInterval s)
  | DismissModals ok =>
      if ok then s
      else
        let s1 := dismiss_failed s in
        if dismissModalErrorCount s1 >? 10
        then clear dismissModalsInterval s1
        else s1
  end.

(** A timer that is not armed does not fire; a time-out that fires is
    no longer armed when its callback runs. *)
Definition fire (cfg : config) (ev : event) (s : state) : state :=
  let t := timer_of ev in
  if bool_decide (t ∈ pending s)
  then callback cfg ev
         (if is_interval t then s else set_pending (fun p => p ∖ {[t]}) s)
  else s.

Definition run (cfg : config) (evs : list event) (s : state) : state :=
  fold_left (fun s ev => fire cfg ev s) evs s.

(** How many times the routine was entered: each run starts with
    [mediaRecorder.stop()]. *)
Definition count (e : effect) (s : state) : nat :=
  length (filter (fun x => x = e) (effects s)).

End Recording.

(* ================================================================= *)
(** ** The callbacks exposed to the page (recordMeetingPage, lines 1579-1594) *)
(* ================================================================= *)

Module Host.

(** What the two callbacks can change in Node: the buffers handed to
    [uploader.saveDataToTempFile], the waiting promise of line 1999
    ([None] until that line has run, then whether it was resolved
    early), and the console. *)
Record state := mkState {
  saved : list string;
  waitingPromise : option bool;
  log_info : list string;
  console_error : list string
}.

(** Modelled from the spec: [resolveEarly] of [getWaitingPromise]
    ([../lib/promise], not among the sources) resolves the recording
    wait before its time-out; resolving again changes nothing. *)
Definition resolveEarly (resolved : bool) : bool := true.

Section Callbacks.
(** [Buffer.from(data, 'base64')] *)
Variable Buffer_from_base64 : string -> string.
(** [this.slightlySecretId] *)
Variable slightlySecretId : string.

(** [None] when [saveDataToTempFile] throws: the call is rejected. *)
Definition screenAppSendData (save_ok : bool) (id data : string)
    (s : state) : option state :=
  if negb (String.eqb id slightlySecretId) then Some s
  else
    let buffer := Buffer_from_base64 data in
    if save_ok
    then Some (mkState (saved s ++ [buffer]) (waitingPromise s)
                       (log_info s) (console_error s))
    else None.

Definition screenAppMeetEnd (id : string) (s : state) : state :=
  if negb (String.eqb id slightlySecretId) then s
  else
    let s1 := mkState (saved s) (waitingPromise s)
                      (log_info s ++ ["Attempt to end meeting early..."])
                      (console_error s) in
    match waitingPromise s1 with
    | Some resolved =>
        mkState (saved s1) (Some (resolveEarly resolved))
                (log_info s1) (console_error s1)
    | None =>
        mkState (saved s1) None (log_info s1)
                (console_error s1 ++ ["Could not process meeting end event"])
    end.
End Callbacks.

End Host.

(* ================================================================= *)
(** ** join and joinMeeting (lines 89-560) *)
(* ================================================================= *)

Module Join.

(** Everything outside [join] that decides how a session goes. A
    [result unit] is a step of which only the failure matters. *)
Record env := mkEnv {
  launch : result unit;            (* createBrowserContext .. waitForTimeout, lines 142-186 *)
  dismissDeviceCheck : result unit;
  page : PageCheck.page;
  nameField : result unit;         (* lines 246-265 *)
  microphone : Speak.element;
  camera : Speak.element;
  askToJoin : result unit;         (* lines 294-331 *)
  GOOGLE_REQUEST_DENIED : string;
  joinWaitTime : Z;                (* config.joinWaitTime *)
  lobby : nat -> Lobby.poll_obs;
  bodyText : result (option string);
  closeBrowser : result unit;
  gotIt : result unit;             (* lines 494-546 *)
  speak : Speak.env;
  listening : result unit;         (* the body of startVoiceActivatedListening *)
  recordMeetingPage : result unit;
  uploadRecordingToRemoteStorage : result bool;
  patchFirst : result unit;        (* patchBotStatus of line 110 *)
  patchSecond : result unit;       (* patchBotStatus of line 125 *)
  closeLiveConnection : result unit;
  errorHandler : result unit       (* handleWaitingAtLobbyError, handleUnsupportedMeetingError *)
}.

Definition pushState (st : BotStatus) : M unit :=
  let* l := get_state in set_state (Js.push l st).

(** [patchBotStatus({ .., status: _state, .. })] *)
Definition patchBotStatus (outcome : result unit) : M unit :=
  fun w => (outcome,
            mkWorld (logs w) (actions w) (_state w) (reported w ++ [_state w])).

Definition greeting : string :=
  "Hello, I am the meeting bot my name is CDMBASE and I have joined the meeting. I will be recording this session. This is the Mock data for the meeting bot.".

(** toggleDevices (lines 268-290) *)
Definition toggleDevices (e : env) : M unit :=
  try_catch
    (log Info "Turning off microphone and camera before joining..." ;;
     Speak.findAndOptionallyClickElement (microphone e)
       "//div[@role='button' and @aria-label='Turn off microphone']" true ;;
     Speak.findAndOptionallyClickElement (camera e)
       "//div[@role='button' and @aria-label='Turn off camera']" true ;;
     log Info "Finished toggling camera and microphone")
    (fun _ => log Warn "Error toggling devices").

Definition msg_launching := "Launching browser...".
Definition msg_continue_without :=
  "Continue without microphone and camera button is probably missing!...".
Definition msg_name_field := "Waiting for the input field to be visible...".

(** joinMeeting from the name field to the admission (lines 246-490). *)
Definition request_admission (e : env) : M unit :=
  log Info msg_name_field ;;
  await (nameField e) ;;
  toggleDevices e ;;
  await (askToJoin e) ;;
  Lobby.waitAtLobby (GOOGLE_REQUEST_DENIED e) (joinWaitTime e) (lobby e)
    (bodyText e) (closeBrowser e).

(** joinMeeting up to the admission (lines 140-490). *)
Definition before_admission (e : env) : M unit :=
  log Info msg_launching ;;
  await (launch e) ;;
  try_catch (await (dismissDeviceCheck e)) (fun _ => log Info msg_continue_without) ;;
  PageCheck.classify (page e) ;;
  request_admission e.

(** joinMeeting between the two status milestones (lines 494-557). *)
Definition in_meeting (e : env) : M unit :=
  try_catch (await (gotIt e))
    (fun _ => log Info (Js.quoted "Got it" ++ " modals might be missing...")) ;;
  Speak.speakInMeeting (speak e) greeting ;;
  log Info "Starting voice-activated listening..." ;;
  try_catch (await (listening e))
    (fun _ => log Err "Error starting voice-activated listening") ;;
  log Info "Begin recording..." ;;
  await (recordMeetingPage e).

Definition joinMeeting (e : env) : M unit :=
  before_admission e ;;
  pushState joined ;;
  in_meeting e ;;
  pushState finished.

Definition handleUpload (e : env) : M bool :=
  log Info "Begin recording upload to server" ;;
  let* uploadResult := await (uploadRecordingToRemoteStorage e) in
  log Info "Recording upload result" ;;
  ret uploadResult.

Definition join (e : env) : M unit :=
  set_state [processing] ;;
  try_catch
    (joinMeeting e ;;
     let* uploadResult := handleUpload e in
     (let* st := get_state in
      if Js.includes st finished && negb uploadResult
      then set_state (Js.splice st (Js.indexOf st finished) 1 failed)
      else ret tt) ;;
     patchBotStatus (patchFirst e))
    (fun error =>
       try_catch (await (closeLiveConnection e))
         (fun _ => log Warn "Error closing Deepgram connection on error") ;;
       (let* st := get_state in
        if negb (Js.includes st finished) then pushState failed else ret tt) ;;
       patchBotStatus (patchSecond e) ;;
       (match error with
        | WaitingAtLobbyRetryError _ _ _ _ => act "handleWaitingAtLobbyError" ;; await (errorHandler e)
        | _ => ret tt
        end) ;;
       (match error with
        | UnsupportedMeetingError _ _ => act "handleUnsupportedMeetingError" ;; await (errorHandler e)
        | _ => ret tt
        end) ;;
       throw error).

(** The status array as joinMeeting leaves it, started from
    [['processing']]. *)
Definition pushed (e : env) (w : world) : list BotStatus :=
  _state (snd ((set_state [processing] ;; try_catch (joinMeeting e) (fun _ => ret tt)) w)).

(** How joinMeeting ends in that run. *)
Definition joinMeeting_outcome (e : env) (w : world) : result unit :=
  fst ((set_state [processing] ;; joinMeeting e) w).

(** The histories [join] hands to [patchBotStatus], in order. *)
Definition reports (e : env) (w : world) : list (list BotStatus) :=
  drop (length (reported w)) (reported (snd (join e w))).

(** The history with its first [finished] replaced, where it stands,
    by [failed]. *)
Fixpoint downgrade (l : list BotStatus) : list BotStatus :=
  match l with
  | [] => []
  | finished :: l' => failed :: l'
  | x :: l' => x :: downgrade l'
  end.

End Join.

(* ================================================================= *)
(** ** What the lobby poll decides, read off one observation *)
(* ================================================================= *)

Module LobbySpec.
Import Lobby.

(** What a text query answers: [Some b] for [b], [None] when it throws. *)
Definition cue (l : locator) : option bool :=
  match loc_count l with
  | Ok count =>
      if count >? 0
      then match loc_visible l with Ok b => Some b | Throw _ => None end
      else Some false
  | Throw _ => None
  end.

(** Baseline in-call evidence: the People button or the Leave-call
    button was found. *)
Definition baseline (o : poll_obs) : bool := peopleElement o || callButtonElement o.

(** The waiting-for-host text is shown. *)
Definition host_cue (o : poll_obs) : bool :=
  bool_decide (cue (lobbyModeHostWaitingText o) = Some true).

(** The request-timed-out text is shown, the waiting-for-host text was
    looked for and is not. *)
Definition request_timeout_cue (o : poll_obs) : bool :=
  bool_decide (cue (lobbyModeHostWaitingText o) = Some false)
  && bool_decide (cue (lobbyModeRequestTimeoutText o) = Some true).

(** The denial text is shown. *)
Definition denial_cue (o : poll_obs) : bool :=
  bool_decide (cue (deniedText o) = Some true).

(** A button label reads People, then anything on the same line, then
    a number. *)
Definition label_has_count (b : option string) : bool :=
  match b with
  | Some label => bool_decide (is_Some (match_People_count label))
  | None => false
  end.

Definition counter_cue (o : poll_obs) : bool :=
  match buttonLabels o with
  | Ok labels => existsb label_has_count labels
  | Throw _ => false
  end.

Definition admits (o : poll_obs) : bool :=
  baseline o && negb (host_cue o) && negb (request_timeout_cue o) && counter_cue o.

Definition denies (o : poll_obs) : bool :=
  (negb (baseline o) || host_cue o) && denial_cue o.

Definition times_out (o : poll_obs) : bool :=
  baseline o && request_timeout_cue o.

Definition undecided (o : poll_obs) : bool :=
  negb (admits o) && negb (denies o) && negb (times_out o).

(** A text query leaves the world as it is. *)
Definition shown_result (l : locator) : result bool :=
  match loc_count l with
  | Ok count => if count >? 0 then loc_visible l else Ok false
  | Throw e => Throw e
  end.

Definition lobby_mode_of (o : poll_obs) : lobby_mode :=
  match cue (lobbyModeHostWaitingText o) with
  | Some true => WAITING_FOR_HOST_TO_ADMIT_BOT
  | Some false =>
      match cue (lobbyModeRequestTimeoutText o) with
      | Some true => WAITING_REQUEST_TIMEOUT
      | Some false => LOBBY_MODE_NOT_ACTIVE
      | None => UNABLE_TO_DETECT_LOBBY_MODE
      end
  | None => UNABLE_TO_DETECT_LOBBY_MODE
  end.

(** Among the first [n] polls, poll [k] is the first that is not
    undecided, and it satisfies [P]. *)
Definition first_decided (P : poll_obs -> bool) (n : nat) (obs : nat -> poll_obs) : Prop :=
  exists k, (k < n)%nat /\ P (obs k) = true /\
            forall j, (j < k)%nat -> undecided (obs j) = true.

(** The call the callback ends with, as a function of the cues. *)
Definition verdict (o : poll_obs) : poll_action :=
  if admits o then ResolveEntering
  else if times_out o then ResolveRequestTimedOut
  else if denies o then ResolveDenied
  else KeepWaiting.

End LobbySpec.

(* ================================================================= *)
(** ** The silence the monitor accumulates, read off the samples *)
(* ================================================================= *)

Module SilenceSpec.
Import Recording.

(** The sample can be analysed. *)
Definition valid (sample : result (list Z)) : bool :=
  bool_decide (is_Some (audioActivity sample)).

(** The sample is strictly below the threshold. *)
Definition below (sample : result (list Z)) : bool :=
  match audioActivity sample with
  | Some a => Qltb a silenceThreshold
  | None => false
  end.

(** The silence accumulated over the samples, from [acc]: 100 ms more
    for a sample below the threshold, back to 0 for any other. *)
Definition accumulated (acc : Z) (samples : list (result (list Z))) : Z :=
  fold_left (fun acc sample => if below sample then acc + 100 else 0) samples acc.

(** With sample [i] the accumulated silence reaches the limit. *)
Definition reaches (acc inactivityLimit : Z) (samples : list (result (list Z)))
    (i : nat) : Prop :=
  (exists sample, samples !! i = Some sample /\ below sample = true)
  /\ accumulated acc (take (S i) samples) >= inactivityLimit.

(** The monitor requested the stop at sample [i]. *)
Definition stops_at (css : list (list call)) (i : nat) : Prop :=
  exists cs, css !! i = Some cs /\ StopTheRecording ∈ cs.

End SilenceSpec.

(* ================================================================= *)
(** ** Concrete pages and sessions *)
(* ================================================================= *)

Module Examples.

(** A page that is neither Google Meet nor the Google sign-in. *)
Definition other_page : PageCheck.page :=
  PageCheck.mkPage (Ok "https://example.com/") (Ok 0) (Ok false).
Definition sign_in_page : PageCheck.page :=
  PageCheck.mkPage (Ok "https://accounts.google.com/signin") (Ok 1) (Ok true).
Definition meet_page : PageCheck.page :=
  PageCheck.mkPage (Ok "https://meet.google.com/abc-defg-hij") (Ok 0) (Ok false).
Definition broken_page : PageCheck.page :=
  PageCheck.mkPage (Throw (OtherError "page closed")) (Ok 0) (Ok false).

Definition text_absent : Lobby.locator := Lobby.mkLocator (Ok 0) (Ok false).
Definition text_shown : Lobby.locator := Lobby.mkLocator (Ok 1) (Ok true).

(** Nothing of the call is on the page yet. *)
Definition nothing_yet : Lobby.poll_obs :=
  Lobby.mkObs false false text_absent text_absent (Ok [None]) text_absent.
(** The call controls with a participant counter. *)
Definition in_call : Lobby.poll_obs :=
  Lobby.mkObs true true text_absent text_absent
    (Ok [None; Some "People - 1 joined"]) text_absent.
(** The call controls and a counter, and the denial text as well. *)
Definition denied_in_call : Lobby.poll_obs :=
  Lobby.mkObs true true text_absent text_absent
    (Ok [Some "People - 2 joined"]) text_shown.
(** The call controls without a counter, and the denial text. *)
Definition denied_no_counter : Lobby.poll_obs :=
  Lobby.mkObs true true text_absent text_absent (Ok [Some "People"]) text_shown.
(** The denial text alone. *)
Definition denied_outside : Lobby.poll_obs :=
  Lobby.mkObs false false text_absent text_absent (Ok []) text_shown.
(** The call controls with a counter that reads zero. *)
Definition zero_counter : Lobby.poll_obs :=
  Lobby.mkObs true false text_absent text_absent
    (Ok [Some "People - 0 joined"]) text_absent.

(** Frequency bins of a silent, of a loud and of a failed analysis. *)
Definition silent_sample : result (list Z) := Ok (repeat 0 128%nat).
Definition loud_sample : result (list Z) := Ok (repeat 50 128%nat).
Definition failed_sample : result (list Z) := Throw (OtherError "analyser").

(** A one-minute inactivity limit, a stream with an audio track. *)
Definition recording_config : Recording.config :=
  Recording.mkConfig "3f0c9a52-secret" 60000 true.

(** The monitors are activated; the presence monitor reads one
    participant and stops the recording; the silence monitor goes on
    and meets a minute of silence. *)
Definition presence_then_silence : list Recording.event :=
  [Recording.ActivateSilence true loud_sample;
   Recording.ActivatePresence;
   Recording.LoneTestFires (Recording.Count 1)]
  ++ repeat (Recording.MonitorSilenceFires silent_sample) 600.

(** The request-timed-out text alone. *)
Definition timed_out_outside : Lobby.poll_obs :=
  Lobby.mkObs false false text_absent text_shown (Ok []) text_absent.
(** The call controls and the request-timed-out text. *)
Definition timed_out_in_call : Lobby.poll_obs :=
  Lobby.mkObs true true text_absent text_shown (Ok []) text_absent.

(** An element that is there and can be clicked, and one whose click
    throws. *)
Definition clickable : Speak.element := Speak.mkElement (Ok 1) (Ok true) (Ok tt) (Ok tt).
Definition unclickable : Speak.element :=
  Speak.mkElement (Ok 1) (Ok true) (Throw (OtherError "detached")) (Ok tt).

(** A page on which speaking goes through, but for the synthesis, the
    creation of the stream or the playback as given. *)
Definition speaking (tts : result string) (stream_ok playback_ok : bool) : Speak.env :=
  Speak.mkEnv true (Ok tt) tts (Ok (Speak.mkStream stream_ok))
    (fun _ => clickable) clickable (Ok []) (Ok tt)
    clickable (Ok tt) clickable (Ok tt)
    (Ok (Speak.mkPlayback playback_ok playback_ok)) (Ok tt) (Ok true)
    (fun _ => clickable).

(** A session in which everything goes through, but for the page it
    lands on, the recording, the upload and the first status report as
    given; the bot is let in at the second poll. *)
Definition session (page : PageCheck.page) (recording : result unit)
    (upload : result bool) (patch : result unit) : Join.env :=
  Join.mkEnv (Ok tt) (Ok tt) page (Ok tt) clickable clickable (Ok tt)
    "You can't join this call" 10
    (fun k => if (k <? 1)%nat then nothing_yet else in_call)
    (Ok None) (Ok tt) (Ok tt)
    (speaking (Ok "UklGRg==") true true)
    (Ok tt) recording upload patch (Ok tt) (Ok tt) (Ok tt).

(** The clock ([Date.now()], in ms) when the capture is set up. *)
Definition session_start : Z := 1700000000000.

(** A batch of eight silent frames, put together while a response is
    in progress; the last activity was at the start. *)
Definition batch_while_responding : Voice.state :=
  Voice.mkState true (repeat Voice.silent_frame 8) 0 session_start 8 [].

(** One silent frame and no activity since the start. *)
Definition small_stale_batch : Voice.state :=
  Voice.mkState false [Voice.silent_frame] 0 session_start 1 [].

End Examples.

(* ================================================================= *)
(** ** The speech-to-text service (src/services/sttService.ts) *)
(* ================================================================= *)

Module Stt.

(** A [Buffer]: its bytes. *)
Definition buffer := list Z.

(** How a live connection of the Deepgram client answers the three
    methods the service calls on it. *)
Record behaviour := mkBehaviour {
  getReadyState : result Z;
  send : result unit;
  finish : result unit
}.

(** A connection object: [ident] tells the objects apart. *)
Record connection := mkConnection {
  ident : nat;
  answers : behaviour
}.

(** The calls the service makes on connections and on the
    [onTranscript] callback, oldest first. A call is listed whether it
    returns or throws. *)
Inductive call :=
| Send (c : nat) (audioBuffer : buffer)
| Finish (c : nat)
| OnTranscript (c : nat) (transcript : string) (isFinal : bool).

(** The service: the map [liveConnections], the connection id each
    connection object's event handlers were registered with (they are
    closures over [connectionId]), the number of connection objects
    made so far, the logger's lines and the calls. *)
Record service := mkService {
  liveConnections : gmap string connection;
  handlers : gmap nat string;
  created : nat;
  logger : list (level * string);
  calls : list call
}.

Definition empty : service := mkService ∅ ∅ 0 [] [].

Definition write (l : level) (msg : string) (s : service) : service :=
  mkService (liveConnections s) (handlers s) (created s)
            (logger s ++ [(l, msg)]) (calls s).

Definition called (c : call) (s : service) : service :=
  mkService (liveConnections s) (handlers s) (created s)
            (logger s) (calls s ++ [c]).

Definition set_connections (m : gmap string connection) (s : service) : service :=
  mkService m (handlers s) (created s) (logger s) (calls s).

(** createLiveConnection (lines 24-84). [live] is what
    [deepgram.listen.live] does; registering a handler does not throw. *)
Definition createLiveConnection (live : result behaviour) (connectionId : string)
    (s : service) : result connection * service :=
  let s1 := write Info "Creating Deepgram live transcription connection" s in
  match live with
  | Ok b =>
      let connection := mkConnection (created s1) b in
      (Ok connection,
       mkService (<[connectionId := connection]> (liveConnections s1))
                 (<[created s1 := connectionId]> (handlers s1))
                 (S (created s1)) (logger s1) (calls s1))
  | Throw e => (Throw e, write Err "Error creating Deepgram live connection" s1)
  end.

(** The payload of a 'results' event: [data.channel?.alternatives?.[0]?.transcript]
    and [data.is_final], each absent or present. *)
Record results_data := mkData {
  data_transcript : option string;
  data_is_final : option bool
}.

(** The handlers of connection object [c] (lines 38-73). An object the
    service did not make has none. *)
Definition on_open (c : nat) (s : service) : service :=
  match handlers s !! c with
  | Some _ => write Info "Deepgram live connection opened" s
  | None => s
  end.

Definition on_results (onTranscript : string -> bool -> result unit) (c : nat)
    (data : results_data) (s : service) : service :=
  match handlers s !! c with
  | Some _ =>
      let transcript := default EmptyString (data_transcript data) in
      let isFinal := default false (data_is_final data) in
      if negb (Js.strlen transcript =? 0) && (Js.strlen (Js.trim transcript) >? 0)
      then
        let s1 := called (OnTranscript c transcript isFinal)
                    (write Info "Deepgram real-time transcript" s) in
        match onTranscript transcript isFinal with
        | Ok _ => s1
        | Throw _ => write Err "Error processing Deepgram result" s1
        end
      else s
  | None => s
  end.

Definition on_error (c : nat) (s : service) : service :=
  match handlers s !! c with
  | Some _ => write Err "Deepgram live connection error" s
  | None => s
  end.

Definition on_close (c : nat) (s : service) : service :=
  match handlers s !! c with
  | Some connectionId =>
      let s1 := write Info "Deepgram live connection closed" s in
      set_connections (delete connectionId (liveConnections s1)) s1
  | None => s
  end.

(** sendToLiveConnection (lines 91-113) *)
Definition sendToLiveConnection (connectionId : string) (audioBuffer : buffer)
    (s : service) : service :=
  match liveConnections s !! connectionId with
  | None => write Warn "Live connection not found" s
  | Some connection =>
      match getReadyState (answers connection) with
      | Ok readyState =>
          if readyState =? 1
          then
            let s1 := called (Send (ident connection) audioBuffer) s in
            match send (answers connection) with
            | Ok _ => s1
            | Throw _ => write Err "Error sending to live connection" s1
            end
          else write Warn "Live connection not open" s
      | Throw _ => write Err "Error sending to live connection" s
      end
  end.

(** closeLiveConnection (lines 119-133) *)
Definition closeLiveConnection (connectionId : string) (s : service) : service :=
  match liveConnections s !! connectionId with
  | Some connection =>
      let s1 := called (Finish (ident connection)) s in
      match finish (answers connection) with
      | Ok _ =>
          write Info "Closed Deepgram live connection"
            (set_connections (delete connectionId (liveConnections s1)) s1)
      | Throw _ => write Err "Error closing live connection" s1
      end
  | None => s
  end.

(** The texts [__triggerBotResponse] is called with when the callback
    of lines 1022-1043 is the [onTranscript] of the service. *)
Definition triggered (c : call) : option string :=
  match c with
  | OnTranscript _ transcript isFinal => Voice.onLiveTranscript transcript isFinal
  | _ => None
  end.

(** *** transcribe (lines 140-292) *)

(** The [mimetype] option of a [transcribeFile] request; the last
    request gives none. *)
Inductive mimetype := AudioWav | AudioWebmOpus | AudioWebm | AutoDetect.

#[global] Instance mimetype_eq_dec : EqDecision mimetype.
Proof. solve_decision. Defined.

(** The first result: [firstResult.channels?.[0]?.alternatives?.[0]?.transcript]. *)
Record first_result := mkFirst { fr_transcript : option string }.

(** [response.result.results], an array or a single object. *)
Inductive results :=
| ResultsArray (l : list (option first_result))
| ResultsObject (r : first_result).

(** A response of [transcribeFile]: the message of its [error]
    ([error.message || JSON.stringify(error)]) when it has one; its
    [result], and in it [results], each [None] when falsy. *)
Record response := mkResponse {
  resp_error : option string;
  resp_result : option (option results)
}.

(** The buffer starts with the bytes of "RIFF". *)
Definition isWav (audioBuffer : buffer) : bool :=
  (Z.of_nat (length audioBuffer) >=? 4)
  && bool_decide (audioBuffer !! 0%nat = Some 82)
  && bool_decide (audioBuffer !! 1%nat = Some 73)
  && bool_decide (audioBuffer !! 2%nat = Some 70)
  && bool_decide (audioBuffer !! 3%nat = Some 70).

Definition request (m : mimetype) : string :=
  match m with
  | AudioWav => "transcribeFile audio/wav"
  | AudioWebmOpus => "transcribeFile audio/webm;codecs=opus"
  | AudioWebm => "transcribeFile audio/webm"
  | AutoDetect => "transcribeFile"
  end.

(** [Array.isArray(results) ? results[0] : results], [None] when falsy. *)
Definition firstResult (r : results) : option first_result :=
  match r with
  | ResultsArray l => mjoin (head l)
  | ResultsObject r => Some r
  end.

(** What transcribe makes of a response that is not falsy (lines 228-283). *)
Definition read_response (r : response) : M string :=
  match resp_error r with
  | Some errorMsg =>
      log Warn "Deepgram returned an error" ;;
      if Js.str_includes errorMsg "corrupt" || Js.str_includes errorMsg "unsupported"
         || Js.str_includes errorMsg "Bad Request"
      then
        log Warn "Deepgram cannot process audio format - chunk may be invalid, incomplete, or too short" ;;
        ret EmptyString
      else ret EmptyString
  | None =>
      match resp_result r with
      | None => log Warn "Deepgram response has no result" ;; ret EmptyString
      | Some None =>
          log Warn "Deepgram returned no results - audio may be too short or contain no speech" ;;
          ret EmptyString
      | Some (Some results) =>
          match firstResult results with
          | None => log Warn "Deepgram returned empty results" ;; ret EmptyString
          | Some first =>
              let transcript := default EmptyString (fr_transcript first) in
              if (Js.strlen transcript =? 0) || (Js.strlen (Js.trim transcript) =? 0)
              then
                log Warn "Deepgram transcript is empty - audio may contain no speech" ;;
                ret EmptyString
              else log Info "Successfully transcribed audio" ;; ret transcript
          end
      end
  end.

(** transcribe. [transcribeFile m] is what the request with mimetype
    [m] does, [Ok None] for a falsy response; each request made is
    listed among the actions. *)
Definition transcribe (transcribeFile : mimetype -> result (option response))
    (audioBuffer : buffer) : M string :=
  try_catch
    (log Info "Transcribing audio with Deepgram" ;;
     let* wav :=
       (if isWav audioBuffer
        then
          try_catch
            (log Info "Detected WAV format, transcribing with WAV mimetype" ;;
             act (request AudioWav) ;;
             await (transcribeFile AudioWav))
            (fun _ => log Warn "WAV transcription failed, trying WebM" ;; ret None)
        else ret None) in
     let* webm :=
       (match wav with
        | None =>
            try_catch
              (log Info "Trying WebM with opus codec" ;;
               act (request AudioWebmOpus) ;;
               await (transcribeFile AudioWebmOpus))
              (fun _ =>
                 log Warn "WebM with opus codec failed, trying basic WebM" ;;
                 try_catch
                   (act (request AudioWebm) ;;
                    await (transcribeFile AudioWebm))
                   (fun _ => log Warn "Basic WebM failed, trying auto-detect" ;; ret None))
        | Some _ => ret wav
        end) in
     let* response :=
       (match webm with
        | None =>
            try_catch
              (log Info "Trying auto-detect format" ;;
               act (request AutoDetect) ;;
               await (transcribeFile AutoDetect))
              (fun autoDetectError =>
                 log Err "All transcription attempts failed" ;; throw autoDetectError)
        | Some _ => ret webm
        end) in
     match response with
     | None => log Err "Deepgram returned null response" ;; ret EmptyString
     | Some r => read_response r
     end)
    (fun error => log Err "Error transcribing audio" ;; throw error).

(** A request that brought no response: it threw, or what it returned
    is falsy. *)
Definition no_response (r : result (option response)) : bool :=
  match r with
  | Ok (Some _) => false
  | _ => true
  end.

(** The requests transcribe made in a run from [w]. *)
Definition requests (w w' : world) : list string :=
  drop (length (actions w)) (actions w').

End Stt.

(* ================================================================= *)
(** ** The response and synthesis services
       (src/services/openaiService.ts, src/services/ttsService.ts) *)
(* ================================================================= *)

Module OpenAI.

Definition fallback : string :=
  "I'm here to help with your onboarding. How can I assist you today?".

(** A message of a chat completion request. *)
Record message := mkMessage { role : string; content : string }.

(** The service: its system prompt. *)
Record service := mkService { systemPrompt : string }.

(** [this.openai.chat.completions.create] for the messages sent:
    [completion.choices[0]?.message?.content], [None] when the chain
    ends in nothing, or the exception of the call or of reading a
    completion that has no choices. *)
Definition client := list message -> result (option string).

Definition nl : string := String "010"%char EmptyString.

Definition defaultPrompt : string :=
  "You are a friendly and helpful HR representative who is onboarding new employees. " ++ nl ++
  "Your role is to:" ++ nl ++
  "- Welcome new employees warmly" ++ nl ++
  "- Answer questions about the company, policies, and procedures" ++ nl ++
  "- Guide them through the onboarding process" ++ nl ++
  "- Be conversational, approachable, and professional" ++ nl ++
  "- Keep responses brief (1-2 sentences) and natural" ++ nl ++
  "- Act like a helpful chat bot that engages in conversation" ++ nl ++ nl ++
  "Always respond in a conversational, friendly manner. If someone greets you, greet them back warmly. If they ask questions, answer helpfully. Engage naturally in the conversation.".

(** A value that may be missing, and is falsy when it is the empty
    string: an environment variable, an optional argument. *)
Definition truthy (x : option string) : option string :=
  match x with
  | Some EmptyString => None
  | _ => x
  end.

(** The constructor (lines 9-26), given [process.env.OPENAI_API_KEY]. *)
Definition constructor (OPENAI_API_KEY : option string) (systemPrompt : option string)
    : result service :=
  match truthy OPENAI_API_KEY with
  | None => Throw (OtherError "OPENAI_API_KEY environment variable is required")
  | Some _ => Ok (mkService (default defaultPrompt (truthy systemPrompt)))
  end.

(** [x?.trim() || ''] *)
Definition trimmed (c : option string) : string :=
  match c with
  | Some s => Js.trim s
  | None => EmptyString
  end.

(** [x || y] on strings: the empty string is falsy. *)
Definition or_else (x y : string) : string :=
  match x with
  | EmptyString => y
  | _ => x
  end.

(** generateResponse (lines 33-70). The request is listed among the
    actions by the content of its messages. *)
Definition generateResponse (create : client) (svc : service) (userMessage : string)
    : M string :=
  try_catch
    (log Info "Generating OpenAI response" ;;
     act ("system: " ++ systemPrompt svc) ;;
     act ("user: " ++ userMessage) ;;
     let* completion :=
       await (create [mkMessage "system" (systemPrompt svc);
                      mkMessage "user" userMessage]) in
     let responseText := trimmed completion in
     log Info "Successfully generated OpenAI response" ;;
     ret (or_else responseText fallback))
    (fun _ =>
       log Err "Error generating OpenAI response" ;;
       ret fallback).

(** setSystemPrompt (lines 76-79) *)
Definition setSystemPrompt (newPrompt : string) (svc : service) : M service :=
  log Info "Updated OpenAI system prompt" ;;
  ret (mkService newPrompt).

End OpenAI.

Module Tts.

(** A response body as the reader delivers it: the [value] of each
    read that is not the last, absent or present, and how the stream
    ends: [done], or a read that rejects. *)
Record stream := mkStream {
  values : list (option Stt.buffer);
  ending : result unit
}.

(** What [deepgram.speak.request] resolves to: [getStream()]. *)
Record response := mkResponse { getStream : result (option stream) }.

(** [try { m } finally { f }] *)
Definition try_finally {A} (m : M A) (f : M unit) : M A :=
  fun w =>
    match m w with
    | (r, w') =>
        match f w' with
        | (Ok _, w'') => (r, w'')
        | (Throw e, w'') => (Throw e, w'')
        end
    end.

(** The loop of lines 53-59 over the reads that are left. *)
Fixpoint read_all (values : list (option Stt.buffer)) (ending : result unit)
    (chunks : list Stt.buffer) : M (list Stt.buffer) :=
  match values with
  | value :: rest =>
      read_all rest ending
        match value with
        | Some v => Js.push chunks v
        | None => chunks
        end
  | [] => await ending ;; ret chunks
  end.

(** textToSpeech (lines 17-71). [request] is what
    [deepgram.speak.request] does: an exception, a falsy response, or a
    response. *)
Definition textToSpeech (request : result (option response)) (text : string)
    : M Stt.buffer :=
  try_catch
    (log Info "Generating speech with Deepgram TTS" ;;
     let* response := await request in
     match response with
     | None => throw (OtherError "Deepgram TTS returned no response")
     | Some response =>
         let* audioStream := await (getStream response) in
         match audioStream with
         | None => throw (OtherError "Deepgram TTS response has no stream")
         | Some audioStream =>
             act "getReader" ;;
             let* chunks :=
               try_finally (read_all (values audioStream) (ending audioStream) [])
                           (act "releaseLock") in
             let audioBuffer := concat chunks in
             log Info "Successfully generated TTS audio" ;;
             ret audioBuffer
         end
     end)
    (fun error => log Err "Error generating TTS" ;; throw error).

End Tts.

(* ================================================================= *)
(** ** The bot around its services (src/bots/GoogleMeetBot.ts) *)
(* ================================================================= *)

Module Bot.

(** The constructor of the speech-to-text service (sttService.ts,
    lines 9-16), given [process.env.DEEPGRAM_API_KEY]. *)
Definition SttService (DEEPGRAM_API_KEY : option string) : result Stt.service :=
  match OpenAI.truthy DEEPGRAM_API_KEY with
  | None => Throw (OtherError "DEEPGRAM_API_KEY environment variable is required")
  | Some _ => Ok Stt.empty
  end.

(** The two services as the constructor of the bot leaves them (lines
    27-52): [None] for [null]. *)
Record services := mkServices {
  _openAI : option OpenAI.service;
  _sttService : option Stt.service
}.

Definition constructor (OPENAI_API_KEY DEEPGRAM_API_KEY : option string) : M services :=
  let* openAI :=
    try_catch
      (let* svc := await (OpenAI.constructor OPENAI_API_KEY None) in
       log Info "OpenAI service initialized successfully" ;;
       ret (Some svc))
      (fun _ =>
         log Warn "Failed to initialize OpenAI service" ;;
         log Warn "Voice-activated responses will use fallback messages" ;;
         ret None) in
  let* sttService :=
    try_catch
      (let* svc := await (SttService DEEPGRAM_API_KEY) in
       log Info "STT service initialized successfully" ;;
       ret (Some svc))
      (fun _ => log Warn "Failed to initialize STT service" ;; ret None) in
  ret (mkServices openAI sttService).

(** [__triggerBotResponse] (lines 992-1014), with the method
    [speakInMeeting] it calls. *)
Definition triggerBotResponse (openAI : option OpenAI.service) (create : OpenAI.client)
    (speakInMeeting : string -> M unit) (userMessage : string) : M unit :=
  log Info "Voice input detected, generating AI response" ;;
  try_catch
    (let* responseText :=
       match openAI with
       | Some svc =>
           let* responseText := OpenAI.generateResponse create svc userMessage in
           log Info "Generated AI response" ;;
           ret responseText
       | None =>
           log Warn "OpenAI not available, using fallback response" ;;
           ret OpenAI.fallback
       end in
     speakInMeeting responseText)
    (fun _ =>
       log Err "Error generating AI response" ;;
       speakInMeeting OpenAI.fallback).

(** [__sendAudioToDeepgram] (lines 1048-1065): the [success] it
    answers, and the service after the call. [Buffer.from] does not
    throw on a string. *)
Definition sendAudioToDeepgram (Buffer_from_base64 : string -> Stt.buffer)
    (sttService : option Stt.service) (deepgramConnectionId : option string)
    (audioBase64 : string) : bool * option Stt.service :=
  match sttService, deepgramConnectionId with
  | Some svc, Some connectionId =>
      let audioBuffer := Buffer_from_base64 audioBase64 in
      (true, Some (Stt.sendToLiveConnection connectionId audioBuffer svc))
  | _, _ => (false, sttService)
  end.

(** [__processAudioChunk] (lines 1068-1090); the service is given by
    what its requests do. *)
Definition processAudioChunk (Buffer_from_base64 : string -> Stt.buffer)
    (sttService : option (Stt.mimetype -> result (option Stt.response)))
    (audioBase64 : string) : M Voice.chunk_result :=
  log Info "Received audio chunk for transcription (fallback)" ;;
  match sttService with
  | None =>
      log Warn "STT service not available for audio transcription" ;;
      ret (Voice.ChunkResult false EmptyString)
  | Some transcribeFile =>
      try_catch
        (let audioBuffer := Buffer_from_base64 audioBase64 in
         log Info "Decoded audio buffer" ;;
         let* transcript := Stt.transcribe transcribeFile audioBuffer in
         log Info "Transcribed audio chunk" ;;
         ret (Voice.ChunkResult true transcript))
        (fun _ =>
           log Err "Error transcribing audio chunk" ;;
           ret (Voice.ChunkResult false EmptyString))
  end.

(** *** Asking to join (lines 294-331) *)

(** The first button with one of the texts: its [count()] and what
    [click()] does. *)
Record join_button := mkJoinButton {
  jb_count : result Z;
  jb_click : result unit
}.

Definition possibleTexts : list string := ["Ask to join"; "Join now"; "Join anyway"].

(** One turn of the loop of lines 306-318: whether the button with
    [text] was clicked. *)
Definition click_text (buttons : string -> join_button) (text : string) : M bool :=
  try_catch
    (let* count := await (jb_count (buttons text)) in
     if count >? 0
     then
       act ("click " ++ text) ;;
       await (jb_click (buttons text)) ;;
       log Info ("Success clicked using " ++ Js.quoted text ++ " action...") ;;
       ret true
     else ret false)
    (fun _ =>
       log Warn ("Unable to click using " ++ Js.quoted text ++ " action...") ;;
       ret false).

(** The loop over the texts that are left; it ends with
    [buttonClicked]. *)
Fixpoint click_first (buttons : string -> join_button) (texts : list string) : M bool :=
  match texts with
  | [] => ret false
  | text :: rest =>
      let* buttonClicked := click_text buttons text in
      if buttonClicked then ret true else click_first buttons rest
  end.

(** The action given to [retryActionWithWait]. *)
Definition askToJoin (buttons : string -> join_button) : M unit :=
  let* buttonClicked := click_first buttons possibleTexts in
  if negb buttonClicked
  then throw (OtherError "Unable to complete the join action...")
  else ret tt.

(** A button that is there and takes the click. *)
Definition takes_click (b : join_button) : bool :=
  match jb_count b, jb_click b with
  | Ok count, Ok _ => count >? 0
  | _, _ => false
  end.

(** A button that is there: it is clicked. *)
Definition present (b : join_button) : bool :=
  match jb_count b with
  | Ok count => count >? 0
  | Throw _ => false
  end.

(** The head of a list up to and with the first element that has [P]. *)
Fixpoint up_to_first {A} (P : A -> bool) (l : list A) : list A :=
  match l with
  | [] => []
  | x :: rest => if P x then [x] else x :: up_to_first P rest
  end.

(** *** Dismissing the Got it modals (lines 494-546) *)

(** One turn of the loop: the visible buttons, each with what its
    click and the wait after it do, and the wait that ends the turn. *)
Record turn := mkTurn {
  visibleButtons : result (list (result unit));
  pause : result unit
}.

(** The loop of lines 529-539. *)
Fixpoint click_all (btns : list (result unit)) (gotItButtonsClicked : Z) : M Z :=
  match btns with
  | [] => ret gotItButtonsClicked
  | btn :: rest =>
      let* n :=
        try_catch
          (act "click Got it" ;;
           await btn ;;
           let gotItButtonsClicked := gotItButtonsClicked + 1 in
           log Info ("Clicked a " ++ Js.quoted "Got it" ++ " button #"
                     ++ Js.number_text gotItButtonsClicked) ;;
           ret gotItButtonsClicked)
          (fun _ =>
             log Warn "Click failed, possibly already dismissed" ;;
             ret gotItButtonsClicked) in
      click_all rest n
  end.

Definition maxConsecutiveNoChange : Z := 2.

(** The [while (true)] of lines 505-542, from its turn [k] on. It
    returns the number of buttons clicked when it leaves the loop,
    [None] when [fuel] turns did not end it. *)
Fixpoint gotIt_loop (fuel : nat) (page : nat -> turn) (k : nat)
    (gotItButtonsClicked previousButtonCount consecutiveNoChangeCount : Z)
    : M (option Z) :=
  match fuel with
  | O => ret None
  | S fuel' =>
      let* visibleButtons := await (visibleButtons (page k)) in
      let currentButtonCount := Z.of_nat (length visibleButtons) in
      if currentButtonCount =? 0 then ret (Some gotItButtonsClicked)
      else
        let unchanged := currentButtonCount =? previousButtonCount in
        let consecutiveNoChangeCount :=
          if unchanged then consecutiveNoChangeCount + 1 else 0 in
        if unchanged && (consecutiveNoChangeCount >=? maxConsecutiveNoChange)
        then
          log Warn "Button count hasn't changed for 2 iterations, stopping" ;;
          ret (Some gotItButtonsClicked)
        else
          let* clicked := click_all visibleButtons gotItButtonsClicked in
          await (pause (page k)) ;;
          gotIt_loop fuel' page (S k) clicked currentButtonCount consecutiveNoChangeCount
  end.

(** Lines 494-546: [Some true] when the loop was left, [Some false]
    when an exception ended the [try]. *)
Definition dismissGotIt (fuel : nat) (waitForSelector : result unit)
    (page : nat -> turn) : M (option bool) :=
  try_catch
    (log Info ("Waiting for the " ++ Js.quoted "Got it" ++ " button...") ;;
     await waitForSelector ;;
     log Info ("Going to click all visible " ++ Js.quoted "Got it" ++ " buttons...") ;;
     let* r := gotIt_loop fuel page 0 0 (-1) 0 in
     ret (match r with Some _ => Some true | None => None end))
    (fun _ =>
       log Info (Js.quoted "Got it" ++ " modals might be missing...") ;;
       ret (Some false)).

(** *** Capturing the remote audio (lines 1198-1222) *)

Inductive capture_step :=
| RetryIn5s                   (* setTimeout(tryCaptureAndTranscribe, 5000) *)
| StartMicrophoneRecognition  (* the fallback *)
| StartTranscription.         (* the stream was captured: lines 1224-1463 *)

#[global] Instance capture_step_eq_dec : EqDecision capture_step.
Proof. solve_decision. Defined.

Definition maxRetries : Z := 10.

(** The head of tryCaptureAndTranscribe: [stream] says whether
    captureRemoteAudio gave a stream. *)
Definition tryCaptureAndTranscribe (stream : bool) (retryCount : Z)
    : Z * capture_step :=
  if negb stream
  then
    let retryCount := retryCount + 1 in
    if retryCount <? maxRetries then (retryCount, RetryIn5s)
    else (retryCount, StartMicrophoneRecognition)
  else (retryCount, StartTranscription).

(** The attempts one after the other, for as long as a retry is
    armed: what each did. *)
Fixpoint capture_chain (streams : list bool) (retryCount : Z) : list capture_step :=
  match streams with
  | [] => []
  | stream :: rest =>
      let '(retryCount', step) := tryCaptureAndTranscribe stream retryCount in
      step :: match step with
              | RetryIn5s => capture_chain rest retryCount'
              | _ => []
              end
  end.

End Bot.

(* ================================================================= *)
(** ** The WAV encoder of the capture path
       (GoogleMeetBot.ts, lines 1303-1358 and 1397-1423) *)
(* ================================================================= *)

Module Wav.

(** A value of a [Float32Array]: a number, an infinity or NaN. The
    encoder multiplies a 24-bit significand by a 15-bit integer or by a
    power of two, which doubles do exactly, so the numbers are exact
    rationals here. *)
Inductive float := Finite (q : Q) | PosInf | NegInf | NaN.

(** [Math.min(1, x)] *)
Definition min_1 (x : float) : float :=
  match x with
  | Finite q => Finite (Qmin 1 q)
  | PosInf => Finite 1
  | NegInf => NegInf
  | NaN => NaN
  end.

(** [Math.max(-1, x)] *)
Definition max_minus_1 (x : float) : float :=
  match x with
  | Finite q => Finite (Qmax (-1) q)
  | PosInf => PosInf
  | NegInf => Finite (-1)
  | NaN => NaN
  end.

(** [sample < 0 ? sample * 0x8000 : sample * 0x7FFF] *)
Definition scale (sample : float) : float :=
  match sample with
  | Finite q =>
      if Recording.Qltb q 0 then Finite (q * 32768) else Finite (q * 32767)
  | PosInf => PosInf
  | NegInf => NegInf
  | NaN => NaN
  end.

(** The integer part of a number, towards zero. *)
Definition truncate (q : Q) : Z := Z.quot (Qnum q) (Z.pos (Qden q)).

(** [ToInt16]: what [setInt16] makes of a number. *)
Definition ToInt16 (x : float) : Z :=
  match x with
  | Finite q =>
      let int16bit := truncate q mod 65536 in
      if int16bit >=? 32768 then int16bit - 65536 else int16bit
  | _ => 0
  end.

(** The 16-bit sample written for [channels[i][offset]]. *)
Definition pcm16 (x : float) : Z := ToInt16 (scale (max_minus_1 (min_1 x))).

(** [n] bytes of [u], the least significant first. *)
Definition le (n : nat) (u : Z) : list Z :=
  map (fun i => (u / 256 ^ Z.of_nat i) mod 256) (seq 0 n).

(** The [ArrayBuffer] under its [DataView], and the variable [pos]. *)
Record writer := mkWriter {
  view : list Z;
  pos : Z
}.

(** Writing bytes at [pos] and moving [pos] past them; [None] is the
    RangeError of a write that does not fit. *)
Definition store (bs : list Z) (v : writer) : option writer :=
  let n := Z.of_nat (length bs) in
  if (0 <=? pos v) && (pos v + n <=? Z.of_nat (length (view v)))
  then Some (mkWriter (take (Z.to_nat (pos v)) (view v) ++ bs
                         ++ drop (Z.to_nat (pos v + n)) (view v))
                      (pos v + n))
  else None.

(** [view.setUint16(pos, data, true); pos += 2] and the like. *)
Definition setUint16 (data : Z) : writer -> option writer := store (le 2 (data mod 2 ^ 16)).
Definition setUint32 (data : Z) : writer -> option writer := store (le 4 (data mod 2 ^ 32)).
Definition setInt16 (x : float) : writer -> option writer :=
  store (le 2 (ToInt16 x mod 2 ^ 16)).

(** [view.getInt16(pos, true)], to read a sample back. *)
Definition getInt16 (bytes : list Z) (pos : nat) : option Z :=
  lo ← bytes !! pos;
  hi ← bytes !! S pos;
  let u := lo + 256 * hi in
  Some (if u >=? 32768 then u - 65536 else u).

(** [view.getUint32(pos, true)] *)
Definition getUint32 (bytes : list Z) (pos : nat) : option Z :=
  b0 ← bytes !! pos;
  b1 ← bytes !! S pos;
  b2 ← bytes !! S (S pos);
  b3 ← bytes !! S (S (S pos));
  Some (b0 + 256 * b1 + 65536 * b2 + 16777216 * b3).

(** An [AudioBuffer]: [numberOfChannels] channels of [length] samples. *)
Record AudioBuffer := mkAudioBuffer {
  length : nat;
  sampleRate : Z;
  channels : list (list float)
}.

Definition numberOfChannels (buffer : AudioBuffer) : Z :=
  Z.of_nat (List.length (channels buffer)).

(** The header (lines 1323-1340). *)
Definition write_header (buffer : AudioBuffer) (v : writer) : option writer :=
  let length := Z.of_nat (length buffer) in
  let numberOfChannels := numberOfChannels buffer in
  let sampleRate := sampleRate buffer in
  v ← setUint32 1179011410 v;
  v ← setUint32 (36 + length * numberOfChannels * 2) v;
  v ← setUint32 1163280727 v;
  v ← setUint32 544501094 v;
  v ← setUint32 16 v;
  v ← setUint16 1 v;
  v ← setUint16 numberOfChannels v;
  v ← setUint32 sampleRate v;
  v ← setUint32 (sampleRate * numberOfChannels * 2) v;
  v ← setUint16 (numberOfChannels * 2) v;
  v ← setUint16 16 v;
  v ← setUint32 1635017060 v;
  setUint32 (length * numberOfChannels * 2) v.

(** [channels[i][offset]]: a missing element is [undefined], which
    [Math.min] turns into NaN. *)
Definition sample_at (channel : list float) (offset : nat) : float :=
  default NaN (channel !! offset).

(** The [for] of lines 1348-1353 over the channels that are left. *)
Fixpoint write_frame (channels : list (list float)) (offset : nat) (v : writer)
    : option writer :=
  match channels with
  | [] => Some v
  | channel :: rest =>
      v ← setInt16 (scale (max_minus_1 (min_1 (sample_at channel offset)))) v;
      write_frame rest offset v
  end.

Inductive outcome :=
| Done (arrayBuffer : list Z)
| RangeError
| OutOfFuel.

(** The [while (pos < arrayBuffer.byteLength)] of lines 1347-1355. *)
Fixpoint write_frames (fuel : nat) (channels : list (list float)) (offset : nat)
    (v : writer) : outcome :=
  if pos v <? Z.of_nat (List.length (view v))
  then
    match fuel with
    | O => OutOfFuel
    | S fuel' =>
        match write_frame channels offset v with
        | Some v' => write_frames fuel' channels (S offset) v'
        | None => RangeError
        end
    end
  else Done (view v).

(** audioBufferToWav *)
Definition audioBufferToWav (fuel : nat) (buffer : AudioBuffer) : outcome :=
  let arrayBuffer :=
    replicate (44 + length buffer * List.length (channels buffer) * 2) 0 in
  match write_header buffer (mkWriter arrayBuffer 0) with
  | Some v => write_frames fuel (channels buffer) 0 v
  | None => RangeError
  end.

(** The 44 bytes of the header. *)
Definition header_bytes (buffer : AudioBuffer) : list Z :=
  let length := Z.of_nat (length buffer) in
  let numberOfChannels := numberOfChannels buffer in
  let sampleRate := sampleRate buffer in
  le 4 (1179011410 mod 2 ^ 32)
  ++ le 4 ((36 + length * numberOfChannels * 2) mod 2 ^ 32)
  ++ le 4 (1163280727 mod 2 ^ 32)
  ++ le 4 (544501094 mod 2 ^ 32)
  ++ le 4 (16 mod 2 ^ 32)
  ++ le 2 (1 mod 2 ^ 16)
  ++ le 2 (numberOfChannels mod 2 ^ 16)
  ++ le 4 (sampleRate mod 2 ^ 32)
  ++ le 4 ((sampleRate * numberOfChannels * 2) mod 2 ^ 32)
  ++ le 2 ((numberOfChannels * 2) mod 2 ^ 16)
  ++ le 2 (16 mod 2 ^ 16)
  ++ le 4 (1635017060 mod 2 ^ 32)
  ++ le 4 ((length * numberOfChannels * 2) mod 2 ^ 32).

(** The bytes of the samples at [offset], one channel after the other. *)
Definition frame_bytes (channels : list (list float)) (offset : nat) : list Z :=
  flat_map (fun channel => le 2 (pcm16 (sample_at channel offset) mod 2 ^ 16)) channels.

(** The value of a double of the capture path as a sample of the
    encoder. *)
Definition of_double (x : Voice.double) : float :=
  match x with
  | S754_zero _ => Finite 0
  | S754_infinity false => PosInf
  | S754_infinity true => NegInf
  | S754_nan => NaN
  | S754_finite s m e =>
      Finite ((if s then - inject_Z (Z.pos m) else inject_Z (Z.pos m)) * 2 ^ e)%Q
  end.

(** The buffer made of a batch (lines 1397-1410): one channel at
    16 kHz holding the frames one after the other. *)
Definition combinedBuffer (pcmAudioBuffers : list (list Voice.double)) : AudioBuffer :=
  mkAudioBuffer (Z.to_nat (Voice.totalSamples pcmAudioBuffers)) 16000
                [map of_double (concat pcmAudioBuffers)].

(** *** The binary string given to [btoa] *)

(** Lines 1416-1422: the bytes in chunks of 8192, as code units. *)
Definition chunkSize : nat := Z.to_nat 8192.

Fixpoint binaryString_chunked (fuel : nat) (uint8Array : list Z) (i : nat)
    (binaryString : list Z) : option (list Z) :=
  if (i <? List.length uint8Array)%nat
  then
    match fuel with
    | O => None
    | S fuel' =>
        let chunk := take chunkSize (drop i uint8Array) in
        binaryString_chunked fuel' uint8Array (i + chunkSize) (binaryString ++ chunk)
    end
  else Some binaryString.

(** arrayBufferToBase64 of the recorder (lines 1606-1613): one code
    unit at a time. *)
Definition binaryString_bytewise (bytes : list Z) : list Z :=
  fold_left (fun binary b => binary ++ [b]) bytes [].

End Wav.

(* ================================================================= *)
(** ** Reading an evaluation (openaiService.ts, lines 87-171) *)
(* ================================================================= *)

Module Evaluation.

(** A letter of A-Z as its small letter; any other code unit as it is.
    With the [i] flag and without the [u] flag a code unit of a pattern
    in ASCII matches itself and its other case only. *)
Definition lower (c : ascii) : ascii :=
  let n := N_of_ascii c in
  if ((65 <=? n) && (n <=? 90))%N then ascii_of_N (n + 32) else c.

(** [toLowerCase] on a string of ASCII. *)
Fixpoint toLowerCase (s : string) : string :=
  match s with
  | EmptyString => EmptyString
  | String c s' => String (lower c) (toLowerCase s')
  end.

(** [s] starts with [p], letters compared without their case. *)
Fixpoint starts_ci (p s : string) : bool :=
  match p, s with
  | EmptyString, _ => true
  | String a p', String b s' => Ascii.eqb (lower a) (lower b) && starts_ci p' s'
  | String _ _, EmptyString => false
  end.

(** [\s*], greedy: what is left after the white space. *)
Fixpoint skip_space (s : string) : string :=
  match s with
  | String c s' => if Js.is_space c then skip_space s' else s
  | EmptyString => EmptyString
  end.

(** [s.substring(0, n)] *)
Fixpoint str_take (n : nat) (s : string) : string :=
  match n, s with
  | S n', String c s' => String c (str_take n' s')
  | _, _ => EmptyString
  end.

(** The text after the first occurrence of [p], if there is one. *)
Fixpoint after_first (p s : string) : option string :=
  if String.prefix p s then Some (Js.str_drop (String.length p) s)
  else match s with
       | EmptyString => None
       | String _ s' => after_first p s'
       end.

(** [/DECISION:\s*(suitable|not_suitable)/i] tried at the head of [s]:
    its group. The white space cannot be given back to any use, since
    neither word starts with white space. *)
Definition decision_here (s : string) : option string :=
  if starts_ci "DECISION:" s
  then
    let r := skip_space (Js.str_drop 9 s) in
    if starts_ci "suitable" r then Some (str_take 8 r)
    else if starts_ci "not_suitable" r then Some (str_take 12 r)
    else None
  else None.

(** The group of the leftmost match. *)
Fixpoint decisionMatch (s : string) : option string :=
  match decision_here s with
  | Some group => Some group
  | None =>
      match s with
      | EmptyString => None
      | String _ s' => decisionMatch s'
      end
  end.

(** The lazy [(.*?)] before [(?=DECISION:|$)], with the [s] flag. *)
Fixpoint until_decision (s : string) : string :=
  if String.prefix "DECISION:" s then EmptyString
  else match s with
       | EmptyString => EmptyString
       | String c s' => String c (until_decision s')
       end.

(** The group of [/REASONING:\s*(.*?)(?=DECISION:|$)/s]. *)
Definition reasoningMatch (s : string) : option string :=
  match after_first "REASONING:" s with
  | Some r => Some (until_decision (skip_space r))
  | None => None
  end.

(** The group of [/RESPONSE:\s*(.*?)$/s]: all that follows. *)
Definition responseMatch (s : string) : option string :=
  match after_first "RESPONSE:" s with
  | Some r => Some (skip_space r)
  | None => None
  end.

Inductive decision := suitable | not_suitable.

Record evaluation := mkEvaluation {
  reasoning : string;
  verdict : decision;
  response : string
}.

Definition accepted : string :=
  "Thank you for your thoughtful responses. Based on your answers, it appears that your skills, experience, and understanding align well with the requirements of the role. We will be in touch with the next steps.".

Definition rejected : string :=
  "Thank you for your responses. However, based on the answers provided, it appears there may be a misalignment with the requirements of the role we're seeking to fill. At this time, we cannot extend an offer. We appreciate your time and effort and wish you the best in your future endeavors.".

(** Lines 143-163. *)
Definition read (responseText : string) : evaluation :=
  let reasoning :=
    OpenAI.or_else (OpenAI.trimmed (reasoningMatch responseText)) "No reasoning provided" in
  let decision :=
    match decisionMatch responseText with
    | Some group =>
        if String.eqb (toLowerCase group) "suitable" then suitable else not_suitable
    | None => not_suitable
    end in
  let response := OpenAI.trimmed (responseMatch responseText) in
  mkEvaluation reasoning decision
    (OpenAI.or_else response
       match decision with
       | suitable => accepted
       | not_suitable => rejected
       end).

(** evaluateCandidate, given what the completion request does
    ([completion.choices[0]?.message?.content], or an exception). *)
Definition evaluateCandidate (completion : result (option string)) : M evaluation :=
  try_catch
    (log Info "Evaluating candidate responses" ;;
     let* content := await completion in
     let responseText := OpenAI.trimmed content in
     log Info "Successfully evaluated candidate" ;;
     ret (read responseText))
    (fun error => log Err "Error evaluating candidate" ;; throw error).

(** [s] has [p] somewhere, letters compared without their case. *)
Fixpoint includes_ci (s p : string) : bool :=
  if starts_ci p s then true
  else match s with
       | EmptyString => false
       | String _ s' => includes_ci s' p
       end.

End Evaluation.

(* ================================================================= *)
(** ** The modal dismisser of the recorder (lines 1900-1920) *)
(* ================================================================= *)

Module Dismisser.
Import Recording.

(** The part of the state the modal dismisser works on: it is armed
    with at most ten failures behind it, or it has cleared itself at
    the eleventh. *)
Definition dismisser_state (fails : nat) (s : state) : Prop :=
  dismissModalErrorCount s = Z.of_nat (Nat.min fails 11)
  /\ (dismissModalsInterval ∈ pending s <-> (fails <= 10)%nat).

End Dismisser.

(* ================================================================= *)
(** ** The page-validity check of the recorder (lines 1922-1968) *)
(* ================================================================= *)

Module PageValidity.

(** What the page shows to one check: [window.location.href],
    [document.body.innerText], each of which may throw, and whether
    the two buttons are found. *)
Record shown := mkShown {
  href : result string;
  innerText : result string;
  peopleButton : bool;       (* button[aria-label="People"] *)
  leaveCallButton : bool     (* button[aria-label="Leave call"] *)
}.

(** isOnValidGoogleMeetPage *)
Definition isOnValidGoogleMeetPage (p : shown) : bool :=
  match href p with
  | Throw _ => false
  | Ok currentUrl =>
      if negb (Js.str_includes currentUrl "meet.google.com") then false
      else
        match innerText p with
        | Throw _ => false
        | Ok currentBodyText =>
            if Js.str_includes currentBodyText "You've been removed from the meeting"
            then false
            else if Js.str_includes currentBodyText
                      "No one responded to your request to join the call"
            then false
            else
              let hasMeetElements := peopleButton p || leaveCallButton p in
              if negb hasMeetElements then false else true
        end
  end.

(** One firing of the interval of lines 1961-1967. *)
Definition check (p : shown) : Recording.event :=
  let valid := isOnValidGoogleMeetPage p in Recording.ValidPageCheck valid.

End PageValidity.

(* ================================================================= *)
(** ** What a search for an element depends on (lines 55-87, 666-680) *)
(* ================================================================= *)

Module Finder.
Import Speak.

(** The locator counts at least one element and reports it visible:
    [findAndOptionallyClickElement] gets as far as the click. *)
Definition attempted (el : element) : bool :=
  match el_count el with
  | Ok count =>
      negb (count =? 0)
      && match el_visible el with Ok b => b | Throw _ => false end
  | Throw _ => false
  end.

(** The click and the wait of 500 ms after it both return. *)
Definition clicked (el : element) : bool :=
  attempted el
  && match el_click el with Ok _ => true | Throw _ => false end
  && match el_wait el with Ok _ => true | Throw _ => false end.

Definition click_of (xpath : string) : string := "click " ++ xpath.

End Finder.

(* ================================================================= *)
(** ** Facts about the effect monad *)
(* ================================================================= *)

Section Yields.
Context {A B : Type}.

Lemma yields_ret (a : A) : yields (ret a) (Ok a).
Proof. intros w; reflexivity. Qed.

Lemma yields_throw (e : error) : yields (@throw A e) (Throw e).
Proof. intros w; reflexivity. Qed.

Lemma yields_await (r : result A) : yields (await r) r.
Proof. intros w; reflexivity. Qed.

Lemma yields_bind_ok (m : M A) (k : A -> M B) a r :
  yields m (Ok a) -> yields (k a) r -> yields (bind m k) r.
Proof.
  intros Hm Hk w. unfold bind. specialize (Hm w).
  destruct (m w) as [[a'|e] w']; simpl in Hm; [|discriminate].
  injection Hm as ->. apply Hk.
Qed.

Lemma yields_bind_throw (m : M A) (k : A -> M B) e :
  yields m (Throw e) -> yields (bind m k) (Throw e).
Proof.
  intros Hm w. unfold bind. specialize (Hm w).
  destruct (m w) as [[a'|e'] w']; simpl in Hm; [discriminate|].
  now injection Hm as ->.
Qed.

Lemma yields_try_ok (m : M A) (h : error -> M A) a :
  yields m (Ok a) -> yields (try_catch m h) (Ok a).
Proof.
  intros Hm w. unfold try_catch. specialize (Hm w).
  destruct (m w) as [[a'|e] w']; simpl in Hm; [|discriminate].
  now injection Hm as ->.
Qed.

Lemma yields_try_throw (m : M A) (h : error -> M A) e r :
  yields m (Throw e) -> yields (h e) r -> yields (try_catch m h) r.
Proof.
  intros Hm Hh w. unfold try_catch. specialize (Hm w).
  destruct (m w) as [[a'|e'] w']; simpl in Hm; [discriminate|].
  injection Hm as ->. apply Hh.
Qed.
End Yields.

Lemma yields_log l msg : yields (log l msg) (Ok tt).
Proof. intros w; reflexivity. Qed.

Lemma yields_act a : yields (act a) (Ok tt).
Proof. intros w; reflexivity. Qed.

Create HintDb yields discriminated.
#[global] Hint Resolve yields_ret yields_throw yields_await yields_log yields_act : yields.
#[global] Hint Resolve yields_bind_ok yields_try_ok yields_try_throw : yields.
#[global] Hint Resolve yields_bind_throw | 5 : yields.

(** One step of a computation. *)
Lemma bind_await_ok {A B} (a : A) (k : A -> M B) (w : world) :
  bind (await (Ok a)) k w = k a w.
Proof. reflexivity. Qed.

Lemma bind_log {B} l msg (k : unit -> M B) (w : world) :
  bind (log l msg) k w = k tt (snd (log l msg w)).
Proof. reflexivity. Qed.

Lemma bind_act {B} a (k : unit -> M B) (w : world) :
  bind (act a) k w = k tt (snd (act a w)).
Proof. reflexivity. Qed.

Lemma bind_cases {A B} (m : M A) (k : A -> M B) (w : world) :
  (exists a w1, m w = (Ok a, w1) /\ bind m k w = k a w1)
  \/ (exists e w1, m w = (Throw e, w1) /\ bind m k w = (Throw e, w1)).
Proof. unfold bind. destruct (m w) as [[a|e] w1]; eauto 6. Qed.

#[global] Arguments Js.includes : simpl never.
#[global] Arguments Js.indexOf : simpl never.
#[global] Arguments Js.splice : simpl never.

(** Running a computation whose steps are known. *)
Ltac run_m :=
  unfold try_catch, bind, await, ret, throw, log, act, get_state, set_state; cbn.

Section Quiet.
Context {A B : Type}.

Lemma quiet_ret (a : A) : quiet (ret a).
Proof. intros w; cbn; auto. Qed.

Lemma quiet_throw (e : error) : quiet (@throw A e).
Proof. intros w; cbn; auto. Qed.

Lemma quiet_await (r : result A) : quiet (await r).
Proof. intros w; cbn; auto. Qed.

Lemma quiet_bind (m : M A) (k : A -> M B) :
  quiet m -> (forall a, quiet (k a)) -> quiet (bind m k).
Proof.
  intros Hm Hk w. unfold bind. specialize (Hm w).
  destruct (m w) as [[a|e] w1]; cbn in *; [|exact Hm].
  specialize (Hk a w1). destruct Hm as (? & ? & ? & ?), Hk as (? & ? & ? & ?).
  repeat split; try (etransitivity; eassumption).
Qed.

Lemma quiet_try (m : M A) (h : error -> M A) :
  quiet m -> (forall e, quiet (h e)) -> quiet (try_catch m h).
Proof.
  intros Hm Hh w. unfold try_catch. specialize (Hm w).
  destruct (m w) as [[a|e] w1]; cbn in *; [exact Hm|].
  specialize (Hh e w1). destruct Hm as (? & ? & ? & ?), Hh as (? & ? & ? & ?).
  repeat split; try (etransitivity; eassumption).
Qed.
End Quiet.

Lemma quiet_log l msg : quiet (log l msg).
Proof. intros w; cbn. repeat split; auto. apply prefix_app_r. reflexivity. Qed.

Lemma quiet_act a : quiet (act a).
Proof. intros w; cbn. repeat split; auto. apply prefix_app_r. reflexivity. Qed.

Create HintDb quiet discriminated.
#[global] Hint Resolve quiet_ret quiet_throw quiet_await quiet_log quiet_act : quiet.

(** Breaking a computation into its steps, the known ones first. *)
Ltac quiet_steps :=
  repeat first
    [ solve [auto 1 with quiet nocore]
    | assumption
    | apply quiet_bind; [|intros ?]
    | apply quiet_try; [|intros ?]
    | match goal with
      | |- quiet (if ?b then _ else _) => destruct b
      | |- quiet (match ?x with _ => _ end) => destruct x
      | |- quiet (let _ := _ in _) => cbv zeta
      end ].

Lemma logged_later {A} (m : M A) (w : world) l msg :
  quiet m -> logged l msg w -> logged l msg (snd (m w)).
Proof.
  intros Hq Hl. destruct (Hq w) as ([k Hk] & _). unfold logged in *.
  rewrite Hk. set_solver.
Qed.

(* ================================================================= *)
(** ** Waiting in the lobby *)
(* ================================================================= *)

Section LobbyFacts.
Import Lobby LobbySpec.

Lemma shown_eq (l : locator) (w : world) : shown l w = (shown_result l, w).
Proof.
  destruct l as [[c|e] v]; unfold shown, shown_result; cbn; [|reflexivity].
  destruct (c >? 0); reflexivity.
Qed.

Lemma shown_result_cue (l : locator) :
  match cue l with
  | Some b => shown_result l = Ok b
  | None => exists e, shown_result l = Throw e
  end.
Proof.
  destruct l as [[c|e] [v|e']]; unfold shown_result, cue; cbn; eauto;
    destruct (c >? 0); eauto.
Qed.

Lemma detectLobbyMode_yields (o : poll_obs) :
  yields (detectLobbyModeHostWaitingText o) (Ok (lobby_mode_of o)).
Proof.
  intros w. unfold detectLobbyModeHostWaitingText, lobby_mode_of, try_catch, bind.
  rewrite shown_eq.
  pose proof (shown_result_cue (lobbyModeHostWaitingText o)) as Hh.
  destruct (cue (lobbyModeHostWaitingText o)) as [[|]|].
  - rewrite Hh. reflexivity.
  - rewrite Hh. rewrite shown_eq.
    pose proof (shown_result_cue (lobbyModeRequestTimeoutText o)) as Ht.
    destruct (cue (lobbyModeRequestTimeoutText o)) as [[|]|].
    + rewrite Ht; reflexivity.
    + rewrite Ht; reflexivity.
    + destruct Ht as [e ->]. reflexivity.
  - destruct Hh as [e ->]. reflexivity.
Qed.

Lemma participantCountDetected_spec (labels : list (option string)) :
  participantCountDetected labels = existsb label_has_count labels.
Proof.
  unfold participantCountDetected.
  set (second := existsb _ labels).
  assert (Hsecond : second = existsb label_has_count labels).
  { unfold second. clear. induction labels as [|b labels IH]; [reflexivity|].
    cbn [existsb]. rewrite IH. f_equal.
    destruct b as [[|c l]|]; reflexivity. }
  rewrite <- Hsecond.
  destruct (List.find _ labels) as [[ariaLabel|]|] eqn:Hfind; try reflexivity.
  destruct (match_People_count ariaLabel) as [d|] eqn:Hm; [|reflexivity].
  destruct (Js.parseInt_digits d >=? 1); [|reflexivity].
  symmetry. rewrite Hsecond. apply existsb_exists.
  exists (Some ariaLabel). split.
  - apply find_some in Hfind. tauto.
  - unfold label_has_count. rewrite Hm. reflexivity.
Qed.

Lemma wait_error_yields (found : bool) : yields (wait_error found) (Ok tt).
Proof. destruct found; unfold wait_error; auto with yields. Qed.

Lemma denied_yields (o : poll_obs) :
  yields (try_catch (shown (deniedText o)) (fun _ => ret false)) (Ok (denial_cue o)).
Proof.
  intros w. unfold try_catch, denial_cue. rewrite shown_eq.
  pose proof (shown_result_cue (deniedText o)) as H.
  destruct (cue (deniedText o)) as [[|]|].
  - rewrite H; reflexivity.
  - rewrite H; reflexivity.
  - destruct H as [e ->]; reflexivity.
Qed.

Lemma lobby_mode_of_cues (o : poll_obs) :
  match lobby_mode_of o with
  | WAITING_FOR_HOST_TO_ADMIT_BOT => host_cue o = true /\ request_timeout_cue o = false
  | WAITING_REQUEST_TIMEOUT => host_cue o = false /\ request_timeout_cue o = true
  | _ => host_cue o = false /\ request_timeout_cue o = false
  end.
Proof.
  unfold lobby_mode_of, host_cue, request_timeout_cue.
  destruct (cue (lobbyModeHostWaitingText o)) as [[|]|];
    destruct (cue (lobbyModeRequestTimeoutText o)) as [[|]|]; split; reflexivity.
Qed.

Lemma poll_yields (o : poll_obs) : yields (poll o) (Ok (verdict o)).
Proof.
  unfold poll. apply yields_try_ok.
  eapply yields_bind_ok; [apply wait_error_yields|].
  eapply yields_bind_ok; [apply wait_error_yields|].
  pose proof (lobby_mode_of_cues o) as Hm.
  unfold verdict, admits, times_out, denies.
  fold (baseline o). destruct (baseline o); cbn [andb orb negb].
  - eapply yields_bind_ok.
    + eapply yields_bind_ok; [apply detectLobbyMode_yields|].
      instantiate (1 := match lobby_mode_of o with
                        | WAITING_FOR_HOST_TO_ADMIT_BOT => None
                        | WAITING_REQUEST_TIMEOUT => Some ResolveRequestTimedOut
                        | _ => Some (if counter_cue o then ResolveEntering else KeepWaiting)
                        end).
      destruct (lobby_mode_of o); eauto with yields.
      all: unfold counter_cue; destruct (buttonLabels o) as [labels|e];
        [ apply yields_try_ok; eapply yields_bind_ok; [apply yields_await|];
          rewrite participantCountDetected_spec;
          destruct (existsb label_has_count labels); eauto with yields
        | eapply yields_try_throw; [apply yields_bind_throw, yields_await|];
          eauto with yields ].
    + destruct (lobby_mode_of o); destruct Hm as [-> ->]; cbn [andb orb negb].
      * eapply yields_bind_ok; [apply denied_yields|].
        destruct (denial_cue o); eauto with yields.
      * eauto with yields.
      * destruct (counter_cue o); eauto with yields.
      * destruct (counter_cue o); eauto with yields.
  - eapply yields_bind_ok; [apply yields_ret|].
    eapply yields_bind_ok; [apply denied_yields|].
    destruct (denial_cue o); eauto with yields.
Qed.

Lemma host_excludes_timeout (o : poll_obs) :
  host_cue o = true -> request_timeout_cue o = false.
Proof.
  unfold host_cue, request_timeout_cue.
  destruct (cue (lobbyModeHostWaitingText o)) as [[|]|]; intros H; try reflexivity;
    discriminate H.
Qed.

(** The four verdicts are the four cases of the cues, and these exclude
    each other. *)
Lemma verdict_cases (o : poll_obs) :
  (verdict o = ResolveEntering /\ admits o = true /\ denies o = false
   /\ times_out o = false /\ undecided o = false)
  \/ (verdict o = ResolveRequestTimedOut /\ admits o = false /\ denies o = false
      /\ times_out o = true /\ undecided o = false)
  \/ (verdict o = ResolveDenied /\ admits o = false /\ denies o = true
      /\ times_out o = false /\ undecided o = false)
  \/ (verdict o = KeepWaiting /\ admits o = false /\ denies o = false
      /\ times_out o = false /\ undecided o = true).
Proof.
  pose proof (host_excludes_timeout o) as Hx.
  unfold verdict, undecided, admits, denies, times_out in *.
  destruct (baseline o), (host_cue o), (request_timeout_cue o),
    (counter_cue o), (denial_cue o); cbn in *;
    try (specialize (Hx eq_refl); discriminate Hx); tauto.
Qed.

Lemma first_decided_shift (P : poll_obs -> bool) (n : nat) (obs : nat -> poll_obs) :
  undecided (obs 0%nat) = true ->
  P (obs 0%nat) = false ->
  (first_decided P (S n) obs <-> first_decided P n (fun k => obs (S k))).
Proof.
  intros Hu HP. split.
  - intros (k & Hk & HPk & Hbefore). destruct k as [|k]; [congruence|].
    exists k. repeat split; [lia|assumption|].
    intros j Hj. apply (Hbefore (S j)). lia.
  - intros (k & Hk & HPk & Hbefore). exists (S k). repeat split; [lia|assumption|].
    intros [|j] Hj; [assumption|]. apply Hbefore. lia.
Qed.

Lemma first_decided_now (P : poll_obs -> bool) (n : nat) (obs : nat -> poll_obs) :
  undecided (obs 0%nat) = false ->
  (first_decided P (S n) obs <-> P (obs 0%nat) = true).
Proof.
  intros Hu. split.
  - intros (k & Hk & HPk & Hbefore). destruct k as [|k]; [assumption|].
    specialize (Hbefore 0%nat ltac:(lia)). congruence.
  - intros HP. exists 0%nat. repeat split; [lia|assumption|]. intros j Hj; lia.
Qed.

Lemma first_decided_none (P : poll_obs -> bool) (obs : nat -> poll_obs) :
  ~ first_decided P 0 obs.
Proof. intros (k & Hk & _). lia. Qed.

Lemma waitInterval_spec (n : nat) : forall (obs : nat -> poll_obs) (k : nat),
  exists e : exit,
    yields (waitInterval n obs k) (Ok e) /\
    (e = EnteredMeeting <-> first_decided admits n (fun i => obs (k + i)%nat)) /\
    (e = DeniedAccess <-> first_decided denies n (fun i => obs (k + i)%nat)) /\
    (e = RequestTimedOut <-> first_decided times_out n (fun i => obs (k + i)%nat)) /\
    (e = WanderingTimeElapsed <->
       forall i, (i < n)%nat -> undecided (obs (k + i)%nat) = true).
Proof.
  induction n as [|n IH]; intros obs k.
  - exists WanderingTimeElapsed. split; [apply yields_ret|].
    repeat split; try discriminate; try lia;
      intros H; exfalso; exact (first_decided_none _ _ H).
  - cbn [waitInterval].
    pose proof (poll_yields (obs k)) as Hp.
    destruct (verdict_cases (obs k)) as
      [(Hv & Ha & Hd & Ht & Hu)|[(Hv & Ha & Hd & Ht & Hu)|
       [(Hv & Ha & Hd & Ht & Hu)|(Hv & Ha & Hd & Ht & Hu)]]];
      rewrite Hv in Hp.
    1-3: (eexists; split;
          [ eapply yields_bind_ok; [exact Hp|]; apply yields_ret
          | rewrite !first_decided_now by (cbn; rewrite Nat.add_0_r; assumption);
            cbn; rewrite !Nat.add_0_r, Ha, Hd, Ht;
            repeat split; try discriminate; try reflexivity;
            intros H; specialize (H 0%nat ltac:(lia));
            rewrite Nat.add_0_r in H; congruence ]).
    destruct (IH obs (S k)) as (e & Hy & He & Hde & Hto & Hw).
    exists e. split; [eapply yields_bind_ok; [exact Hp|exact Hy]|].
    assert (Hshift : forall P, P (obs k) = false ->
              (first_decided P (S n) (fun i => obs (k + i)%nat) <->
               first_decided P n (fun i => obs (S k + i)%nat))).
    { intros P HP. rewrite first_decided_shift by (cbn; rewrite Nat.add_0_r; assumption).
      split; intros (i & Hi & HPi & Hb); exists i; repeat split; try assumption.
      - now rewrite Nat.add_succ_comm.
      - intros j Hj. specialize (Hb j Hj). now rewrite Nat.add_succ_comm.
      - now rewrite <- Nat.add_succ_comm.
      - intros j Hj. specialize (Hb j Hj). now rewrite <- Nat.add_succ_comm. }
    rewrite !Hshift by assumption.
    repeat split; try tauto.
    + intros -> [|i] Hi; [now rewrite Nat.add_0_r|].
      rewrite <- Nat.add_succ_comm. apply Hw; [reflexivity|lia].
    + intros H. apply Hw. intros i Hi. rewrite Nat.add_succ_comm. apply H. lia.
Qed.

(** C3, as amended. The wait always resolves, and the first poll that is
    not undecided settles how. It resolves as admitted exactly when that
    poll shows a call control (People or Leave call), neither the
    waiting-for-host nor the request-timed-out text, and a People label
    that carries a number; as denied exactly when that poll shows the
    denial text while no call control is found or the waiting-for-host
    text is shown; as timed out on request exactly when that poll shows a
    call control and the request-timed-out text; and by the timer exactly
    when every poll due before [joinWaitTime] minutes is undecided. *)
Theorem waitAtLobbyPromise_outcome (joinWaitTime : Z) (obs : nat -> poll_obs) :
  exists e : exit,
    yields (waitAtLobbyPromise joinWaitTime obs) (Ok e) /\
    (e = EnteredMeeting <->
       first_decided admits (ticks_before (joinWaitTime * 60 * 1000)) obs) /\
    (e = DeniedAccess <->
       first_decided denies (ticks_before (joinWaitTime * 60 * 1000)) obs) /\
    (e = RequestTimedOut <->
       first_decided times_out (ticks_before (joinWaitTime * 60 * 1000)) obs) /\
    (e = WanderingTimeElapsed <->
       forall k, (k < ticks_before (joinWaitTime * 60 * 1000))%nat ->
                 undecided (obs k) = true).
Proof.
  unfold waitAtLobbyPromise.
  destruct (waitInterval_spec (ticks_before (joinWaitTime * 60 * 1000)) obs 0)
    as (e & Hy & H).
  exists e. split; [exact Hy|]. exact H.
Qed.

(** C3 as stated fails: with the call controls and a participant counter
    on the page, a denial text that is shown as well is never looked at
    and the wait resolves as admitted; without the counter the poll goes
    on waiting instead of resolving as denied; a counter that reads zero
    admits; and a request-timed-out text without a call control is not
    looked at either. *)
Lemma denial_cue_in_call_is_not_inspected :
  baseline Examples.denied_in_call = true
  /\ denial_cue Examples.denied_in_call = true
  /\ fst (waitAtLobbyPromise 10 (fun _ => Examples.denied_in_call) w0) = Ok EnteredMeeting
  /\ baseline Examples.denied_no_counter = true
  /\ denial_cue Examples.denied_no_counter = true
  /\ fst (poll Examples.denied_no_counter w0) = Ok KeepWaiting
  /\ fst (waitAtLobbyPromise 10 (fun _ => Examples.zero_counter) w0) = Ok EnteredMeeting
  /\ request_timeout_cue Examples.timed_out_outside = true
  /\ fst (poll Examples.timed_out_outside w0) = Ok KeepWaiting.
Proof. repeat split; vm_compute; reflexivity. Qed.

(** When the wait does not end in the meeting, joinMeeting reads the text
    of the page, closes the browser and throws the lobby error, which can
    be retried unless that text holds the denial. *)
Lemma waitAtLobby_error (denied : string) (joinWaitTime : Z) (obs : nat -> poll_obs)
    (body : option string) (w : world) (e : exit) :
  fst (waitAtLobbyPromise joinWaitTime obs w) = Ok e ->
  e <> EnteredMeeting ->
  fst (waitAtLobby denied joinWaitTime obs (Ok body) (Ok tt) w)
  = Throw (WaitingAtLobbyRetryError "Google Meet bot could not enter the meeting..."
             (default EmptyString body)
             (negb (Js.str_includes (default EmptyString body) denied)) 2).
Proof.
  intros He Hne. revert He. unfold waitAtLobby, try_catch. unfold bind at 1.
  destruct (waitAtLobbyPromise joinWaitTime obs w) as [[e'|err] w1]; cbn [fst];
    intros [= ->].
  destruct e; try contradiction; reflexivity.
Qed.

Example denial_and_timeout_cues_that_resolve :
  fst (waitAtLobbyPromise 10 (fun _ => Examples.denied_outside) w0) = Ok DeniedAccess
  /\ fst (waitAtLobbyPromise 10 (fun _ => Examples.timed_out_in_call) w0)
     = Ok RequestTimedOut
  /\ fst (waitAtLobbyPromise 10 (fun _ => Examples.nothing_yet) w0)
     = Ok WanderingTimeElapsed.
Proof. repeat split; vm_compute; reflexivity. Qed.

(** Four polls, the first three with nothing on the page: admitted at the
    fourth. *)
Example admitted_at_fourth_poll :
  fst (waitAtLobbyPromise 10
         (fun k => if (k <? 3)%nat then Examples.nothing_yet else Examples.in_call) w0)
  = Ok EnteredMeeting
  /\ first_decided admits 4
       (fun k => if (k <? 3)%nat then Examples.nothing_yet else Examples.in_call).
Proof.
  split; [vm_compute; reflexivity|].
  exists 3%nat. repeat split; [lia|].
  intros [|[|[|j]]] Hj; try reflexivity; lia.
Qed.

End LobbyFacts.

(* ================================================================= *)
(** ** Page-type classification *)
(* ================================================================= *)

Section PageCheckFacts.
Import PageCheck.

(** The classification, read off the page. *)
Lemma verify_cases (p : page) (w : world) :
  match fst (verifyItIsOnGoogleMeetPage p w) with
  | Ok (Some GOOGLE_MEET_PAGE) =>
      exists u, page_url p = Ok u /\ Js.str_includes u "meet.google.com" = true
  | Ok (Some SIGN_IN_PAGE) =>
      exists u, page_url p = Ok u /\ Js.str_includes u "meet.google.com" = false
                /\ Js.startsWith u "https://accounts.google.com/" = true
  | Ok (Some UNSUPPORTED_PAGE) =>
      exists u, page_url p = Ok u /\ Js.str_includes u "meet.google.com" = false
                /\ Js.startsWith u "https://accounts.google.com/" = false
  | Ok None =>
      (exists e, page_url p = Throw e) \/ (exists e, signIn_count p = Throw e)
      \/ (exists e, signIn_visible p = Throw e)
  | Throw _ => False
  end.
Proof.
  destruct p as [[u|e] [c|e'] [v|e'']];
    unfold verifyItIsOnGoogleMeetPage, detectSignInPage; run_m;
    try (destruct (Js.str_includes u "meet.google.com") eqn:Hm; run_m);
    try (destruct (Js.startsWith u "https://accounts.google.com/") eqn:Hs; run_m);
    try (destruct (c >? 0) eqn:Hc; run_m);
    try (destruct v; run_m);
    eauto 10.
Qed.

Lemma verify_value (p : page) (w w' : world) :
  fst (verifyItIsOnGoogleMeetPage p w) = fst (verifyItIsOnGoogleMeetPage p w').
Proof.
  destruct p as [[u|e] [c|e'] [v|e'']];
    unfold verifyItIsOnGoogleMeetPage, detectSignInPage; run_m;
    try (destruct (Js.str_includes u "meet.google.com") eqn:Hm; run_m);
    try (destruct (Js.startsWith u "https://accounts.google.com/") eqn:Hs; run_m);
    try (destruct (c >? 0) eqn:Hc; run_m);
    try (destruct v; run_m);
    reflexivity.
Qed.

(** What joinMeeting does with each classification (lines 236-244). *)
Lemma classify_cases (p : page) (w : world) :
  match fst (verifyItIsOnGoogleMeetPage p w) with
  | Ok (Some SIGN_IN_PAGE) =>
      fst (classify p w)
      = Throw (UnsupportedMeetingError "Meeting requires sign in" SIGN_IN_PAGE)
  | Ok (Some UNSUPPORTED_PAGE) =>
      fst (classify p w) = Ok tt /\ logged Info msg_unsupported (snd (classify p w))
  | Ok (Some GOOGLE_MEET_PAGE) =>
      fst (classify p w) = Ok tt
  | Ok None =>
      fst (classify p w) = Ok tt /\ logged Err msg_verify_error (snd (classify p w))
  | Throw _ => False
  end.
Proof.
  destruct p as [[u|e] [c|e'] [v|e'']];
    unfold classify, verifyItIsOnGoogleMeetPage, detectSignInPage, logged; run_m;
    try (destruct (Js.str_includes u "meet.google.com") eqn:Hm; run_m);
    try (destruct (Js.startsWith u "https://accounts.google.com/") eqn:Hs; run_m);
    try (destruct (c >? 0) eqn:Hc; run_m);
    try (destruct v; run_m);
    repeat split; try reflexivity; set_solver.
Qed.

(** The lines the classification can write. *)
Lemma classify_logs (p : page) (w : world) (l : level) (m : string) :
  logged l m (snd (classify p w)) ->
  logged l m w
  \/ m ∈ [msg_sign_in_url; msg_sign_in_heading; msg_verify_error; msg_exiting;
          msg_unsupported].
Proof.
  destruct p as [[u|e] [c|e'] [v|e'']];
    unfold classify, verifyItIsOnGoogleMeetPage, detectSignInPage, logged; run_m;
    try (destruct (Js.str_includes u "meet.google.com") eqn:Hm; run_m);
    try (destruct (Js.startsWith u "https://accounts.google.com/") eqn:Hs; run_m);
    try (destruct (c >? 0) eqn:Hc; run_m);
    try (destruct v; run_m);
    rewrite ?elem_of_app, ?list_elem_of_singleton;
    intros H; decompose [or] H; auto;
    match goal with E : (_, _) = (_, _) |- _ => injection E as -> -> end;
    right; set_solver.
Qed.

Example sign_in_page_is_raised :
  fst (verifyItIsOnGoogleMeetPage Examples.sign_in_page w0) = Ok (Some SIGN_IN_PAGE)
  /\ fst (classify Examples.sign_in_page w0)
     = Throw (UnsupportedMeetingError "Meeting requires sign in" SIGN_IN_PAGE)
  /\ fst (Join.joinMeeting
            (Examples.session Examples.sign_in_page (Ok tt) (Ok true) (Ok tt)) w0)
     = Throw (UnsupportedMeetingError "Meeting requires sign in" SIGN_IN_PAGE)
  /\ _state (snd (Join.joinMeeting
                    (Examples.session Examples.sign_in_page (Ok tt) (Ok true) (Ok tt)) w0))
     = [].
Proof. repeat split; vm_compute; reflexivity. Qed.

Example meet_page_proceeds :
  fst (verifyItIsOnGoogleMeetPage Examples.meet_page w0) = Ok (Some GOOGLE_MEET_PAGE)
  /\ fst (classify Examples.meet_page w0) = Ok tt.
Proof. split; reflexivity. Qed.

Example broken_page_proceeds :
  classify Examples.broken_page w0
  = (Ok tt, mkWorld [(Err, msg_verify_error)] [] [] []).
Proof. reflexivity. Qed.

End PageCheckFacts.

(* ================================================================= *)
(** ** Speaking in the meeting *)
(* ================================================================= *)

Section SpeakFacts.
Import Speak.

Lemma quiet_find (el : element) (xpath : string) (shouldClick : bool) :
  quiet (findAndOptionallyClickElement el xpath shouldClick).
Proof. unfold findAndOptionallyClickElement. quiet_steps. Qed.
#[local] Hint Resolve quiet_find : quiet.

(** Looking for an element and clicking it never throws. *)
Lemma find_returns (el : element) (xpath : string) (shouldClick : bool) (w : world) :
  exists b, fst (findAndOptionallyClickElement el xpath shouldClick w) = Ok b.
Proof.
  unfold findAndOptionallyClickElement, try_catch.
  destruct (bind _ _ w) as [[b|e] w1]; cbn; eauto.
Qed.

(** A click that fails is reported on the log, and reads as not found. *)
Lemma find_click_fails (el : element) (xpath : string) (w : world) c err :
  el_count el = Ok c -> c <> 0 -> el_visible el = Ok true -> el_click el = Throw err ->
  fst (findAndOptionallyClickElement el xpath true w) = Ok false
  /\ logged Info ("Could not find/click element: " ++ xpath)
       (snd (findAndOptionallyClickElement el xpath true w)).
Proof.
  intros Hc Hnz Hv Hk. unfold findAndOptionallyClickElement, logged. run_m.
  rewrite Hc, Hv, Hk. cbn. apply Z.eqb_neq in Hnz. rewrite Hnz. cbn.
  split; [reflexivity|]. set_solver.
Qed.

Lemma quiet_first_clicked (find : string -> element) (selectors : list string) msg :
  quiet (first_clicked find selectors msg).
Proof. induction selectors as [|sel rest IH]; cbn [first_clicked]; quiet_steps. Qed.
#[local] Hint Resolve quiet_first_clicked : quiet.

Lemma quiet_method2 (e : env) : quiet (method2 e).
Proof. unfold method2. quiet_steps. Qed.

Lemma quiet_method3_loop (bs : list button) : quiet (method3_loop bs).
Proof. induction bs as [|b bs IH]; cbn [method3_loop]; quiet_steps. Qed.

Lemma quiet_method3 (e : env) : quiet (method3 e).
Proof. unfold method3. pose proof quiet_method3_loop. quiet_steps. Qed.
#[local] Hint Resolve quiet_method2 quiet_method3 : quiet.

Lemma quiet_enable_microphone (e : env) : quiet (enable_microphone e).
Proof. unfold enable_microphone. quiet_steps. Qed.

Lemma quiet_playback (e : env) : quiet (playback e).
Proof. unfold playback. quiet_steps. Qed.
#[local] Hint Resolve quiet_enable_microphone quiet_playback : quiet.

Lemma quiet_speak_body (e : env) (text : string) : quiet (speak_body e text).
Proof. unfold speak_body. quiet_steps. Qed.
#[local] Hint Resolve quiet_speak_body : quiet.

Lemma quiet_speakInMeeting (e : env) (text : string) : quiet (speakInMeeting e text).
Proof. unfold speakInMeeting. quiet_steps. Qed.

(** A playback that fails in the page is reported as an error, and the
    rest of speakInMeeting keeps the line. *)
Lemma playback_failure_logged (e : env) (w : world) r :
  playbackResult e = Ok r -> playback_success r = false ->
  logged Err msg_playback_failed (snd (playback e w)).
Proof.
  intros Hr Hs. unfold playback.
  rewrite bind_log, bind_act, Hr, bind_await_ok, bind_log, Hs. cbn [negb].
  rewrite bind_log.
  apply logged_later.
  - quiet_steps.
  - unfold logged; cbn. set_solver.
Qed.


Example synthesis_failure_is_swallowed :
  speakInMeeting (Examples.speaking (Throw (OtherError "401")) true true) "Hello" w0
  = (Ok tt,
     mkWorld [(Info, "Generating TTS audio for meeting"); (Err, msg_speak_error)]
             [] [] []).
Proof. reflexivity. Qed.

Example stream_failure_is_swallowed :
  speakInMeeting (Examples.speaking (Ok "UklGRg==") false true) "Hello" w0
  = (Ok tt,
     mkWorld [(Info, "Generating TTS audio for meeting");
              (Info, "Pre-creating TTS stream in browser...");
              (Info, "TTS stream creation result");
              (Err, msg_stream_failed)]
             ["evaluate: create TTS stream"] [] []).
Proof. reflexivity. Qed.

Example playback_failure_is_swallowed :
  fst (speakInMeeting (Examples.speaking (Ok "UklGRg==") true false) "Hello" w0) = Ok tt
  /\ logged Err msg_playback_failed
       (snd (speakInMeeting (Examples.speaking (Ok "UklGRg==") true false) "Hello" w0)).
Proof. split; [reflexivity|]. unfold logged. vm_compute. set_solver. Qed.

Example failed_click_is_swallowed :
  fst (findAndOptionallyClickElement Examples.unclickable "//button" true w0) = Ok false.
Proof. reflexivity. Qed.

End SpeakFacts.

(* ================================================================= *)
(** ** The status history of a session *)
(* ================================================================= *)

Section JoinFacts.
Import Join.

Lemma quiet_classify (p : PageCheck.page) : quiet (PageCheck.classify p).
Proof.
  unfold PageCheck.classify, PageCheck.verifyItIsOnGoogleMeetPage,
    PageCheck.detectSignInPage.
  quiet_steps.
Qed.

Lemma quiet_shown (l : Lobby.locator) : quiet (Lobby.shown l).
Proof. unfold Lobby.shown. quiet_steps. Qed.
#[local] Hint Resolve quiet_shown : quiet.

Lemma quiet_poll (o : Lobby.poll_obs) : quiet (Lobby.poll o).
Proof.
  unfold Lobby.poll, Lobby.detectLobbyModeHostWaitingText, Lobby.wait_error.
  quiet_steps.
Qed.
#[local] Hint Resolve quiet_poll : quiet.

Lemma quiet_waitInterval (n : nat) (obs : nat -> Lobby.poll_obs) (k : nat) :
  quiet (Lobby.waitInterval n obs k).
Proof.
  revert k. induction n as [|n IH]; intros k; cbn [Lobby.waitInterval]; quiet_steps.
Qed.
#[local] Hint Resolve quiet_waitInterval : quiet.

Lemma quiet_waitAtLobby denied jw obs body close :
  quiet (Lobby.waitAtLobby denied jw obs body close).
Proof. unfold Lobby.waitAtLobby, Lobby.waitAtLobbyPromise. quiet_steps. Qed.

Lemma quiet_toggleDevices (e : env) : quiet (toggleDevices e).
Proof. unfold toggleDevices. pose proof quiet_find. quiet_steps. Qed.
#[local] Hint Resolve quiet_classify quiet_waitAtLobby quiet_toggleDevices
  quiet_speakInMeeting : quiet.

Lemma quiet_before_admission (e : env) : quiet (before_admission e).
Proof. unfold before_admission. quiet_steps. Qed.

Lemma quiet_in_meeting (e : env) : quiet (in_meeting e).
Proof. unfold in_meeting. quiet_steps. Qed.

Lemma quiet_handleUpload (e : env) : quiet (handleUpload e).
Proof. unfold handleUpload. quiet_steps. Qed.

(** joinMeeting appends [joined] and [finished] when it returns, and at
    most [joined] when it throws; it reports nothing itself. *)
Lemma joinMeeting_cases (e : env) (w : world) :
  reported (snd (joinMeeting e w)) = reported w
  /\ ((fst (joinMeeting e w) = Ok tt
       /\ _state (snd (joinMeeting e w)) = _state w ++ [joined; finished])
      \/ (exists err, fst (joinMeeting e w) = Throw err
          /\ (_state (snd (joinMeeting e w)) = _state w
              \/ _state (snd (joinMeeting e w)) = _state w ++ [joined]))).
Proof.
  unfold joinMeeting.
  destruct (quiet_before_admission e w) as (_ & _ & Hs1 & Hr1).
  destruct (bind_cases (before_admission e) (fun _ => pushState joined ;; in_meeting e ;; pushState finished) w)
    as [([] & w1 & E1 & ->)|(err & w1 & E1 & ->)]; rewrite E1 in Hs1, Hr1; cbn in Hs1, Hr1;
    [|cbn; split; [assumption|right; eauto]].
  change ((pushState joined ;; in_meeting e ;; pushState finished) w1)
    with ((in_meeting e ;; pushState finished)
            (mkWorld (logs w1) (actions w1) (Js.push (_state w1) joined) (reported w1))).
  set (w2 := mkWorld (logs w1) (actions w1) (Js.push (_state w1) joined) (reported w1)).
  destruct (quiet_in_meeting e w2) as (_ & _ & Hs2 & Hr2).
  destruct (bind_cases (in_meeting e) (fun _ => pushState finished) w2)
    as [([] & w3 & E2 & ->)|(err & w3 & E2 & ->)]; rewrite E2 in Hs2, Hr2;
    cbn in Hs2, Hr2 |- *.
  - split; [congruence|]. left. split; [reflexivity|].
    rewrite Hs2. unfold Js.push. rewrite Hs1, <- app_assoc. reflexivity.
  - split; [congruence|]. right. exists err. split; [reflexivity|].
    right. rewrite Hs2. unfold Js.push. now rewrite Hs1.
Qed.

Lemma outcome_eq (e : env) (w : world) :
  joinMeeting_outcome e w
  = fst (joinMeeting e (mkWorld (logs w) (actions w) [processing] (reported w))).
Proof. reflexivity. Qed.

Lemma pushed_eq (e : env) (w : world) :
  pushed e w
  = _state (snd (joinMeeting e (mkWorld (logs w) (actions w) [processing] (reported w)))).
Proof.
  unfold pushed.
  change ((set_state [processing] ;; try_catch (joinMeeting e) (fun _ => ret tt)) w)
    with (try_catch (joinMeeting e) (fun _ => ret tt)
            (mkWorld (logs w) (actions w) [processing] (reported w))).
  unfold try_catch.
  destruct (joinMeeting e _) as [[[]|err] w2]; reflexivity.
Qed.

Lemma status_array_facts :
  Js.includes [processing; joined; finished] finished = true
  /\ Js.splice [processing; joined; finished]
       (Js.indexOf [processing; joined; finished] finished) 1 failed
     = [processing; joined; failed]
  /\ Js.includes [processing; joined; failed] finished = false
  /\ Js.includes [processing; joined] finished = false
  /\ Js.includes [processing] finished = false.
Proof. repeat split; vm_compute; reflexivity. Qed.

(** Every way a session can go, and what it reports. *)
Lemma reports_table (e : env) (w : world) :
  reports e w =
    match joinMeeting_outcome e w with
    | Throw _ => [pushed e w ++ [failed]]
    | Ok _ =>
        match uploadRecordingToRemoteStorage e with
        | Throw _ => [pushed e w]
        | Ok true =>
            pushed e w :: match patchFirst e with Ok _ => [] | Throw _ => [pushed e w] end
        | Ok false =>
            downgrade (pushed e w)
            :: match patchFirst e with
               | Ok _ => []
               | Throw _ => [downgrade (pushed e w) ++ [failed]]
               end
        end
    end
  /\ match joinMeeting_outcome e w with
     | Throw _ => pushed e w = [processing] \/ pushed e w = [processing; joined]
     | Ok _ => pushed e w = [processing; joined; finished]
     end.
Proof.
  destruct status_array_facts as (Hi3 & Hsp & Hi3' & Hi2 & Hi1).
  rewrite outcome_eq, pushed_eq. unfold reports, join.
  change ((set_state [processing] ;; ?m) w)
    with (m (mkWorld (logs w) (actions w) [processing] (reported w))).
  set (w1 := mkWorld (logs w) (actions w) [processing] (reported w)).
  destruct (joinMeeting_cases e w1) as (Hr & [(Hok & Hst)|(err & Hthrow & Hst)]).
  - unfold try_catch at 1.
    destruct (bind_cases (joinMeeting e) (fun _ =>
                let* uploadResult := handleUpload e in
                (let* st := get_state in
                 if Js.includes st finished && negb uploadResult
                 then set_state (Js.splice st (Js.indexOf st finished) 1 failed)
                 else ret tt) ;;
                patchBotStatus (patchFirst e)) w1)
      as [([] & w2 & E & ->)|(err & w2 & E & ->)];
      rewrite E in *; cbn in Hr, Hst, Hok; [|discriminate].
    cbn [fst snd]. rewrite Hst. split; [|reflexivity].
    destruct w2 as [l a st rp]. cbn in Hr, Hst. subst st rp.
    unfold handleUpload, patchBotStatus, pushState.
    destruct (uploadRecordingToRemoteStorage e) as [[|]|[]];
      destruct (patchFirst e) as [[]|[]];
      destruct (closeLiveConnection e) as [[]|?];
      destruct (patchSecond e) as [[]|?];
      destruct (errorHandler e) as [[]|?];
      run_m; rewrite ?Hi3; run_m; rewrite ?Hsp, ?Hi3, ?Hi3'; run_m;
      unfold Js.push; cbn;
      rewrite <- ?app_assoc, ?drop_app_length; reflexivity.
  - unfold try_catch at 1.
    destruct (bind_cases (joinMeeting e) (fun _ =>
                let* uploadResult := handleUpload e in
                (let* st := get_state in
                 if Js.includes st finished && negb uploadResult
                 then set_state (Js.splice st (Js.indexOf st finished) 1 failed)
                 else ret tt) ;;
                patchBotStatus (patchFirst e)) w1)
      as [([] & w2 & E & ->)|(err' & w2 & E & ->)];
      rewrite E in *; cbn in Hr, Hst, Hthrow; [discriminate|].
    injection Hthrow as ->.
    cbn [fst snd].
    destruct w2 as [l a st rp]. cbn in Hr, Hst. subst rp.
    unfold patchBotStatus, pushState.
    destruct Hst as [-> | ->]; (split; [|auto]);
      destruct err;
      destruct (closeLiveConnection e) as [[]|?];
      destruct (patchSecond e) as [[]|?];
      destruct (errorHandler e) as [[]|?];
      run_m; rewrite ?Hi1, ?Hi2; run_m;
      unfold Js.push; cbn;
      rewrite <- ?app_assoc, ?drop_app_length; reflexivity.
Qed.

(** C1. Every status history that join reports ends in [finished] or in
    [failed] and never holds both, and join reports at least once. When
    joinMeeting returns and the upload result is falsy, the [finished]
    it had appended is replaced where it stands by [failed] before the
    first report. When joinMeeting returns and the upload result is
    truthy, every report is the history as joinMeeting left it, with
    its [finished]: nothing is replaced and nothing appended. When
    joinMeeting throws, [finished] is not in the history and [failed] is
    appended to it; when the error comes after joinMeeting returned (the
    upload throws), [finished] is in the history and nothing is
    appended. These are the only changes: the reports are exactly the
    ones of the table that ends the statement, where a second report is
    made only when the first one throws and appends [failed] only if
    [finished] is not in the history then. *)
Theorem join_status_history (e : env) (w : world) :
  reports e w <> []
  /\ (forall h, h ∈ reports e w ->
        (last h = Some finished \/ last h = Some failed)
        /\ ~ (finished ∈ h /\ failed ∈ h))
  /\ (joinMeeting_outcome e w = Ok tt ->
      uploadRecordingToRemoteStorage e = Ok false ->
      pushed e w = [processing; joined; finished]
      /\ head (reports e w) = Some (downgrade (pushed e w))
      /\ downgrade (pushed e w) = [processing; joined; failed])
  /\ (joinMeeting_outcome e w = Ok tt ->
      uploadRecordingToRemoteStorage e = Ok true ->
      pushed e w = [processing; joined; finished]
      /\ forall h, h ∈ reports e w -> h = pushed e w)
  /\ (forall err, joinMeeting_outcome e w = Throw err ->
      ~ finished ∈ pushed e w
      /\ reports e w = [pushed e w ++ [failed]])
  /\ (forall err, joinMeeting_outcome e w = Ok tt ->
      uploadRecordingToRemoteStorage e = Throw err ->
      finished ∈ pushed e w
      /\ reports e w = [pushed e w])
  /\ reports e w
     = match joinMeeting_outcome e w, uploadRecordingToRemoteStorage e, patchFirst e with
       | Throw _, _, _ => [pushed e w ++ [failed]]
       | Ok _, Throw _, _ => [pushed e w]
       | Ok _, Ok true, Ok _ => [pushed e w]
       | Ok _, Ok true, Throw _ => [pushed e w; pushed e w]
       | Ok _, Ok false, Ok _ => [downgrade (pushed e w)]
       | Ok _, Ok false, Throw _ =>
           [downgrade (pushed e w); downgrade (pushed e w) ++ [failed]]
       end.
Proof.
  destruct (reports_table e w) as (Ht & Hp).
  assert (Hboth : forall h : list BotStatus,
             h ∈ [[processing; joined; finished]; [processing; joined; failed];
                  [processing; joined; failed; failed]; [processing; failed]] ->
             (last h = Some finished \/ last h = Some failed)
             /\ ~ (finished ∈ h /\ failed ∈ h)).
  { intros h Hh. repeat (apply elem_of_cons in Hh as [-> | Hh]);
      try (apply elem_of_nil in Hh; contradiction);
      (split; [compute_done|]); intros [Hf Hx];
      repeat (apply elem_of_cons in Hf as [Hf | Hf]; try discriminate Hf);
      repeat (apply elem_of_cons in Hx as [Hx | Hx]; try discriminate Hx);
      try (apply elem_of_nil in Hf; contradiction);
      try (apply elem_of_nil in Hx; contradiction). }
  destruct (joinMeeting_outcome e w) as [[]|err].
  - rewrite Hp in *. cbn [downgrade] in *.
    destruct (uploadRecordingToRemoteStorage e) as [[|]|err];
      destruct (patchFirst e) as [[]|err']; rewrite Ht;
      (split; [discriminate|]);
      (split; [intros h Hh; apply Hboth; set_solver|]);
      repeat split; try discriminate; try (intros; discriminate);
      try compute_done;
      intros h Hh; repeat (apply elem_of_cons in Hh as [-> | Hh]);
      try (apply elem_of_nil in Hh; contradiction);
      reflexivity.
  - rewrite Ht.
    split; [discriminate|].
    split.
    { intros h Hh. apply list_elem_of_singleton in Hh as ->.
      destruct Hp as [-> | ->]; [apply Hboth; set_solver|].
      split; [right; reflexivity|]. intros [Hf _].
      repeat (apply elem_of_cons in Hf as [Hf | Hf]; try discriminate Hf).
      apply elem_of_nil in Hf; contradiction. }
    repeat split; try discriminate; try (intros; discriminate).
    destruct Hp as [-> | ->]; compute_done.
Qed.

Example failed_upload_is_downgraded :
  reports (Examples.session Examples.meet_page (Ok tt) (Ok false) (Ok tt)) w0
  = [[processing; joined; failed]]
  /\ fst (join (Examples.session Examples.meet_page (Ok tt) (Ok false) (Ok tt)) w0)
     = Ok tt.
Proof. split; vm_compute; reflexivity. Qed.

Example successful_session_is_finished :
  reports (Examples.session Examples.meet_page (Ok tt) (Ok true) (Ok tt)) w0
  = [[processing; joined; finished]].
Proof. vm_compute; reflexivity. Qed.

Example failed_recording_is_failed :
  reports (Examples.session Examples.meet_page (Throw (OtherError "page crashed"))
             (Ok true) (Ok tt)) w0
  = [[processing; joined; failed]]
  /\ fst (join (Examples.session Examples.meet_page (Throw (OtherError "page crashed"))
                  (Ok true) (Ok tt)) w0)
     = Throw (OtherError "page crashed").
Proof. split; vm_compute; reflexivity. Qed.

Example sign_in_session_is_failed :
  reports (Examples.session Examples.sign_in_page (Ok tt) (Ok true) (Ok tt)) w0
  = [[processing; failed]].
Proof. vm_compute; reflexivity. Qed.

Example failed_report_is_repeated :
  reports (Examples.session Examples.meet_page (Ok tt) (Ok false)
             (Throw (OtherError "503"))) w0
  = [[processing; joined; failed]; [processing; joined; failed; failed]].
Proof. vm_compute; reflexivity. Qed.

(** *** The classification inside joinMeeting *)

Lemma quiet_request_admission (e : env) : quiet (request_admission e).
Proof. unfold request_admission. quiet_steps. Qed.

(** Up to the classification joinMeeting writes at most two lines. *)
Lemma before_admission_split (e : env) (w : world) :
  launch e = Ok tt ->
  exists w1,
    before_admission e w = (PageCheck.classify (page e) ;; request_admission e) w1
    /\ (forall l m, logged l m w1 ->
          logged l m w \/ m = msg_launching \/ m = msg_continue_without).
Proof.
  intros Hl. unfold before_admission. rewrite Hl.
  destruct (dismissDeviceCheck e) as [[]|err]; run_m; eexists; (split; [reflexivity|]);
    unfold logged; cbn; intros l m; rewrite ?elem_of_app, ?list_elem_of_singleton;
    intros H; decompose [or] H; auto;
    match goal with E : (_, _) = (_, _) |- _ => injection E as -> -> end; auto.
Qed.

Lemma joinMeeting_logs (e : env) (w : world) :
  logs (snd (before_admission e w)) `prefix_of` logs (snd (joinMeeting e w)).
Proof.
  unfold joinMeeting.
  destruct (bind_cases (before_admission e)
              (fun _ => pushState joined ;; in_meeting e ;; pushState finished) w)
    as [([] & w1 & E1 & ->)|(err & w1 & E1 & ->)]; rewrite E1; cbn [snd];
    [|reflexivity].
  change ((pushState joined ;; in_meeting e ;; pushState finished) w1)
    with ((in_meeting e ;; pushState finished)
            (mkWorld (logs w1) (actions w1) (Js.push (_state w1) joined) (reported w1))).
  set (w2 := mkWorld (logs w1) (actions w1) (Js.push (_state w1) joined) (reported w1)).
  destruct (quiet_in_meeting e w2) as (Hp & _).
  destruct (bind_cases (in_meeting e) (fun _ => pushState finished) w2)
    as [([] & w3 & E2 & ->)|(err & w3 & E2 & ->)]; rewrite E2 in Hp; exact Hp.
Qed.

Lemma joinMeeting_stops (e : env) (w : world) (err : error) :
  fst (before_admission e w) = Throw err ->
  joinMeeting e w = before_admission e w.
Proof.
  intros H. unfold joinMeeting, bind at 1.
  destruct (before_admission e w) as [[[]|err'] w1]; [discriminate|reflexivity].
Qed.

Lemma joinMeeting_proceeds (e : env) (w w1 : world) :
  before_admission e w = (PageCheck.classify (page e) ;; request_admission e) w1 ->
  fst (PageCheck.classify (page e) w1) = Ok tt ->
  logged Info msg_name_field (snd (joinMeeting e w))
  /\ forall l m, logged l m (snd (PageCheck.classify (page e) w1)) ->
                 logged l m (snd (joinMeeting e w)).
Proof.
  intros Hb Hc.
  assert (Hb' : before_admission e w
                = request_admission e (snd (PageCheck.classify (page e) w1))).
  { rewrite Hb. unfold bind at 1.
    destruct (PageCheck.classify (page e) w1) as [[[]|err] w2];
      [reflexivity|discriminate]. }
  assert (Hp : forall l m, logged l m (snd (before_admission e w)) ->
                           logged l m (snd (joinMeeting e w))).
  { intros l m. unfold logged. destruct (joinMeeting_logs e w) as [k ->]. set_solver. }
  split.
  - apply Hp. rewrite Hb'. unfold request_admission. rewrite bind_log.
    apply logged_later; [quiet_steps|]. unfold logged. cbn. set_solver.
  - intros l m Hlm. apply Hp. rewrite Hb'.
    apply logged_later; [apply quiet_request_admission|exact Hlm].
Qed.

(** C4, as amended. [msg_name_field] is the line joinMeeting writes when
    it goes on to the name field after the classification. In a session
    whose browser launched: a sign-in page raises the unsupported-meeting
    error out of joinMeeting, which never reaches the name field; an
    unsupported page is only logged and joinMeeting goes on to the name
    field, as it does for a meeting page; an error while classifying is
    logged, gives no classification, and joinMeeting goes on as well. *)
Theorem classify_outcomes (e : env) (w : world) :
  launch e = Ok tt ->
  ~ logged Info msg_name_field w ->
  match fst (PageCheck.verifyItIsOnGoogleMeetPage (page e) w) with
  | Ok (Some SIGN_IN_PAGE) =>
      fst (joinMeeting e w)
      = Throw (UnsupportedMeetingError "Meeting requires sign in" SIGN_IN_PAGE)
      /\ ~ logged Info msg_name_field (snd (joinMeeting e w))
      /\ _state (snd (joinMeeting e w)) = _state w
  | Ok (Some UNSUPPORTED_PAGE) =>
      logged Info PageCheck.msg_unsupported (snd (joinMeeting e w))
      /\ logged Info msg_name_field (snd (joinMeeting e w))
  | Ok (Some GOOGLE_MEET_PAGE) =>
      logged Info msg_name_field (snd (joinMeeting e w))
  | Ok None =>
      logged Err PageCheck.msg_verify_error (snd (joinMeeting e w))
      /\ logged Info msg_name_field (snd (joinMeeting e w))
  | Throw _ => False
  end.
Proof.
  intros Hl Hn.
  destruct (before_admission_split e w Hl) as (w1 & Hb & Hw1).
  pose proof (classify_cases (page e) w1) as Hc.
  pose proof (classify_logs (page e) w1) as Hlogs.
  rewrite (verify_value (page e) w w1).
  destruct (fst (PageCheck.verifyItIsOnGoogleMeetPage (page e) w1)) as [[[]|]|];
    [| | | |exact Hc].
  - (* the sign-in page *)
    assert (Hb' : before_admission e w = PageCheck.classify (page e) w1).
    { rewrite Hb. unfold bind.
      destruct (PageCheck.classify (page e) w1) as [[[]|err] w2];
        [discriminate|reflexivity]. }
    rewrite (joinMeeting_stops e w _ (eq_trans (f_equal fst Hb') Hc)), Hb'.
    split; [exact Hc|]. split.
    + intros H. apply Hlogs in H as [H|H].
      * apply Hw1 in H as [H|[H|H]]; [exact (Hn H)|discriminate H|discriminate H].
      * set_solver.
    + rewrite <- Hb'. apply quiet_before_admission.
  - (* the meeting page *)
    exact (proj1 (joinMeeting_proceeds e w w1 Hb Hc)).
  - (* the unsupported page *)
    destruct Hc as (Hc & Hu).
    destruct (joinMeeting_proceeds e w w1 Hb Hc) as (Hname & Hkeep). auto.
  - (* no classification *)
    destruct Hc as (Hc & Hu).
    destruct (joinMeeting_proceeds e w w1 Hb Hc) as (Hname & Hkeep). auto.
Qed.

Lemma classify_outcomes_witness :
  launch (Examples.session Examples.sign_in_page (Ok tt) (Ok true) (Ok tt)) = Ok tt
  /\ ~ logged Info msg_name_field w0
  /\ fst (joinMeeting (Examples.session Examples.sign_in_page (Ok tt) (Ok true) (Ok tt)) w0)
     = Throw (UnsupportedMeetingError "Meeting requires sign in" SIGN_IN_PAGE)
  /\ ~ logged Info msg_name_field
         (snd (joinMeeting
                 (Examples.session Examples.sign_in_page (Ok tt) (Ok true) (Ok tt)) w0))
  /\ _state (snd (joinMeeting
                    (Examples.session Examples.sign_in_page (Ok tt) (Ok true) (Ok tt)) w0))
     = _state w0.
Proof.
  assert (Hl : launch (Examples.session Examples.sign_in_page (Ok tt) (Ok true) (Ok tt))
               = Ok tt) by reflexivity.
  assert (Hn : ~ logged Info msg_name_field w0) by (intros H; inversion H).
  split; [exact Hl|]. split; [exact Hn|].
  exact (classify_outcomes
           (Examples.session Examples.sign_in_page (Ok tt) (Ok true) (Ok tt)) w0 Hl Hn).
Defined.

(** C4 as stated fails: on a page that is neither a meeting nor the
    sign-in, the classification is [UNSUPPORTED_PAGE]; joinMeeting raises
    nothing, goes on to the name field and runs to its end. *)
Lemma unsupported_page_is_not_raised :
  fst (PageCheck.verifyItIsOnGoogleMeetPage Examples.other_page w0)
  = Ok (Some UNSUPPORTED_PAGE)
  /\ PageCheck.classify Examples.other_page w0
     = (Ok tt, mkWorld [(Info, PageCheck.msg_unsupported)] [] [] [])
  /\ fst (joinMeeting (Examples.session Examples.other_page (Ok tt) (Ok true) (Ok tt)) w0)
     = Ok tt
  /\ In (Info, msg_name_field)
       (logs (snd (joinMeeting
                     (Examples.session Examples.other_page (Ok tt) (Ok true) (Ok tt)) w0)))
  /\ _state (snd (joinMeeting
                    (Examples.session Examples.other_page (Ok tt) (Ok true) (Ok tt)) w0))
     = [joined; finished].
Proof.
  split; [reflexivity|]. split; [reflexivity|]. split; [vm_compute; reflexivity|].
  split; [|vm_compute; reflexivity].
  vm_compute. tauto.
Qed.

End JoinFacts.

(* ================================================================= *)
(** ** The presence monitor *)
(* ================================================================= *)

Section PresenceFacts.
Import Recording.

Lemma retry_armed : bool_decide (RetryWithBackoff ∈ [RetryWithBackoff]) = true.
Proof. reflexivity. Qed.

(** [k] unknown reads in a row that leave the counter below the
    threshold: the monitor stays active. *)
Lemma unknown_reads (k : nat) : forall (f : Z),
  f + Z.of_nat k < maxDetectionFailures ->
  presence_chain (repeat Unknown k) (mkPresence f true) true
  = (mkPresence (f + Z.of_nat k) true, true,
     repeat (mkFiring true [RetryWithBackoff]) k).
Proof.
  induction k as [|k IH]; intros f Hlt.
  - cbn. now rewrite Z.add_0_r.
  - cbn [repeat presence_chain]. unfold check.
    cbn [loneTestDetectionActive detectionFailures negb calls].
    replace (f + 1 >=? maxDetectionFailures) with false by (symmetry; lia).
    rewrite retry_armed, IH by lia.
    replace (f + 1 + Z.of_nat k) with (f + Z.of_nat (S k)) by lia.
    reflexivity.
Qed.

(** The unknown read that brings the counter to the threshold. *)
Lemma unknown_read_disables (f : Z) :
  maxDetectionFailures <= f + 1 ->
  check Unknown (mkPresence f true)
  = (mkPresence (f + 1) false, mkFiring true [RetryWithBackoff]).
Proof.
  intros Hge. unfold check. cbn.
  replace (f + 1 >=? maxDetectionFailures) with true by (symmetry; lia).
  reflexivity.
Qed.

(** A disabled monitor evaluates no read and asks for no stop: its
    pending timer fires once, clears itself and is not armed again. *)
Lemma disabled_chain (reads : list read) (p : presence) (armed : bool) :
  loneTestDetectionActive p = false ->
  presence_chain reads p armed
  = (p,
     match reads with [] => armed | _ => false end,
     match reads with
     | [] => []
     | _ => if armed then [mkFiring false [ClearLoneTest]] else []
     end).
Proof.
  intros Ha. destruct reads as [|r rest]; [reflexivity|].
  destruct armed; [|reflexivity].
  cbn [presence_chain]. unfold check. rewrite Ha. cbn.
  destruct rest; reflexivity.
Qed.

(** The chain of one part of the reads, then of the rest. *)
Lemma presence_chain_app (r1 r2 : list read) : forall (p : presence) (armed : bool),
  presence_chain (r1 ++ r2) p armed
  = (let '(p1, a1, f1) := presence_chain r1 p armed in
     let '(p2, a2, f2) := presence_chain r2 p1 a1 in
     (p2, a2, f1 ++ f2)).
Proof.
  induction r1 as [|r r1 IH]; intros p armed; cbn [presence_chain app].
  - destruct (presence_chain r2 p armed) as [[p2 a2] f2]. reflexivity.
  - destruct armed.
    + destruct (check r p) as [p1 f]. rewrite IH.
      destruct (presence_chain r1 p1 _) as [[p1' a1] f1].
      destruct (presence_chain r2 p1' a1) as [[p2 a2] f2]. reflexivity.
    + destruct r2; reflexivity.
Qed.

(** C5. On a read that succeeds, a count below 2 requests the stop and
    the monitor is not armed again; a count of 2 or more resets the
    failure counter to 0 and arms the next poll. Ten unknown reads in a
    row from a counter at 0 disable the monitor and request no stop, and
    fewer leave it active. Once disabled, the monitor evaluates none of
    the reads that follow, whatever they are, and requests no stop. *)
Theorem presence_monitor_behaviour :
  (forall p n, loneTestDetectionActive p = true -> n < 2 ->
     check (Count n) p = (mkPresence 0 false, mkFiring true [StopTheRecording]))
  /\ (forall p n, loneTestDetectionActive p = true -> 2 <= n ->
     check (Count n) p = (mkPresence 0 true, mkFiring true [RetryWithBackoff]))
  /\ (forall k, (k < 10)%nat ->
     presence_chain (repeat Unknown k) presence_init true
     = (mkPresence (Z.of_nat k) true, true, repeat (mkFiring true [RetryWithBackoff]) k))
  /\ (forall rest,
     presence_chain (repeat Unknown 10 ++ rest) presence_init true
     = (mkPresence 10 false,
        match rest with [] => true | _ => false end,
        repeat (mkFiring true [RetryWithBackoff]) 10
        ++ match rest with [] => [] | _ => [mkFiring false [ClearLoneTest]] end))
  /\ (forall reads p armed f, loneTestDetectionActive p = false ->
     f ∈ snd (presence_chain reads p armed) ->
     evaluated f = false /\ ~ StopTheRecording ∈ calls f).
Proof.
  repeat split.
  - intros [f a] n Ha Hn. cbn in Ha. subst a. unfold check. cbn.
    apply Z.ltb_lt in Hn. now rewrite Hn.
  - intros [f a] n Ha Hn. cbn in Ha. subst a. unfold check. cbn.
    apply Z.ltb_ge in Hn. now rewrite Hn.
  - intros k Hk. unfold presence_init.
    rewrite unknown_reads by (unfold maxDetectionFailures; lia).
    reflexivity.
  - intros rest.
    change (repeat Unknown 10) with (repeat Unknown 9 ++ [Unknown]).
    rewrite <- app_assoc, presence_chain_app. unfold presence_init.
    rewrite unknown_reads by (unfold maxDetectionFailures; lia).
    cbn [app presence_chain]. rewrite unknown_read_disables by reflexivity.
    cbn [calls]. rewrite retry_armed, disabled_chain by reflexivity.
    destruct rest; reflexivity.
  - rewrite disabled_chain in H0 by assumption.
    destruct reads, armed; cbn in H0; try (apply elem_of_nil in H0; contradiction);
      apply list_elem_of_singleton in H0 as ->; reflexivity.
  - rewrite disabled_chain in H0 by assumption.
    destruct reads, armed; cbn in H0; try (apply elem_of_nil in H0; contradiction);
      apply list_elem_of_singleton in H0 as ->; cbn.
    intros Hin. apply list_elem_of_singleton in Hin. discriminate.
Qed.

End PresenceFacts.

(* ================================================================= *)
(** ** The silence monitor *)
(* ================================================================= *)

Section SilenceFacts.
Import Recording SilenceSpec.

(** One sample, by cases. *)
Lemma monitorSilence_cases (lim : Z) (sample : result (list Z)) (s : silence) :
  monitor s = true ->
  (valid sample = false
   /\ snd (monitorSilence lim sample s) = []
   /\ monitor (fst (monitorSilence lim sample s)) = false
   /\ silenceDuration (fst (monitorSilence lim sample s)) = silenceDuration s)
  \/ (valid sample = true /\ below sample = true /\ silenceDuration s + 100 >= lim
      /\ snd (monitorSilence lim sample s) = [StopTheRecording]
      /\ monitor (fst (monitorSilence lim sample s)) = false
      /\ silenceDuration (fst (monitorSilence lim sample s)) = silenceDuration s + 100)
  \/ (valid sample = true /\ below sample = true /\ silenceDuration s + 100 < lim
      /\ snd (monitorSilence lim sample s) = [SetTimeoutMonitorSilence]
      /\ monitor (fst (monitorSilence lim sample s)) = true
      /\ silenceDuration (fst (monitorSilence lim sample s)) = silenceDuration s + 100)
  \/ (valid sample = true /\ below sample = false
      /\ snd (monitorSilence lim sample s) = [SetTimeoutMonitorSilence]
      /\ monitor (fst (monitorSilence lim sample s)) = true
      /\ silenceDuration (fst (monitorSilence lim sample s)) = 0).
Proof.
  intros Hm. unfold monitorSilence, valid, below.
  destruct (audioActivity sample) as [a|]; [|left; repeat split; reflexivity].
  right. destruct (Qltb a silenceThreshold).
  - destruct (bool_decide (silenceDuration s + 100 >= lim)) eqn:Hb.
    + apply bool_decide_eq_true in Hb. left. cbn. repeat split; auto.
    + apply bool_decide_eq_false in Hb. right; left. cbn. rewrite Hm.
      repeat split; auto. lia.
  - right; right. cbn. rewrite Hm. repeat split; auto.
Qed.

Lemma reaches_first (d lim : Z) (sample : result (list Z)) rest :
  reaches d lim (sample :: rest) 0 <-> below sample = true /\ d + 100 >= lim.
Proof.
  unfold reaches, accumulated. cbn. split.
  - intros ((smp & [= <-] & Hb) & Hacc). rewrite Hb in Hacc. auto.
  - intros (Hb & Hge). rewrite Hb. eauto.
Qed.

Lemma reaches_later (d lim : Z) (sample : result (list Z)) rest (i : nat) :
  reaches d lim (sample :: rest) (S i)
  <-> reaches (if below sample then d + 100 else 0) lim rest i.
Proof. unfold reaches, accumulated. cbn. reflexivity. Qed.

Lemma stops_at_first (cs : list call) css :
  stops_at (cs :: css) 0 <-> StopTheRecording ∈ cs.
Proof.
  unfold stops_at. cbn. split.
  - intros (cs' & [= <-] & H). exact H.
  - eauto.
Qed.

Lemma stops_at_later (cs : list call) css (i : nat) :
  stops_at (cs :: css) (S i) <-> stops_at css i.
Proof. unfold stops_at. cbn. reflexivity. Qed.

Lemma all_valid_cons (sample : result (list Z)) rest (i : nat) :
  (forall j, (j <= S i)%nat ->
     exists smp, (sample :: rest) !! j = Some smp /\ valid smp = true)
  <-> valid sample = true
      /\ (forall j, (j <= i)%nat -> exists smp, rest !! j = Some smp /\ valid smp = true).
Proof.
  split.
  - intros H. split.
    + destruct (H 0%nat ltac:(lia)) as (smp & [= <-] & Hv). exact Hv.
    + intros j Hj. apply (H (S j)). lia.
  - intros (Hv & H) [|j] Hj; [cbn; eauto|]. apply H. lia.
Qed.

Lemma rearmed_facts :
  bool_decide (SetTimeoutMonitorSilence ∈ @nil call) = false
  /\ bool_decide (SetTimeoutMonitorSilence ∈ [StopTheRecording]) = false
  /\ bool_decide (SetTimeoutMonitorSilence ∈ [SetTimeoutMonitorSilence]) = true.
Proof. repeat split. Qed.

(** The monitor requests the stop at sample [i] exactly when all the
    samples up to [i] could be analysed and [i] is the first sample with
    which the accumulated silence reaches the limit. *)
Lemma silence_chain_stops (lim : Z) (samples : list (result (list Z))) :
  forall (s : silence) (i : nat),
    monitor s = true ->
    stops_at (snd (silence_chain lim samples s)) i
    <-> (forall j, (j <= i)%nat ->
           exists smp, samples !! j = Some smp /\ valid smp = true)
        /\ reaches (silenceDuration s) lim samples i
        /\ (forall j, (j < i)%nat -> ~ reaches (silenceDuration s) lim samples j).
Proof.
  induction samples as [|sample rest IH]; intros s i Hm.
  - cbn. split.
    + intros (cs & Hcs & _). discriminate Hcs.
    + intros (H & _). destruct (H i (le_n i)) as (smp & Hsmp & _). discriminate Hsmp.
  - cbn [silence_chain].
    destruct rearmed_facts as (Hnil & Hstop & Hset).
    destruct (monitorSilence_cases lim sample s Hm) as
      [(Hv & Hcs & Hmon & Hd)|[(Hv & Hb & Hlim & Hcs & Hmon & Hd)|
       [(Hv & Hb & Hlim & Hcs & Hmon & Hd)|(Hv & Hb & Hcs & Hmon & Hd)]]];
      destruct (monitorSilence lim sample s) as [s1 cs]; cbn [fst snd] in *; subst cs.
    + (* the analysis failed *)
      rewrite Hnil. cbn [snd]. split.
      * intros (cs & Hcs & Hin). destruct i; cbn in Hcs; [|discriminate].
        injection Hcs as <-. apply elem_of_nil in Hin. contradiction.
      * intros (H & _). destruct (H 0%nat ltac:(lia)) as (smp & [= <-] & Hv').
        congruence.
    + (* the limit is reached with this sample *)
      rewrite Hstop. cbn [snd]. destruct i as [|i].
      * rewrite stops_at_first, reaches_first. split; [|intros; compute_done].
        intros _. split; [|split; [split; assumption|]].
        -- intros j Hj. replace j with 0%nat by lia. cbn. eauto.
        -- intros j Hj. lia.
      * rewrite stops_at_later. split.
        -- intros (cs & Hcs & _). discriminate Hcs.
        -- intros (_ & _ & H). exfalso. apply (H 0%nat ltac:(lia)).
           apply reaches_first. auto.
    + (* silent, below the limit: the next sample *)
      rewrite Hset.
      specialize (IH s1). destruct (silence_chain lim rest s1) as [s2 css].
      cbn [snd] in *. destruct i as [|i].
      * rewrite stops_at_first, reaches_first. split; [intros H; exfalso; revert H; compute_done|].
        intros (_ & (_ & Hge) & _). lia.
      * rewrite stops_at_later, IH by assumption.
        rewrite all_valid_cons, reaches_later, Hb, Hd.
        split.
        -- intros (Hall & Hr & Hnot). split; [split; assumption|split; [assumption|]].
           intros [|j] Hj.
           ++ rewrite reaches_first. intros (_ & Hge). lia.
           ++ rewrite reaches_later, Hb. apply Hnot. lia.
        -- intros ((_ & Hall) & Hr & Hnot). split; [assumption|split; [assumption|]].
           intros j Hj Hrj. apply (Hnot (S j) ltac:(lia)).
           rewrite reaches_later, Hb. exact Hrj.
    + (* at or above the threshold: the next sample, from 0 *)
      rewrite Hset.
      specialize (IH s1). destruct (silence_chain lim rest s1) as [s2 css].
      cbn [snd] in *. destruct i as [|i].
      * rewrite stops_at_first, reaches_first. split; [intros H; exfalso; revert H; compute_done|].
        intros (_ & (Hb' & _) & _). congruence.
      * rewrite stops_at_later, IH by assumption.
        rewrite all_valid_cons, reaches_later, Hb, Hd.
        split.
        -- intros (Hall & Hr & Hnot). split; [split; assumption|split; [assumption|]].
           intros [|j] Hj.
           ++ rewrite reaches_first. intros (Hb' & _). congruence.
           ++ rewrite reaches_later, Hb. apply Hnot. lia.
        -- intros ((_ & Hall) & Hr & Hnot). split; [assumption|split; [assumption|]].
           intros j Hj Hrj. apply (Hnot (S j) ltac:(lia)).
           rewrite reaches_later, Hb. exact Hrj.
Qed.

(** With a positive limit, only a sample below the threshold can bring
    the accumulated silence to the limit. *)
Lemma reaches_positive (d lim : Z) (samples : list (result (list Z))) (i : nat) :
  0 < lim ->
  reaches d lim samples i
  <-> (i < length samples)%nat /\ accumulated d (take (S i) samples) >= lim.
Proof.
  intros Hpos. unfold reaches. split.
  - intros ((smp & Hsmp & _) & Hacc). split; [|exact Hacc].
    eapply lookup_lt_Some; eassumption.
  - intros (Hlt & Hacc). split; [|exact Hacc].
    destruct (lookup_lt_is_Some_2 samples i Hlt) as [smp Hsmp].
    exists smp. split; [exact Hsmp|].
    rewrite (take_S_r _ _ _ Hsmp) in Hacc. unfold accumulated in Hacc.
    rewrite fold_left_app in Hacc. cbn in Hacc.
    destruct (below smp); [reflexivity|lia].
Qed.

(** C6. Each sample strictly below the threshold adds 100 to
    silenceDuration and each sample at or above it sets it to 0. The
    monitor requests the stop at sample [i] exactly when every sample up
    to [i] could be analysed and [i] is the first sample with which the
    accumulated silence reaches the limit: not one sample earlier, and
    never after a sample whose analysis failed, which stops the monitor
    with no request. Without an audio track the monitor does not
    start. *)
Theorem silence_monitor_behaviour (lim : Z) :
  (forall s sample, below sample = true ->
     silenceDuration (fst (monitorSilence lim sample s)) = silenceDuration s + 100)
  /\ (forall s sample, valid sample = true -> below sample = false ->
     silenceDuration (fst (monitorSilence lim sample s)) = 0)
  /\ (forall samples i,
     stops_at (snd (silence_chain lim samples silence_init)) i
     <-> (forall j, (j <= i)%nat ->
            exists smp, samples !! j = Some smp /\ valid smp = true)
         /\ reaches 0 lim samples i
         /\ (forall j, (j < i)%nat -> ~ reaches 0 lim samples j))
  /\ (forall samples i, 0 < lim ->
     reaches 0 lim samples i
     <-> (i < length samples)%nat /\ accumulated 0 (take (S i) samples) >= lim)
  /\ (forall s sample, valid sample = false ->
     monitorSilence lim sample s
     = (mkSilence (silenceDuration s) (totalChecks s) (audioActivitySum s) false, []))
  /\ (forall samples, silence_monitor false lim samples = None)
  /\ (forall context_ok sample,
     detectIncrediblySilentMeeting false context_ok lim sample = None).
Proof.
  split; [|split; [|split; [|split; [|split; [|split]]]]].
  - intros s sample Hb. unfold below in Hb. unfold monitorSilence.
    destruct (audioActivity sample) as [a|]; [|discriminate].
    rewrite Hb. reflexivity.
  - intros s sample Hv Hb. unfold below, valid in *. unfold monitorSilence.
    destruct (audioActivity sample) as [a|]; [|discriminate].
    rewrite Hb. reflexivity.
  - intros samples i. apply (silence_chain_stops lim samples silence_init i). reflexivity.
  - intros samples i Hpos. now apply reaches_positive.
  - intros s sample Hv. unfold valid in Hv. unfold monitorSilence.
    destruct (audioActivity sample) as [a|]; [discriminate|reflexivity].
  - reflexivity.
  - reflexivity.
Qed.

(** Seven silent samples against a limit of 500 ms: the stop is
    requested with the fifth and the last two are not taken. *)
Example silent_run_stops_at_fifth :
  snd (silence_chain 500 (repeat Examples.silent_sample 7) silence_init)
  = repeat [SetTimeoutMonitorSilence] 4 ++ [[StopTheRecording]]
  /\ stops_at (snd (silence_chain 500 (repeat Examples.silent_sample 7) silence_init)) 4
  /\ accumulated 0 (repeat Examples.silent_sample 5) = 500
  /\ accumulated 0 (repeat Examples.silent_sample 4) = 400.
Proof.
  repeat split; try (vm_compute; reflexivity).
  exists [StopTheRecording]. split; [vm_compute; reflexivity|compute_done].
Qed.

(** One loud sample sets the accumulated silence back to 0, and a
    failed analysis ends the monitor without a request. *)
Example loud_sample_resets :
  accumulated 0 (repeat Examples.silent_sample 4 ++ [Examples.loud_sample]) = 0
  /\ snd (silence_chain 500
            (repeat Examples.silent_sample 4 ++ [Examples.loud_sample]
             ++ repeat Examples.silent_sample 4) silence_init)
     = repeat [SetTimeoutMonitorSilence] 9
  /\ snd (silence_chain 500
            (repeat Examples.silent_sample 4 ++ [Examples.failed_sample]
             ++ repeat Examples.silent_sample 4) silence_init)
     = repeat [SetTimeoutMonitorSilence] 4 ++ [[]].
Proof. repeat split; vm_compute; reflexivity. Qed.

End SilenceFacts.

(* ================================================================= *)
(** ** The stop routine *)
(* ================================================================= *)

Section StopFacts.
Import Recording.

(** Occurrences of [e] in a list of effects. *)
Lemma occurrences_app (e : effect) (l1 l2 : list effect) :
  length (filter (fun x => x = e) (l1 ++ l2))
  = (length (filter (fun x => x = e) l1) + length (filter (fun x => x = e) l2))%nat.
Proof. now rewrite filter_app, length_app. Qed.

Lemma occurrences_concat_repeat (e : effect) (l : list effect) (n : nat) :
  length (filter (fun x => x = e) (concat (repeat l n)))
  = (n * length (filter (fun x => x = e) l))%nat.
Proof.
  induction n as [|n IH]; [reflexivity|].
  cbn [repeat concat]. rewrite occurrences_app, IH. lia.
Qed.

Lemma occurrences_other (e : effect) (l : list effect) :
  Forall (fun x => x <> e) l -> length (filter (fun x => x = e) l) = 0%nat.
Proof.
  induction 1 as [|x l Hx _ IH]; [reflexivity|].
  rewrite filter_cons_False by assumption. exact IH.
Qed.

Lemma occurrences_track (i n : nat) :
  (i < n)%nat ->
  length (filter (fun x => x = TrackStop i) (map TrackStop (seq 0 n))) = 1%nat.
Proof.
  induction n as [|n IH]; intros Hi; [lia|].
  rewrite seq_S, map_app, occurrences_app. cbn [map Nat.add].
  destruct (decide (i = n)) as [->|Hne].
  - rewrite filter_cons_True by reflexivity. rewrite occurrences_other; [reflexivity|].
    apply Forall_forall. intros x Hx.
    apply list_elem_of_fmap in Hx as (j & -> & Hj).
    apply elem_of_seq in Hj. intros [= ->]. lia.
  - rewrite IH by lia. rewrite filter_cons_False by (intros [= ?]; lia). reflexivity.
Qed.

Lemma clear_if_assigned_other (s : state) (t : timer) (e : effect) :
  (forall t', e <> ClearTimer t') ->
  Forall (fun x => x <> e) (clear_if_assigned s t).
Proof.
  intros He. unfold clear_if_assigned. destruct (bool_decide _); repeat constructor.
  intros Heq. apply (He t). now symmetry.
Qed.

(** One run of the routine calls [mediaRecorder.stop()] once, stops each
    track once, clears the duration timer once and signals the end
    once. *)
Lemma cleanup_once (cfg : config) (s : state) (e : effect) :
  e = RecorderStop \/ e = MeetEnd (slightlySecretId cfg)
  \/ (exists i, (i < length (tracks s))%nat /\ e = TrackStop i) ->
  length (filter (fun x => x = e) (cleanup cfg s)) = 1%nat.
Proof.
  intros He. unfold cleanup. rewrite !occurrences_app.
  assert (Hnot_clear : forall t', e <> ClearTimer t').
  { intros t'. destruct He as [->|[->|(i & _ & ->)]]; discriminate. }
  rewrite !(occurrences_other e (clear_if_assigned s _))
    by now apply clear_if_assigned_other.
  rewrite (occurrences_other e [ClearTimer timeoutId])
    by (repeat constructor; apply not_eq_sym, Hnot_clear).
  match goal with
  | |- context [filter _ (if ?b then [ConsoleError] else [])] =>
      rewrite (occurrences_other e (if b then [ConsoleError] else []))
        by (destruct b; repeat constructor;
            destruct He as [->|[->|(i & _ & ->)]]; discriminate)
  end.
  set (ts := map TrackStop (seq 0 (length (tracks s)))).
  set (me := [MeetEnd (slightlySecretId cfg)]).
  assert (Hts : forall x, x ∈ ts -> exists j, x = TrackStop j).
  { intros x Hx. apply list_elem_of_fmap in Hx as (j & -> & _). eauto. }
  destruct He as [->|[->|(i & Hi & ->)]].
  - rewrite filter_cons_True by reflexivity.
    rewrite (occurrences_other RecorderStop ts), (occurrences_other RecorderStop me);
      [reflexivity| |].
    + repeat constructor. discriminate.
    + apply Forall_forall. intros x Hx. destruct (Hts x Hx) as [j ->]. discriminate.
  - rewrite (occurrences_other _ [RecorderStop]) by (repeat constructor; discriminate).
    rewrite (occurrences_other _ ts).
    + unfold me. rewrite filter_cons_True by reflexivity. reflexivity.
    + apply Forall_forall. intros x Hx. destruct (Hts x Hx) as [j ->]. discriminate.
  - rewrite (occurrences_other _ [RecorderStop]) by (repeat constructor; discriminate).
    unfold ts. rewrite occurrences_track by assumption.
    rewrite (occurrences_other _ me) by (repeat constructor; discriminate).
    reflexivity.
Qed.

(** The routine has no memory of having run: a second run makes the
    same calls. *)
Lemma cleanup_again (cfg : config) (s : state) :
  cleanup cfg (stopTheRecording cfg s) = cleanup cfg s.
Proof.
  unfold cleanup, clear_if_assigned. cbn [tracks assigned lastDimissError stopTheRecording].
  now rewrite length_map.
Qed.

Lemma effects_stop_times (n : nat) (cfg : config) : forall (s : state),
  effects (stop_times n cfg s) = effects s ++ concat (repeat (cleanup cfg s) n).
Proof.
  induction n as [|n IH]; intros s; cbn [stop_times repeat concat].
  - now rewrite app_nil_r.
  - rewrite IH, cleanup_again. cbn [effects stopTheRecording].
    now rewrite <- app_assoc.
Qed.

(** What the routine leaves behind does not change when it runs again. *)
Lemma state_stop_times (n : nat) (cfg : config) : forall (s : state),
  recording (stop_times (S n) cfg s) = false
  /\ tracks (stop_times (S n) cfg s) = map (fun _ => false) (tracks s)
  /\ pending (stop_times (S n) cfg s) = pending s ∖ cleared s
  /\ assigned (stop_times (S n) cfg s) = assigned s.
Proof.
  induction n as [|n IH]; intros s.
  - repeat split.
  - destruct (IH (stopTheRecording cfg s)) as (Hr & Ht & Hp & Ha).
    change (stop_times (S (S n)) cfg s)
      with (stop_times (S n) cfg (stopTheRecording cfg s)).
    rewrite Hr, Ht, Hp, Ha. cbn [tracks pending assigned stopTheRecording].
    repeat split.
    + rewrite <- list_fmap_compose. reflexivity.
    + unfold cleared. cbn [assigned]. set_solver.
Qed.

(** C2, as amended. The routine has no guard against running again:
    [n] calls make the calls of the cleanup [n] times over, so the
    recorder and each track are stopped [n] times and the end is
    signalled [n] times. What does not change after the first call is
    what the routine leaves behind: the recorder and every track
    stopped, and none of the timers it clears pending. *)
Theorem stop_routine_repeats (cfg : config) (s : state) (n : nat) :
  effects (stop_times n cfg s) = effects s ++ concat (repeat (cleanup cfg s) n)
  /\ count RecorderStop (stop_times n cfg s) = (count RecorderStop s + n)%nat
  /\ count (MeetEnd (slightlySecretId cfg)) (stop_times n cfg s)
     = (count (MeetEnd (slightlySecretId cfg)) s + n)%nat
  /\ (forall i, (i < length (tracks s))%nat ->
      count (TrackStop i) (stop_times n cfg s) = (count (TrackStop i) s + n)%nat)
  /\ recording (stop_times (S n) cfg s) = false
  /\ tracks (stop_times (S n) cfg s) = map (fun _ => false) (tracks s)
  /\ pending (stop_times (S n) cfg s) = pending s ∖ cleared s
  /\ assigned (stop_times (S n) cfg s) = assigned s.
Proof.
  pose proof (effects_stop_times n cfg s) as He.
  destruct (state_stop_times n cfg s) as (Hr & Ht & Hp & Ha).
  assert (Hcount : forall e,
            length (filter (fun x => x = e) (cleanup cfg s)) = 1%nat ->
            count e (stop_times n cfg s) = (count e s + n)%nat).
  { intros e H1. unfold count. rewrite He, occurrences_app, occurrences_concat_repeat, H1.
    lia. }
  split; [exact He|].
  split; [apply Hcount, cleanup_once; auto|].
  split; [apply Hcount, cleanup_once; auto|].
  split; [intros i Hi; apply Hcount, cleanup_once; eauto|].
  split; [exact Hr|]. split; [exact Ht|]. split; [exact Hp|exact Ha].
Qed.

(** The timer of the silence monitor is not among those the routine
    clears. *)
Lemma silence_timer_survives (cfg : config) (s : state) :
  monitorSilenceTimeout ∈ pending s ->
  monitorSilenceTimeout ∈ pending (stopTheRecording cfg s).
Proof.
  intros Hin. cbn [pending stopTheRecording]. unfold cleared.
  apply elem_of_difference. split; [exact Hin|].
  intros Hc. apply elem_of_union in Hc as [Hc|Hc].
  - apply elem_of_singleton in Hc. discriminate.
  - apply elem_of_intersection in Hc as [_ Hc]. revert Hc. clear. set_solver.
Qed.

(** C2 as stated fails. Two calls of the routine make every call of the
    cleanup twice. So do two triggers: the presence monitor stops the
    recording and the silence monitor stops it again a minute later, and
    the recorder and both tracks are stopped twice, the duration timer
    is cleared twice and the end is signalled twice. *)
Lemma second_stop_repeats_the_cleanup :
  effects (stop_times 2 Examples.recording_config (started 2))
  = cleanup Examples.recording_config (started 2)
    ++ cleanup Examples.recording_config (started 2)
  /\ count (MeetEnd "3f0c9a52-secret")
       (stop_times 2 Examples.recording_config (started 2)) = 2%nat
  /\ count RecorderStop
    (run Examples.recording_config Examples.presence_then_silence (started 2)) = 2%nat
  /\ count (TrackStop 0)
    (run Examples.recording_config Examples.presence_then_silence (started 2)) = 2%nat
  /\ count (TrackStop 1)
    (run Examples.recording_config Examples.presence_then_silence (started 2)) = 2%nat
  /\ count (ClearTimer timeoutId)
    (run Examples.recording_config Examples.presence_then_silence (started 2)) = 2%nat
  /\ count (MeetEnd "3f0c9a52-secret")
    (run Examples.recording_config Examples.presence_then_silence (started 2)) = 2%nat.
Proof. repeat split; vm_compute; reflexivity. Qed.

End StopFacts.

(* ================================================================= *)
(** ** The capture path and the response trigger *)
(* ================================================================= *)

Section VoiceFacts.
Import Voice.

Lemma totalSamples_nonneg {A} (bufs : list (list A)) : 0 <= totalSamples bufs.
Proof.
  unfold totalSamples.
  assert (H : forall acc, 0 <= acc ->
            0 <= fold_left (fun sum buf => sum + Z.of_nat (length buf)) bufs acc).
  { induction bufs as [|b bufs IH]; intros acc Hacc; cbn; [assumption|].
    apply IH. lia. }
  apply H. lia.
Qed.

(** The outcome of a check, by cases on what it tests. *)
Lemma check_cases (now : Z) (s : state) :
  check now s =
    if isSpeaking s then (s, SkippedSpeaking)
    else if bool_decide (pcmAudioBuffers s = []) then (s, NoData)
    else if (totalSamples (pcmAudioBuffers s) <? minSamples)
            || (now - lastTranscriptionTime s <? 5000)
    then (s, WaitingForMore)
    else if now - lastAudioActivityTime s >? 5000
    then (set_pcmAudioBuffers [] s, Discarded)
    else (set_lastTranscriptionTime now s, Submitted (pcmAudioBuffers s)).
Proof. reflexivity. Qed.

(** What a check does, on any values of the variables. *)
Lemma check_outcome (now : Z) (s : state) :
  ((exists batch, snd (check now s) = Submitted batch)
   <-> isSpeaking s = false
       /\ minSamples <= totalSamples (pcmAudioBuffers s)
       /\ 5000 <= now - lastTranscriptionTime s
       /\ now - lastAudioActivityTime s <= 5000)
  /\ (snd (check now s) = Discarded
      <-> isSpeaking s = false
          /\ minSamples <= totalSamples (pcmAudioBuffers s)
          /\ 5000 <= now - lastTranscriptionTime s
          /\ 5000 < now - lastAudioActivityTime s)
  /\ (forall batch, snd (check now s) = Submitted batch ->
        batch = pcmAudioBuffers s /\ fst (check now s) = set_lastTranscriptionTime now s)
  /\ (snd (check now s) = Discarded -> fst (check now s) = set_pcmAudioBuffers [] s)
  /\ ((forall batch, snd (check now s) <> Submitted batch) ->
      snd (check now s) <> Discarded -> fst (check now s) = s).
Proof.
  pose proof (totalSamples_nonneg (pcmAudioBuffers s)) as Hnn.
  assert (Hempty : pcmAudioBuffers s = [] -> totalSamples (pcmAudioBuffers s) = 0)
    by (intros ->; reflexivity).
  split; [|split; [|split; [|split]]]; try rewrite check_cases;
    unfold minSamples in *.
  - destruct (isSpeaking s); cbn [snd];
      [split; [intros [b [=]]|intros ([=] & _)]|].
    case_bool_decide as He; cbn [snd].
    { split; [intros [b [=]]|]. intros (_ & H & _). rewrite (Hempty He) in H. lia. }
    destruct (totalSamples (pcmAudioBuffers s) <? 32000) eqn:Ht; cbn [orb snd].
    { split; [intros [b [=]]|]. intros (_ & H & _). lia. }
    destruct (now - lastTranscriptionTime s <? 5000) eqn:Hl; cbn [snd].
    { split; [intros [b [=]]|]. intros (_ & _ & H & _). lia. }
    destruct (now - lastAudioActivityTime s >? 5000) eqn:Ha; cbn [snd].
    { split; [intros [b [=]]|]. intros (_ & _ & _ & H). lia. }
    split; [intros _; repeat split; lia|eauto].
  - destruct (isSpeaking s); cbn [snd]; [split; [intros [=]|intros ([=] & _)]|].
    case_bool_decide as He; cbn [snd].
    { split; [intros [=]|]. intros (_ & H & _). rewrite (Hempty He) in H. lia. }
    destruct (totalSamples (pcmAudioBuffers s) <? 32000) eqn:Ht; cbn [orb snd].
    { split; [intros [=]|]. intros (_ & H & _). lia. }
    destruct (now - lastTranscriptionTime s <? 5000) eqn:Hl; cbn [snd].
    { split; [intros [=]|]. intros (_ & _ & H & _). lia. }
    destruct (now - lastAudioActivityTime s >? 5000) eqn:Ha; cbn [snd].
    { split; [intros _; repeat split; lia|reflexivity]. }
    split; [intros [=]|]. intros (_ & _ & _ & H). lia.
  - intros batch.
    destruct (isSpeaking s); [intros [=]|]. case_bool_decide; [intros [=]|].
    destruct (_ || _); [intros [=]|]. destruct (_ >? _); [intros [=]|].
    cbn. intros [= <-]. split; reflexivity.
  - destruct (isSpeaking s); [intros [=]|]. case_bool_decide; [intros [=]|].
    destruct (_ || _); [intros [=]|]. destruct (_ >? _); [|intros [=]].
    reflexivity.
  - intros Hns Hnd.
    destruct (isSpeaking s); [reflexivity|]. case_bool_decide; [reflexivity|].
    destruct (_ || _); [reflexivity|]. destruct (_ >? _); cbn in *.
    + congruence.
    + exfalso. eapply Hns. reflexivity.
Qed.

(** The constants of the activity test are the doubles nearest to
    1/1000 and 1/100. *)
Lemma literals_are_nearest :
  valid_binary prec emax d0_001 = true
  /\ valid_binary prec emax d0_01 = true
  /\ (Qabs (inject_Z 4611686018427388 / inject_Z (2 ^ 62) - (1 # 1000))
      <= 1 / inject_Z (2 ^ 63))%Q
  /\ (Qabs (inject_Z 5764607523034235 / inject_Z (2 ^ 59) - (1 # 100))
      <= 1 / inject_Z (2 ^ 60))%Q.
Proof. repeat split; vm_compute; congruence. Qed.

(** The activity test on frames of the scenarios, and at its
    thresholds, which are strict. *)
Lemma frame_active_examples :
  frame_active (frame 1) = true
  /\ frame_active (frame 6) = true
  /\ frame_active (frame 7) = false
  /\ frame_active silent_frame = false
  /\ frame_active [] = false
  /\ frame_active [S754_nan] = false
  /\ frame_active [d0_001] = false
  /\ frame_active [d0_01] = true
  /\ frame_active (d0_01 :: repeat zero 15) = false.
Proof. repeat split; vm_compute; reflexivity. Qed.

(** Only onaudioprocess writes lastAudioActivityTime, and only a check
    that submits writes lastTranscriptionTime. *)
Lemma check_keeps_activity (now : Z) (s : state) :
  lastAudioActivityTime (fst (check now s)) = lastAudioActivityTime s.
Proof.
  rewrite check_cases.
  destruct (isSpeaking s); [reflexivity|]. case_bool_decide; [reflexivity|].
  destruct (_ || _); [reflexivity|]. destruct (_ >? _); reflexivity.
Qed.

Lemma check_submission_time (now : Z) (s : state) :
  lastTranscriptionTime (fst (check now s))
  = match snd (check now s) with
    | Submitted _ => now
    | _ => lastTranscriptionTime s
    end.
Proof.
  rewrite check_cases.
  destruct (isSpeaking s); [reflexivity|]. case_bool_decide; [reflexivity|].
  destruct (_ || _); [reflexivity|]. destruct (_ >? _); reflexivity.
Qed.

Lemma ready_timers_keep (now : Z) (s : state) :
  lastAudioActivityTime (ready_timers_fire now s) = lastAudioActivityTime s
  /\ lastTranscriptionTime (ready_timers_fire now s) = lastTranscriptionTime s.
Proof.
  unfold ready_timers_fire. destruct (filter _ (readyTimers s)); split; reflexivity.
Qed.

Lemma transcription_done_keeps (r : chunk_result) (s : state) :
  lastAudioActivityTime (fst (transcription_done r s)) = lastAudioActivityTime s
  /\ lastTranscriptionTime (fst (transcription_done r s)) = lastTranscriptionTime s.
Proof.
  unfold transcription_done. destruct r as [success transcript|]; [|split; reflexivity].
  destruct (_ && _); split; reflexivity.
Qed.

Lemma response_returned_keeps (now : Z) (ok : bool) (s : state) :
  lastAudioActivityTime (capture_response_returned now ok s) = lastAudioActivityTime s
  /\ lastTranscriptionTime (capture_response_returned now ok s) = lastTranscriptionTime s.
Proof. destruct ok; split; reflexivity. Qed.

Lemma run_tick (now : Z) (rest : list (Z * capture_event)) (s : state) :
  run ((now, Tick) :: rest) s
  = (fst (run rest (fst (check now s))),
     (now, snd (check now s)) :: snd (run rest (fst (check now s)))).
Proof.
  cbn [run]. destruct (check now s) as [s1 r]. cbn [fst snd].
  destruct (run rest s1) as [s2 rs]. reflexivity.
Qed.

(** lastAudioActivityTime is the delivery time of the last frame that
    passed the activity test, and the value it had before when there
    has been none. *)
Lemma activity_time (evs : list (Z * capture_event)) (s : state) :
  lastAudioActivityTime (fst (run evs s))
  = default (lastAudioActivityTime s) (last_active_frame evs).
Proof.
  revert s. induction evs as [|[now ev] rest IH]; intros s; [reflexivity|].
  cbn [last_active_frame].
  destruct ev as [channelData| |r|ok|].
  - cbn [run]. rewrite IH. destruct (last_active_frame rest); [reflexivity|].
    cbn [default from_option onaudioprocess lastAudioActivityTime].
    destruct (frame_active channelData); reflexivity.
  - rewrite run_tick. cbn [fst]. rewrite IH, check_keeps_activity.
    destruct (last_active_frame rest); reflexivity.
  - cbn [run]. rewrite IH, (proj1 (transcription_done_keeps r s)).
    destruct (last_active_frame rest); reflexivity.
  - cbn [run]. rewrite IH, (proj1 (response_returned_keeps now ok s)).
    destruct (last_active_frame rest); reflexivity.
  - cbn [run]. rewrite IH, (proj1 (ready_timers_keep now s)).
    destruct (last_active_frame rest); reflexivity.
Qed.

(** lastTranscriptionTime is the time of the last check that submitted
    a batch, and the value it had before when there has been none. *)
Lemma submission_time (evs : list (Z * capture_event)) (s : state) :
  lastTranscriptionTime (fst (run evs s))
  = default (lastTranscriptionTime s) (last_submission (snd (run evs s))).
Proof.
  revert s. induction evs as [|[now ev] rest IH]; intros s; [reflexivity|].
  destruct ev as [channelData| |r|ok|].
  - cbn [run]. rewrite IH. reflexivity.
  - rewrite run_tick. cbn [fst snd last_submission]. rewrite IH, check_submission_time.
    destruct (last_submission (snd (run rest (fst (check now s))))); [reflexivity|].
    destruct (snd (check now s)); reflexivity.
  - cbn [run]. rewrite IH, (proj2 (transcription_done_keeps r s)). reflexivity.
  - cbn [run]. rewrite IH, (proj2 (response_returned_keeps now ok s)). reflexivity.
  - cbn [run]. rewrite IH, (proj2 (ready_timers_keep now s)). reflexivity.
Qed.

(** The two checks of the scenario. *)
Lemma scenario_first_check :
  snd (run (scenario Examples.session_start) (init Examples.session_start))
  = [(Examples.session_start + 2000, WaitingForMore);
     (Examples.session_start + 4000,
      Submitted (map frame (seq 1 15)))].
Proof. vm_compute. reflexivity. Qed.

Lemma scenario_batch :
  totalSamples (map frame (seq 1 15)) = 61440.
Proof. vm_compute. reflexivity. Qed.

Lemma scenario_last_activity :
  last_active_frame (scenario Examples.session_start)
  = Some (Examples.session_start + 1536).
Proof. vm_compute. reflexivity. Qed.

(** The two checks of a track that is silent from the start. *)
Lemma silence_checks :
  snd (run (silence_from_the_start Examples.session_start) (init Examples.session_start))
  = [(Examples.session_start + 2000, WaitingForMore);
     (Examples.session_start + 4000, Submitted (repeat silent_frame 15))]
  /\ last_active_frame (silence_from_the_start Examples.session_start) = None.
Proof. split; vm_compute; reflexivity. Qed.

(** C7, as amended. After any run of the closures of the capture path
    from its set-up at [t0], a check submits the batch exactly when no
    response is in progress, the batch holds at least 32000 samples, at
    least 5000 ms have passed since the last check that submitted (since
    time 0 when none has) and at most 5000 ms have passed since the last
    frame that passed the activity test (since the set-up when none
    has). It discards the batch exactly when the first three hold and
    more than 5000 ms have passed since then. In every other case the
    batch is kept as it is. For 1.5 s of speech followed by 3 s of
    silence the first check finds 28672 samples and waits, and the
    second submits the 61440 samples it finds, the last active frame
    being the one delivered at 1536 ms; a track that is silent from the
    start is submitted by the second check as well. *)
Theorem submission_check (t0 now : Z) (evs : list (Z * capture_event)) :
  let s := fst (run evs (init t0)) in
  let lastSubmission := default 0 (last_submission (snd (run evs (init t0)))) in
  let lastActivity := default t0 (last_active_frame evs) in
  ((exists batch, snd (check now s) = Submitted batch)
   <-> isSpeaking s = false
       /\ minSamples <= totalSamples (pcmAudioBuffers s)
       /\ 5000 <= now - lastSubmission
       /\ now - lastActivity <= 5000)
  /\ (snd (check now s) = Discarded
      <-> isSpeaking s = false
          /\ minSamples <= totalSamples (pcmAudioBuffers s)
          /\ 5000 <= now - lastSubmission
          /\ 5000 < now - lastActivity)
  /\ (forall batch, snd (check now s) = Submitted batch ->
        batch = pcmAudioBuffers s /\ fst (check now s) = set_lastTranscriptionTime now s)
  /\ (snd (check now s) = Discarded -> fst (check now s) = set_pcmAudioBuffers [] s)
  /\ ((forall batch, snd (check now s) <> Submitted batch) ->
      snd (check now s) <> Discarded -> fst (check now s) = s)
  /\ (exists batch,
        snd (run (scenario Examples.session_start) (init Examples.session_start))
        = [(Examples.session_start + 2000, WaitingForMore);
           (Examples.session_start + 4000, Submitted batch)]
        /\ totalSamples batch = 61440
        /\ last_active_frame (scenario Examples.session_start)
           = Some (Examples.session_start + 1536))
  /\ (exists batch,
        snd (run (silence_from_the_start Examples.session_start)
               (init Examples.session_start))
        = [(Examples.session_start + 2000, WaitingForMore);
           (Examples.session_start + 4000, Submitted batch)]
        /\ last_active_frame (silence_from_the_start Examples.session_start) = None).
Proof.
  cbn zeta.
  pose proof (activity_time evs (init t0)) as Ha.
  pose proof (submission_time evs (init t0)) as Hs.
  cbn [init lastAudioActivityTime lastTranscriptionTime] in Ha, Hs.
  destruct (check_outcome now (fst (run evs (init t0)))) as (H1 & H2 & H3 & H4 & H5).
  rewrite Ha, Hs in H1, H2.
  split; [exact H1|]. split; [exact H2|]. split; [exact H3|].
  split; [exact H4|]. split; [exact H5|]. split.
  - exists (map frame (seq 1 15)).
    split; [exact scenario_first_check|].
    split; [exact scenario_batch|exact scenario_last_activity].
  - exists (repeat silent_frame 15). exact silence_checks.
Qed.

(** C7 as stated fails: 1.5 s of speech followed by 3 s of silence is
    submitted. The frames of silence count as samples, so the second
    check, 4 s in, finds 61440 of them, and the speech, which ended 2.5 s
    before, is activity of the last 5 s. Besides, a batch that meets the
    three conditions is not submitted while a response is in progress,
    and a batch below the minimum is kept, not discarded, when the last
    activity is more than 5 s old. *)
Lemma speech_then_silence_is_submitted :
  exists batch,
    snd (run (scenario Examples.session_start) (init Examples.session_start))
    = [(Examples.session_start + 2000, WaitingForMore);
       (Examples.session_start + 4000, Submitted batch)]
    /\ totalSamples batch = 61440
    /\ lastAudioActivityTime
         (fst (run (scenario Examples.session_start) (init Examples.session_start)))
       = Examples.session_start + 1536
    /\ totalSamples (pcmAudioBuffers Examples.batch_while_responding) = 32768
    /\ check (Examples.session_start + 2100) Examples.batch_while_responding
       = (Examples.batch_while_responding, SkippedSpeaking)
    /\ check (Examples.session_start + 6000) Examples.small_stale_batch
       = (Examples.small_stale_batch, WaitingForMore).
Proof.
  exists (map frame (seq 1 15)).
  split; [exact scenario_first_check|].
  split; [exact scenario_batch|].
  split; [vm_compute; reflexivity|].
  split; [vm_compute; reflexivity|].
  split; reflexivity.
Qed.

(** The responding flag on the three paths. On the streaming path a
    response is requested for every final transcript whose trimmed
    text is longer than 2, whatever the flag is: that callback runs in
    Node and neither reads nor sets it. On the capture path it is
    requested only for a successful transcription whose trimmed text
    is longer than 2, and the check that submitted the batch found the
    flag clear. On the microphone path it is requested only when the
    flag is clear on delivery. On these two paths the flag is set
    before the request; when the request returns the flag stays set
    and a timer is armed for 10000 ms later. While the flag is set, a
    microphone result and a check do nothing; with no other timer
    pending it stays set until those 10000 ms have passed and is clear
    from then on. *)
Lemma response_trigger :
  (forall t f x s,
     deliver (Streaming t f) s = (s, Some x)
     <-> f = true /\ 2 < Js.strlen (Js.trim t) /\ x = Js.trim t)
  /\ (forall r s s' x,
     deliver (Batch r) s = (s', Some x) ->
     exists t, r = ChunkResult true t /\ x = Js.trim t /\ 2 < Js.strlen x
               /\ s' = set_isSpeaking true s)
  /\ (forall now s s' batch,
     check now s = (s', Submitted batch) -> isSpeaking s = false)
  /\ (forall t s s' x,
     deliver (Microphone t) s = (s', Some x) ->
     isSpeaking s = false /\ x = Js.trim t /\ s' = set_isSpeaking true s)
  /\ (forall now s,
     isSpeaking (response_returned now true s) = isSpeaking s
     /\ readyTimers (response_returned now true s) = readyTimers s ++ [now + 10000])
  /\ (forall now s, isSpeaking (response_returned now false s) = false)
  /\ (forall t s, isSpeaking s = true -> deliver (Microphone t) s = (s, None))
  /\ (forall now s, isSpeaking s = true -> check now s = (s, SkippedSpeaking))
  /\ (forall now frame s,
     isSpeaking (onaudioprocess now frame s) = isSpeaking s)
  /\ (forall t now s,
     isSpeaking s = true -> readyTimers s = [] ->
     (now < t + 10000 ->
      isSpeaking (ready_timers_fire now (response_returned t true s)) = true)
     /\ (t + 10000 <= now ->
         isSpeaking (ready_timers_fire now (response_returned t true s)) = false)).
Proof.
  split; [|split; [|split; [|split; [|split; [|split; [|split; [|split; [|split]]]]]]]].
  - intros t f x s. cbn [deliver]. unfold onLiveTranscript. split.
    + destruct f; cbn [andb]; [|intros [=]].
      destruct (Js.strlen (Js.trim t) >? 2) eqn:Hl; intros [= <-].
      repeat split. lia.
    + intros (-> & Hl & ->). cbn [andb].
      replace (Js.strlen (Js.trim t) >? 2) with true by (symmetry; lia). reflexivity.
  - intros r s s' x. cbn [deliver]. unfold transcription_done.
    destruct r as [success t|]; [|intros [=]].
    destruct success; cbn [andb]; [|intros [=]].
    destruct (negb (String.eqb t EmptyString)); cbn [andb]; [|intros [=]].
    destruct (Js.strlen (Js.trim t) >? 2) eqn:Hl; intros [= <- <-].
    exists t. repeat split. lia.
  - intros now s s' batch. rewrite check_cases.
    destruct (isSpeaking s); [intros [=]|reflexivity].
  - intros t s s' x. cbn [deliver]. unfold mic_onresult.
    destruct (isSpeaking s); [intros [=]|].
    destruct (Js.strlen (Js.trim t) <? 2); intros [= <- <-]. repeat split.
  - intros now s. split; reflexivity.
  - reflexivity.
  - intros t s Hs. cbn [deliver]. unfold mic_onresult. now rewrite Hs.
  - intros now s Hs. rewrite check_cases. now rewrite Hs.
  - reflexivity.
  - intros t now s Hs Ht. unfold ready_timers_fire, response_returned.
    cbn [readyTimers set_readyTimers]. rewrite Ht. cbn [app].
    split; intros Hnow.
    + rewrite filter_cons_False by lia. cbn. exact Hs.
    + rewrite filter_cons_True by lia. reflexivity.
Qed.


End VoiceFacts.

(* ================================================================= *)
(** ** The callbacks exposed to the page *)
(* ================================================================= *)

Section HostFacts.
Import Host.

Variable Buffer_from_base64 : string -> string.

(** C10. A call of either callback whose first argument is not the
    session's slightlySecretId changes nothing: no buffer reaches the
    uploader, the waiting promise is not resolved, nothing is logged and
    the call does not fail. *)
Theorem foreign_id_has_no_effect (slightlySecretId id data : string)
    (save_ok : bool) (s : state) :
  id <> slightlySecretId ->
  screenAppSendData Buffer_from_base64 slightlySecretId save_ok id data s = Some s
  /\ screenAppMeetEnd slightlySecretId id s = s.
Proof.
  intros Hne. apply String.eqb_neq in Hne.
  unfold screenAppSendData, screenAppMeetEnd. rewrite Hne. split; reflexivity.
Qed.

(** With the session's own identifier both callbacks act. *)
Lemma own_id_has_effect (slightlySecretId data : string) (s : state) :
  screenAppSendData Buffer_from_base64 slightlySecretId true slightlySecretId data s
  = Some (mkState (saved s ++ [Buffer_from_base64 data]) (waitingPromise s)
                  (log_info s) (console_error s))
  /\ (forall resolved, waitingPromise s = Some resolved ->
      waitingPromise (screenAppMeetEnd slightlySecretId slightlySecretId s) = Some true).
Proof.
  unfold screenAppSendData, screenAppMeetEnd. rewrite String.eqb_refl. cbn.
  split; [reflexivity|]. intros resolved ->. reflexivity.
Qed.

End HostFacts.

Lemma foreign_id_witness :
  "not-the-id" <> "3f0c9a52-secret"
  /\ Host.screenAppSendData (fun data => data) "3f0c9a52-secret" true "not-the-id" "AAAA"
       (Host.mkState [] (Some false) [] [])
     = Some (Host.mkState [] (Some false) [] [])
  /\ Host.screenAppMeetEnd "3f0c9a52-secret" "not-the-id"
       (Host.mkState [] (Some false) [] [])
     = Host.mkState [] (Some false) [] [].
Proof.
  assert (H : "not-the-id" <> "3f0c9a52-secret") by discriminate.
  split; [exact H|].
  exact (foreign_id_has_no_effect (fun data => data) "3f0c9a52-secret" "not-the-id"
           "AAAA" true (Host.mkState [] (Some false) [] []) H).
Defined.
Section SttFacts.
Import Stt.

Lemma send_keeps_registry (connectionId : string) (audioBuffer : buffer) (s : service) :
  liveConnections (sendToLiveConnection connectionId audioBuffer s) = liveConnections s.
Proof.
  unfold sendToLiveConnection.
  destruct (liveConnections s !! connectionId) as [connection|]; [|reflexivity].
  destruct (getReadyState (answers connection)) as [readyState|err]; [|reflexivity].
  destruct (readyState =? 1); [|reflexivity].
  destruct (send (answers connection)); reflexivity.
Qed.

Lemma send_calls (connectionId : string) (audioBuffer : buffer) (s : service) :
  calls (sendToLiveConnection connectionId audioBuffer s) = calls s
  \/ exists connection,
       liveConnections s !! connectionId = Some connection
       /\ getReadyState (answers connection) = Ok 1
       /\ calls (sendToLiveConnection connectionId audioBuffer s)
          = calls s ++ [Send (ident connection) audioBuffer].
Proof.
  unfold sendToLiveConnection.
  destruct (liveConnections s !! connectionId) as [connection|] eqn:Hc; [|left; reflexivity].
  destruct (getReadyState (answers connection)) as [readyState|err] eqn:Hr;
    [|left; reflexivity].
  destruct (readyState =? 1) eqn:Ho; [|left; reflexivity].
  apply Z.eqb_eq in Ho as ->. right. exists connection.
  destruct (send (answers connection)); auto.
Qed.

(** X1. sendToLiveConnection never changes the registry, and it never
    drops a buffer silently: either the buffer is handed to the
    connection registered under the id, which reports ready state 1,
    or nothing is called and one warning or error line is written. *)
Theorem send_reaches_only_an_open_connection (connectionId : string)
    (audioBuffer : buffer) (s : service) :
  let s' := sendToLiveConnection connectionId audioBuffer s in
  liveConnections s' = liveConnections s
  /\ ((exists connection,
         liveConnections s !! connectionId = Some connection
         /\ getReadyState (answers connection) = Ok 1
         /\ calls s' = calls s ++ [Send (ident connection) audioBuffer])
      \/ (calls s' = calls s
          /\ (forall connection,
                liveConnections s !! connectionId = Some connection ->
                getReadyState (answers connection) <> Ok 1)
          /\ exists l msg, l <> Info /\ logger s' = logger s ++ [(l, msg)])).
Proof.
  unfold sendToLiveConnection.
  destruct (liveConnections s !! connectionId) as [connection|] eqn:Hc; cbn.
  - destruct (getReadyState (answers connection)) as [readyState|err] eqn:Hr; cbn.
    + destruct (readyState =? 1) eqn:Ho.
      * apply Z.eqb_eq in Ho as ->.
        split; [destruct (send (answers connection)); reflexivity|].
        left. exists connection. repeat split; try assumption.
        destruct (send (answers connection)); reflexivity.
      * apply Z.eqb_neq in Ho. split; [reflexivity|]. right.
        split; [reflexivity|]. split.
        -- intros c' [= <-]. congruence.
        -- exists Warn, "Live connection not open"%string. split; [discriminate|reflexivity].
    + split; [reflexivity|]. right. split; [reflexivity|]. split.
      * intros c' [= <-]. congruence.
      * exists Err, "Error sending to live connection"%string.
        split; [discriminate|reflexivity].
  - split; [reflexivity|]. right. split; [reflexivity|]. split.
    + intros c' [=].
    + exists Warn, "Live connection not found"%string. split; [discriminate|reflexivity].
Qed.

Lemma send_unregistered (connectionId : string) (audioBuffer : buffer) (s : service) :
  liveConnections s !! connectionId = None ->
  sendToLiveConnection connectionId audioBuffer s = write Warn "Live connection not found" s.
Proof. intros H. unfold sendToLiveConnection. now rewrite H. Qed.

(** X2. closeLiveConnection does nothing at all for an id that is not
    registered. For a registered id it calls finish() once; when that
    returns, the id alone is removed, a second close changes nothing
    and a later send is not delivered; when finish() throws, the
    connection stays registered. *)
Theorem close_unregisters_when_finish_returns (connectionId : string) (s : service) :
  let s' := closeLiveConnection connectionId s in
  match liveConnections s !! connectionId with
  | None => s' = s
  | Some connection =>
      calls s' = calls s ++ [Finish (ident connection)]
      /\ match finish (answers connection) with
         | Ok _ =>
             liveConnections s' = delete connectionId (liveConnections s)
             /\ closeLiveConnection connectionId s' = s'
             /\ forall audioBuffer,
                  calls (sendToLiveConnection connectionId audioBuffer s') = calls s'
         | Throw _ => liveConnections s' = liveConnections s
         end
  end.
Proof.
  unfold closeLiveConnection.
  destruct (liveConnections s !! connectionId) as [connection|] eqn:Hc; [|reflexivity].
  destruct (finish (answers connection)) as [[]|err]; cbn; (split; [reflexivity|]);
    [|reflexivity].
  split; [reflexivity|]. split.
  - rewrite lookup_delete_eq. reflexivity.
  - intros audioBuffer. unfold sendToLiveConnection. cbn.
    rewrite lookup_delete_eq. reflexivity.
Qed.

(** X3. A connection made under an id is the one a send under that id
    reaches, whatever was registered under the id before; the one it
    replaces is not finished. After a close whose finish() returns,
    sends under the id are no longer delivered. When the client fails
    to make the connection, the error is thrown again and the registry
    is left as it was. *)
Theorem create_send_close (b : behaviour) (connectionId : string)
    (first second : buffer) (s : service) :
  getReadyState b = Ok 1 -> finish b = Ok tt ->
  let s1 := snd (createLiveConnection (Ok b) connectionId s) in
  let s2 := sendToLiveConnection connectionId first s1 in
  let s3 := closeLiveConnection connectionId s2 in
  let s4 := sendToLiveConnection connectionId second s3 in
  fst (createLiveConnection (Ok b) connectionId s) = Ok (mkConnection (created s) b)
  /\ calls s1 = calls s
  /\ calls s4 = calls s ++ [Send (created s) first; Finish (created s)]
  /\ liveConnections s4 = delete connectionId (liveConnections s)
  /\ forall e, fst (createLiveConnection (Throw e) connectionId s) = Throw e
               /\ liveConnections (snd (createLiveConnection (Throw e) connectionId s))
                  = liveConnections s.
Proof.
  intros Hr Hf. cbn zeta.
  split; [reflexivity|]. split; [reflexivity|].
  unfold createLiveConnection, sendToLiveConnection, closeLiveConnection; cbn.
  rewrite lookup_insert_eq. cbn. rewrite Hr. cbn.
  destruct (send b) as [[]|err]; cbn; rewrite lookup_insert_eq; cbn; rewrite Hf; cbn;
    rewrite lookup_delete_eq; cbn; rewrite delete_insert_eq, <- app_assoc;
    (split; [reflexivity|]); (split; [reflexivity|]); intros e; split; reflexivity.
Qed.

Lemma create_send_close_witness :
  let b := mkBehaviour (Ok 1) (Ok tt) (Ok tt) in
  getReadyState b = Ok 1 /\ finish b = Ok tt
  /\ calls (sendToLiveConnection "voice-1" [4]
              (closeLiveConnection "voice-1"
                 (sendToLiveConnection "voice-1" [1; 2; 3]
                    (snd (createLiveConnection (Ok b) "voice-1" Stt.empty)))))
     = [Send 0 [1; 2; 3]; Finish 0].
Proof.
  intros b.
  assert (Hr : getReadyState b = Ok 1) by reflexivity.
  assert (Hf : finish b = Ok tt) by reflexivity.
  split; [exact Hr|]. split; [exact Hf|].
  exact (proj1 (proj2 (proj2 (create_send_close b "voice-1" [1; 2; 3] [4] Stt.empty Hr Hf)))).
Defined.

(** X4. The 'close' handler removes by id, not by connection: when a
    second connection has been made under the same id, the close
    event of the first one unregisters the second, which was neither
    closed nor finished, and sends under the id are then dropped with
    the warning that the connection was not found. *)
Theorem close_event_of_replaced_connection (b1 b2 : behaviour) (connectionId : string)
    (audioBuffer : buffer) (s : service) :
  let s1 := snd (createLiveConnection (Ok b1) connectionId s) in
  let s2 := snd (createLiveConnection (Ok b2) connectionId s1) in
  let s3 := on_close (created s) s2 in
  liveConnections s2 !! connectionId = Some (mkConnection (S (created s)) b2)
  /\ liveConnections s3 !! connectionId = None
  /\ calls s3 = calls s
  /\ sendToLiveConnection connectionId audioBuffer s3
     = write Warn "Live connection not found" s3.
Proof.
  cbn zeta. unfold createLiveConnection, on_close; cbn.
  assert (Hh : (<[S (created s):=connectionId]> (<[created s:=connectionId]> (handlers s)))
               !! created s = Some connectionId).
  { rewrite lookup_insert_ne by lia. apply lookup_insert_eq. }
  rewrite Hh. cbn.
  split; [apply lookup_insert_eq|]. split; [apply lookup_delete_eq|].
  split; [reflexivity|].
  apply send_unregistered. cbn. apply lookup_delete_eq.
Qed.

(** X5. A 'results' event of a connection the service made reaches the
    callback exactly when its transcript is present and not blank, with
    a missing is_final read as false; the bot's callback then asks for
    a response exactly when is_final is true and the trimmed transcript
    is longer than 2, and it asks with the trimmed text. An exception of
    the callback is caught. *)
Theorem results_event_triggers_on_final_text (onTranscript : string -> bool -> result unit)
    (c : nat) (connectionId : string) (data : results_data) (s : service) :
  handlers s !! c = Some connectionId ->
  let s' := on_results onTranscript c data s in
  calls s'
  = calls s ++
    match data_transcript data with
    | Some transcript =>
        if Js.strlen (Js.trim transcript) >? 0
        then [OnTranscript c transcript (default false (data_is_final data))]
        else []
    | None => []
    end
  /\ omap triggered (drop (length (calls s)) (calls s'))
     = match data_transcript data, data_is_final data with
       | Some transcript, Some true =>
           if Js.strlen (Js.trim transcript) >? 2 then [Js.trim transcript] else []
       | _, _ => []
       end
  /\ liveConnections s' = liveConnections s.
Proof.
  intros Hh. cbn zeta. unfold on_results. rewrite Hh.
  assert (Hblank : forall t, (Js.strlen t =? 0) = true -> (Js.strlen (Js.trim t) >? 0) = false).
  { intros [|a t]; [reflexivity|discriminate]. }
  destruct (data_transcript data) as [transcript|]; cbn [default from_option id].
  - destruct (Js.strlen transcript =? 0) eqn:Hz; cbn [negb andb].
    + rewrite (Hblank _ Hz), app_nil_r, drop_all. repeat split.
      destruct (data_is_final data) as [[|]|]; try reflexivity.
      pose proof (Hblank _ Hz) as H0.
      destruct (Js.strlen (Js.trim transcript) >? 2) eqn:H2; [|reflexivity]. lia.
    + destruct (Js.strlen (Js.trim transcript) >? 0) eqn:Hpos.
      * assert (Hc : calls (match onTranscript transcript (default false (data_is_final data)) with
                            | Ok _ => called (OnTranscript c transcript (default false (data_is_final data)))
                                        (write Info "Deepgram real-time transcript" s)
                            | Throw _ => write Err "Error processing Deepgram result"
                                           (called (OnTranscript c transcript (default false (data_is_final data)))
                                              (write Info "Deepgram real-time transcript" s))
                            end)
                      = calls s ++ [OnTranscript c transcript (default false (data_is_final data))]).
        { destruct (onTranscript _ _); reflexivity. }
        rewrite Hc, drop_app_length. split; [reflexivity|]. split.
        -- cbn. unfold Voice.onLiveTranscript.
           destruct (data_is_final data) as [[|]|]; cbn; try reflexivity.
           destruct (Js.strlen (Js.trim transcript) >? 2); reflexivity.
        -- destruct (onTranscript _ _); reflexivity.
      * rewrite app_nil_r, drop_all. repeat split.
        destruct (data_is_final data) as [[|]|]; try reflexivity.
        destruct (Js.strlen (Js.trim transcript) >? 2) eqn:H2; [|reflexivity]. lia.
  - rewrite app_nil_r, drop_all. repeat split.
Qed.

Lemma results_event_witness :
  let s := snd (createLiveConnection (Ok (mkBehaviour (Ok 1) (Ok tt) (Ok tt))) "voice-1"
                  Stt.empty) in
  handlers s !! 0%nat = Some "voice-1"%string
  /\ omap triggered
       (calls (on_results (fun _ _ => Ok tt) 0 (mkData (Some " hello there ") (Some true)) s))
     = ["hello there"%string].
Proof.
  intros s.
  assert (Hh : handlers s !! 0%nat = Some "voice-1"%string) by reflexivity.
  split; [exact Hh|].
  exact (proj1 (proj2 (results_event_triggers_on_final_text (fun _ _ => Ok tt) 0 "voice-1"
                         (mkData (Some " hello there ") (Some true)) s Hh))).
Defined.

(** *** transcribe *)

Lemma isWav_RIFF (audioBuffer : buffer) :
  isWav audioBuffer = true <-> exists rest, audioBuffer = 82 :: 73 :: 70 :: 70 :: rest.
Proof.
  unfold isWav. split.
  - intros H. repeat (apply andb_prop in H as [H ?]).
    repeat match goal with H : bool_decide _ = true |- _ => apply bool_decide_eq_true in H end.
    destruct audioBuffer as [|b0 [|b1 [|b2 [|b3 rest]]]]; try discriminate.
    cbn in *. exists rest. congruence.
  - intros [rest ->]. cbn [length]. rewrite !bool_decide_eq_true_2 by reflexivity.
    rewrite !andb_true_r. apply Z.geb_le. lia.
Qed.

(** What a non-falsy response is turned into: the empty string, or the
    transcript of its first result when that is not blank. *)
Lemma read_response_cases (r : response) (w : world) :
  exists t, fst (read_response r w) = Ok t
  /\ actions (snd (read_response r w)) = actions w
  /\ (t = EmptyString
      \/ (Js.strlen (Js.trim t) > 0
          /\ resp_error r = None
          /\ exists res first,
               resp_result r = Some (Some res)
               /\ firstResult res = Some first
               /\ fr_transcript first = Some t)).
Proof.
  unfold read_response.
  destruct (resp_error r) as [errorMsg|].
  { destruct (_ || _); run_m; eauto. }
  destruct (resp_result r) as [[res|]|]; [|run_m; eauto..].
  destruct (firstResult res) as [first|] eqn:Hf; [|run_m; eauto].
  destruct (fr_transcript first) as [t|] eqn:Ht; cbn [default from_option id];
    [|run_m; eauto].
  destruct (Js.strlen t =? 0) eqn:Hz; cbn [orb]; [run_m; eauto|].
  destruct (Js.strlen (Js.trim t) =? 0) eqn:Hb; [run_m; eauto|].
  run_m. exists t. split; [reflexivity|]. split; [reflexivity|]. right.
  apply Z.eqb_neq in Hb. unfold Js.strlen in *.
  split; [lia|]. split; [reflexivity|]. eauto.
Qed.

Ltac transcribe_cases transcribeFile audioBuffer :=
  unfold transcribe, requests;
  destruct (isWav audioBuffer) eqn:Hwav;
  repeat (run_m;
          match goal with
          | |- context [match transcribeFile ?m with _ => _ end] =>
              let H := fresh "Hreq" in
              destruct (transcribeFile m) as [[?|]|?] eqn:H
          end);
  run_m.

Ltac read_the_response :=
  try match goal with
      | |- context [read_response ?r ?W] =>
          let t := fresh "t" in
          let Ht := fresh "Ht" in
          let Hact := fresh "Hact" in
          let Hc := fresh "Hc" in
          destruct (read_response_cases r W) as (t & Ht & Hact & Hc);
          destruct (read_response r W) as [[?|?] ?]; cbn in Ht, Hact |- *;
          [injection Ht as ->|discriminate Ht]
      end.

(** X6. transcribe throws exactly when its last request, the one
    without a mimetype, is made and throws, and it throws that
    request's error: the earlier requests only fall through. The last
    request is made exactly when no earlier one brought a response. *)
Theorem transcribe_throws_iff (transcribeFile : mimetype -> result (option response))
    (audioBuffer : buffer) (w : world) (e : error) :
  fst (transcribe transcribeFile audioBuffer w) = Throw e
  <-> transcribeFile AutoDetect = Throw e
      /\ (isWav audioBuffer = true -> no_response (transcribeFile AudioWav) = true)
      /\ no_response (transcribeFile AudioWebmOpus) = true
      /\ ((exists e', transcribeFile AudioWebmOpus = Throw e') ->
          no_response (transcribeFile AudioWebm) = true).
Proof.
  transcribe_cases transcribeFile audioBuffer; read_the_response; cbn [no_response];
    (split;
     [ intros H; try discriminate H; try (injection H as ->);
       repeat split; try reflexivity; try (intros; discriminate);
       try (intros [? ?]; discriminate)
     | intros (H1 & H2 & H3 & H4); try discriminate; try (injection H1 as ->);
       try reflexivity;
       try (specialize (H2 eq_refl); discriminate);
       try (assert (Hx : false = true) by (apply H4; eauto); discriminate) ]).
Qed.

Lemma transcribe_outcome
    (transcribeFile : mimetype -> result (option response))
    (audioBuffer : buffer) (w : world) :
  match fst (transcribe transcribeFile audioBuffer w) with
  | Ok t =>
      t = EmptyString
      \/ (Js.strlen (Js.trim t) > 0
          /\ exists m r res first,
               transcribeFile m = Ok (Some r)
               /\ resp_error r = None
               /\ resp_result r = Some (Some res)
               /\ firstResult res = Some first
               /\ fr_transcript first = Some t)
  | Throw e => transcribeFile AutoDetect = Throw e
  end.
Proof.
  transcribe_cases transcribeFile audioBuffer; read_the_response;
    try reflexivity; try (left; reflexivity);
    (destruct Hc as [->|(Hlen & Herr & res & first & Hres & Hfirst & Htr)];
     [left; reflexivity|right; split; [exact Hlen|eauto 10]]).
Qed.

(** X7. What transcribe returns is the empty string or a transcript
    that is not blank: the transcript of the first result of a response
    that carries no error. A response with an error, without a result,
    with no results or with a blank transcript reads as the empty
    string instead of an exception. *)
Theorem transcribe_returns_text_or_nothing
    (transcribeFile : mimetype -> result (option response))
    (audioBuffer : buffer) (w : world) :
  match fst (transcribe transcribeFile audioBuffer w) with
  | Ok t =>
      (t = EmptyString \/ Js.strlen (Js.trim t) > 0)
      /\ (t <> EmptyString ->
          exists m r res first,
            transcribeFile m = Ok (Some r)
            /\ resp_error r = None
            /\ resp_result r = Some (Some res)
            /\ firstResult res = Some first
            /\ fr_transcript first = Some t)
  | Throw e => transcribeFile AutoDetect = Throw e
  end.
Proof.
  pose proof (transcribe_outcome transcribeFile audioBuffer w) as H.
  destruct (fst (transcribe transcribeFile audioBuffer w)) as [t|e]; [|exact H].
  destruct H as [->|(Hlen & Hsrc)].
  - split; [left; reflexivity|]. intros Hne. contradiction.
  - split; [right; exact Hlen|]. intros _. exact Hsrc.
Qed.

Ltac sublist_steps :=
  repeat first [apply sublist_nil | apply sublist_skip | apply sublist_cons].

Ltac absurd_elem H :=
  exfalso; repeat (apply elem_of_cons in H as [H|H]; [discriminate H|]);
  apply elem_of_nil in H; exact H.

Ltac requests_are tried :=
  exists tried;
  split; [reflexivity|];
  split; [sublist_steps|];
  split; [discriminate|];
  split; [split; intros H; first [reflexivity|discriminate H|absurd_elem H|set_solver]|];
  split; [intros H; first [absurd_elem H|eauto]|];
  intros [|[|[|[|i]]]] m Hm Hi; cbn in Hm, Hi; try lia;
  injection Hm as <-;
  repeat match goal with
         | Hreq : ?f ?m = _ |- context [no_response (?f ?m)] => rewrite Hreq
         end;
  reflexivity.

(** X8. transcribe makes between one and four requests, in the order
    WAV, WebM with opus, basic WebM, no mimetype. The WAV request is
    made exactly for a buffer that starts with RIFF, the basic WebM
    request only after the opus request threw, and no request follows
    one that brought a response. *)
Theorem transcribe_requests (transcribeFile : mimetype -> result (option response))
    (audioBuffer : buffer) (w : world) :
  exists tried,
    requests w (snd (transcribe transcribeFile audioBuffer w)) = map request tried
    /\ tried `sublist_of` [AudioWav; AudioWebmOpus; AudioWebm; AutoDetect]
    /\ tried <> []
    /\ (AudioWav ∈ tried <-> isWav audioBuffer = true)
    /\ (AudioWebm ∈ tried -> exists e, transcribeFile AudioWebmOpus = Throw e)
    /\ forall i m, tried !! i = Some m -> (S i < length tried)%nat ->
                   no_response (transcribeFile m) = true.
Proof.
  transcribe_cases transcribeFile audioBuffer; read_the_response;
    rewrite ?Hact; cbn [actions]; rewrite <- ?app_assoc, drop_app_length; cbn [app].
  all: first
    [ requests_are [AudioWav]
    | requests_are [AudioWav; AudioWebmOpus]
    | requests_are [AudioWav; AudioWebmOpus; AudioWebm]
    | requests_are [AudioWav; AudioWebmOpus; AutoDetect]
    | requests_are [AudioWav; AudioWebmOpus; AudioWebm; AutoDetect]
    | requests_are [AudioWebmOpus]
    | requests_are [AudioWebmOpus; AudioWebm]
    | requests_are [AudioWebmOpus; AutoDetect]
    | requests_are [AudioWebmOpus; AudioWebm; AutoDetect] ].
Qed.

End SttFacts.
Section TrimFacts.

Lemma trimEnd_cons (c : ascii) (s : string) :
  Js.trimEnd (String c s)
  = match Js.trimEnd s with
    | EmptyString => if Js.is_space c then EmptyString else String c EmptyString
    | t => String c t
    end.
Proof. reflexivity. Qed.

Lemma trimEnd_idem (s : string) : Js.trimEnd (Js.trimEnd s) = Js.trimEnd s.
Proof.
  induction s as [|c s IH]; [reflexivity|].
  rewrite trimEnd_cons. destruct (Js.trimEnd s) as [|d t] eqn:Ht.
  - destruct (Js.is_space c) eqn:Hc; [reflexivity|].
    rewrite trimEnd_cons. cbn. now rewrite Hc.
  - rewrite trimEnd_cons, IH. reflexivity.
Qed.

Lemma trimEnd_head (c : ascii) (s : string) :
  Js.is_space c = false -> exists t, Js.trimEnd (String c s) = String c t.
Proof.
  intros Hc. rewrite trimEnd_cons. destruct (Js.trimEnd s); rewrite ?Hc; eauto.
Qed.

Lemma trimStart_cases (s : string) :
  Js.trimStart s = EmptyString
  \/ exists c t, Js.trimStart s = String c t /\ Js.is_space c = false.
Proof.
  induction s as [|c s IH]; [left; reflexivity|].
  cbn [Js.trimStart]. destruct (Js.is_space c) eqn:Hc; [exact IH|]. right; eauto.
Qed.

(** [trim] leaves nothing to trim. *)
Lemma trim_idem (s : string) : Js.trim (Js.trim s) = Js.trim s.
Proof.
  unfold Js.trim.
  destruct (trimStart_cases s) as [->|(c & t & -> & Hc)]; [reflexivity|].
  destruct (trimEnd_head c t Hc) as [t' Ht]. rewrite Ht.
  cbn [Js.trimStart]. rewrite Hc, <- Ht. apply trimEnd_idem.
Qed.

End TrimFacts.

Section OpenAIFacts.
Import OpenAI.

Lemma or_else_nonempty (x y : string) :
  y <> EmptyString -> or_else x y <> EmptyString.
Proof. destruct x; [auto|discriminate]. Qed.

Lemma or_else_trimmed (c : option string) :
  Js.trim (or_else (trimmed c) fallback) = or_else (trimmed c) fallback.
Proof.
  destruct c as [s|]; [|reflexivity]. cbn [trimmed].
  destruct (Js.trim s) eqn:Ht; [reflexivity|]. cbn [or_else].
  rewrite <- Ht. apply trim_idem.
Qed.

(** X9. generateResponse never throws and never answers with the empty
    string or with text that has white space around it: the reply is
    the trimmed content of the completion when that is not empty, and
    the canned sentence when the call fails, the completion has no
    content or the content is blank. One request is made, with the
    system prompt of the service and the user's message as they are. *)
Theorem generateResponse_always_replies (create : client) (svc : service)
    (userMessage : string) (w : world) :
  let r := generateResponse create svc userMessage w in
  exists reply,
    fst r = Ok reply
    /\ reply <> EmptyString
    /\ Js.trim reply = reply
    /\ reply
       = match create [mkMessage "system" (systemPrompt svc);
                       mkMessage "user" userMessage] with
         | Ok (Some c) => if Js.strlen (Js.trim c) =? 0 then fallback else Js.trim c
         | _ => fallback
         end
    /\ actions (snd r)
       = actions w ++ ["system: " ++ systemPrompt svc; "user: " ++ userMessage]%string.
Proof.
  cbn zeta. unfold generateResponse.
  destruct (create _) as [completion|err] eqn:Hc; run_m.
  - exists (or_else (trimmed completion) fallback).
    split; [reflexivity|]. split; [apply or_else_nonempty; discriminate|].
    split; [apply or_else_trimmed|]. split.
    + destruct completion as [c|]; [|reflexivity]. cbn [trimmed].
      destruct (Js.trim c); reflexivity.
    + now rewrite <- app_assoc.
  - exists fallback. split; [reflexivity|]. split; [discriminate|].
    split; [reflexivity|]. split; [reflexivity|]. now rewrite <- app_assoc.
Qed.

End OpenAIFacts.

Section TtsFacts.
Import Tts.

Lemma read_all_spec (vs : list (option Stt.buffer)) (ending : result unit)
    (chunks : list Stt.buffer) (w : world) :
  read_all vs ending chunks w
  = (match ending with
     | Ok _ => Ok (chunks ++ omap id vs)
     | Throw e => Throw e
     end, w).
Proof.
  revert chunks. induction vs as [|[v|] vs IH]; intros chunks; cbn [read_all omap].
  - destruct ending as [[]|e]; run_m; rewrite ?app_nil_r; reflexivity.
  - rewrite IH. unfold Js.push. cbn. destruct ending; [|reflexivity].
    now rewrite <- app_assoc.
  - rewrite IH. reflexivity.
Qed.

(** X10. textToSpeech returns the bytes of all the chunks read, in
    order, exactly when the request and the stream are there and the
    stream ends; a read without a value adds nothing. Once a reader is
    taken its lock is released exactly once, also when a read rejects.
    Every failure is logged and thrown again as it was. *)
Theorem textToSpeech_outcome (request : result (option response)) (text : string)
    (w : world) :
  let r := textToSpeech request text w in
  match request with
  | Ok (Some response) =>
      match getStream response with
      | Ok (Some audioStream) =>
          actions (snd r) = actions w ++ ["getReader"; "releaseLock"]
          /\ match ending audioStream with
             | Ok _ => fst r = Ok (concat (omap id (values audioStream)))
             | Throw e => fst r = Throw e
             end
      | Ok None =>
          fst r = Throw (OtherError "Deepgram TTS response has no stream")
          /\ actions (snd r) = actions w
      | Throw e => fst r = Throw e /\ actions (snd r) = actions w
      end
  | Ok None =>
      fst r = Throw (OtherError "Deepgram TTS returned no response")
      /\ actions (snd r) = actions w
  | Throw e => fst r = Throw e /\ actions (snd r) = actions w
  end
  /\ (forall e, fst r = Throw e -> logged Err "Error generating TTS" (snd r)).
Proof.
  cbn zeta. split.
  - unfold textToSpeech.
    destruct request as [[[gs]|]|e]; [|run_m; auto..].
    cbn [getStream]. destruct gs as [[[vs ending]|]|e]; [|run_m; auto..].
    cbn [values Tts.ending]. unfold try_finally. run_m. rewrite read_all_spec.
    destruct ending as [[]|e]; cbn; rewrite <- app_assoc; cbn; split; reflexivity.
  - intros e. unfold textToSpeech, try_catch, logged.
    match goal with |- context [bind ?m ?k w] => destruct (bind m k w) as [[a|e'] w1] end.
    + discriminate.
    + intros _. cbn. set_solver.
Qed.

End TtsFacts.
Section BotFacts.
Import Bot.

Lemma generateResponse_value (create : OpenAI.client) (svc : OpenAI.service)
    (userMessage : string) (w : world) :
  exists reply w1,
    OpenAI.generateResponse create svc userMessage w = (Ok reply, w1)
    /\ reply <> EmptyString /\ Js.trim reply = reply
    /\ actions w1 = actions w ++ ["system: " ++ OpenAI.systemPrompt svc;
                                  "user: " ++ userMessage]%string
    /\ _state w1 = _state w /\ reported w1 = reported w.
Proof.
  unfold OpenAI.generateResponse.
  destruct (create _) as [completion|err] eqn:Hc; run_m.
  - exists (OpenAI.or_else (OpenAI.trimmed completion) OpenAI.fallback). eexists.
    split; [reflexivity|]. cbn. split; [apply or_else_nonempty; discriminate|].
    split; [apply or_else_trimmed|]. now rewrite <- app_assoc.
  - exists OpenAI.fallback. eexists. split; [reflexivity|]. cbn.
    split; [discriminate|]. split; [reflexivity|]. now rewrite <- app_assoc.
Qed.

(** X11. A call of __triggerBotResponse speaks one reply: it ends as a
    single call of speakInMeeting does, on a text that is not empty and
    has no white space around it, after at most the one request to
    OpenAI; without the OpenAI service the text is the canned sentence
    and no request is made. Only if that call of speakInMeeting throws
    is the canned sentence spoken after it. *)
Theorem trigger_speaks_one_reply (openAI : option OpenAI.service)
    (create : OpenAI.client) (speakInMeeting : string -> M unit)
    (userMessage : string) (w : world) :
  exists reply w1,
    reply <> EmptyString
    /\ Js.trim reply = reply
    /\ _state w1 = _state w /\ reported w1 = reported w
    /\ actions w1
       = actions w ++ match openAI with
                      | Some svc => ["system: " ++ OpenAI.systemPrompt svc;
                                     "user: " ++ userMessage]%string
                      | None => []
                      end
    /\ (openAI = None -> reply = OpenAI.fallback)
    /\ triggerBotResponse openAI create speakInMeeting userMessage w
       = match speakInMeeting reply w1 with
         | (Ok u, w2) => (Ok u, w2)
         | (Throw _, w2) =>
             speakInMeeting OpenAI.fallback (snd (log Err "Error generating AI response" w2))
         end.
Proof.
  unfold triggerBotResponse. destruct openAI as [svc|].
  - destruct (generateResponse_value create svc userMessage
                (snd (log Info "Voice input detected, generating AI response" w)))
      as (reply & w1 & Hg & Hne & Htrim & Hact & Hst & Hrep).
    exists reply, (snd (log Info "Generated AI response" w1)).
    split; [exact Hne|]. split; [exact Htrim|].
    split; [exact Hst|]. split; [exact Hrep|]. split; [exact Hact|].
    split; [discriminate|].
    rewrite bind_log. unfold try_catch, bind at 1. unfold bind at 1. rewrite Hg.
    rewrite bind_log. unfold ret.
    destruct (speakInMeeting reply _) as [[[]|err] w2]; reflexivity.
  - exists OpenAI.fallback,
      (snd (log Warn "OpenAI not available, using fallback response"
              (snd (log Info "Voice input detected, generating AI response" w)))).
    split; [discriminate|]. split; [reflexivity|].
    split; [reflexivity|]. split; [reflexivity|].
    split; [cbn; now rewrite app_nil_r|]. split; [reflexivity|].
    rewrite bind_log. unfold try_catch, bind at 1. rewrite bind_log. unfold ret.
    destruct (speakInMeeting OpenAI.fallback _) as [[[]|err] w2]; reflexivity.
Qed.

(** X12. Without OPENAI_API_KEY, unset or empty, the constructor of the
    bot still returns, with no OpenAI service; every response it then
    speaks is the canned sentence, and it makes no request. *)
Theorem missing_key_speaks_canned_reply (OPENAI_API_KEY DEEPGRAM_API_KEY : option string)
    (w : world) :
  OpenAI.truthy OPENAI_API_KEY = None ->
  exists svcs,
    fst (constructor OPENAI_API_KEY DEEPGRAM_API_KEY w) = Ok svcs
    /\ _openAI svcs = None
    /\ logged Warn "Voice-activated responses will use fallback messages"
         (snd (constructor OPENAI_API_KEY DEEPGRAM_API_KEY w))
    /\ forall create userMessage w',
         triggerBotResponse (_openAI svcs) create (fun text => act ("speak: " ++ text))
           userMessage w'
         = (Ok tt,
            mkWorld (logs w' ++ [(Info, "Voice input detected, generating AI response");
                                 (Warn, "OpenAI not available, using fallback response")])
                    (actions w' ++ ["speak: " ++ OpenAI.fallback]%string)
                    (_state w') (reported w')).
Proof.
  intros Hkey. unfold constructor, OpenAI.constructor, SttService, logged. rewrite Hkey.
  destruct (OpenAI.truthy DEEPGRAM_API_KEY); run_m;
    (eexists; split; [reflexivity|]; cbn; split; [reflexivity|]; split; [set_solver|]);
    intros create userMessage w'; unfold triggerBotResponse; run_m;
    now rewrite <- app_assoc.
Qed.

Lemma missing_key_witness :
  OpenAI.truthy (Some EmptyString) = None
  /\ exists svcs,
       fst (constructor (Some EmptyString) (Some "dg-key"%string) w0) = Ok svcs
       /\ _openAI svcs = None
       /\ logged Warn "Voice-activated responses will use fallback messages"
            (snd (constructor (Some EmptyString) (Some "dg-key"%string) w0))
       /\ forall create userMessage w',
            triggerBotResponse (_openAI svcs) create (fun text => act ("speak: " ++ text))
              userMessage w'
            = (Ok tt,
               mkWorld (logs w' ++ [(Info, "Voice input detected, generating AI response");
                                    (Warn, "OpenAI not available, using fallback response")])
                       (actions w' ++ ["speak: " ++ OpenAI.fallback]%string)
                       (_state w') (reported w')).
Proof.
  assert (Hk : OpenAI.truthy (Some EmptyString) = None) by reflexivity.
  split; [exact Hk|].
  exact (missing_key_speaks_canned_reply (Some EmptyString) (Some "dg-key"%string) w0 Hk).
Defined.

(** X13. __sendAudioToDeepgram answers success exactly when the bot has
    a service and a connection id, whether or not the buffer was
    delivered: under an id that is not registered, or whose connection
    is not open, it answers success although nothing was sent. *)
Theorem sendAudio_success_is_not_delivery (Buffer_from_base64 : string -> Stt.buffer)
    (sttService : option Stt.service) (deepgramConnectionId : option string)
    (audioBase64 : string) :
  let r := sendAudioToDeepgram Buffer_from_base64 sttService deepgramConnectionId
             audioBase64 in
  (fst r = true <-> is_Some sttService /\ is_Some deepgramConnectionId)
  /\ forall svc connectionId,
       sttService = Some svc -> deepgramConnectionId = Some connectionId ->
       exists svc',
         snd r = Some svc'
         /\ Stt.liveConnections svc' = Stt.liveConnections svc
         /\ (Stt.calls svc' <> Stt.calls svc ->
             exists connection,
               Stt.liveConnections svc !! connectionId = Some connection
               /\ Stt.getReadyState (Stt.answers connection) = Ok 1
               /\ Stt.calls svc'
                  = Stt.calls svc ++ [Stt.Send (Stt.ident connection)
                                        (Buffer_from_base64 audioBase64)])
         /\ (Stt.liveConnections svc !! connectionId = None ->
             fst r = true /\ Stt.calls svc' = Stt.calls svc).
Proof.
  cbn zeta. unfold sendAudioToDeepgram. split.
  - destruct sttService, deepgramConnectionId; cbn; split;
      try (intros [[? ?] [? ?]]); try discriminate; auto;
      intros _; split; eauto.
  - intros svc connectionId -> ->. cbn. eexists. split; [reflexivity|].
    split; [apply send_keeps_registry|]. split.
    + intros Hne.
      destruct (send_calls connectionId (Buffer_from_base64 audioBase64) svc)
        as [Hsame|Hd]; [congruence|exact Hd].
    + intros Hnone. split; [reflexivity|].
      rewrite send_unregistered by exact Hnone. reflexivity.
Qed.

(** X14. __processAudioChunk never throws, and an answer that is a
    failure carries an empty transcript; without the service the
    answer is a failure and nothing is asked of Deepgram. On the
    capture path a response is asked for only on the trimmed text,
    longer than 2, of a transcript that a Deepgram response without an
    error carried. *)
Theorem capture_path_triggers_on_returned_text (Buffer_from_base64 : string -> Stt.buffer)
    (sttService : option (Stt.mimetype -> result (option Stt.response)))
    (audioBase64 : string) (w : world) (s : Voice.state) :
  exists success transcript,
    fst (processAudioChunk Buffer_from_base64 sttService audioBase64 w)
    = Ok (Voice.ChunkResult success transcript)
    /\ (success = false -> transcript = EmptyString)
    /\ (sttService = None ->
        success = false
        /\ actions (snd (processAudioChunk Buffer_from_base64 sttService audioBase64 w))
           = actions w)
    /\ forall x,
         snd (Voice.transcription_done (Voice.ChunkResult success transcript) s) = Some x ->
         x = Js.trim transcript /\ 2 < Js.strlen x
         /\ exists transcribeFile m r res first,
              sttService = Some transcribeFile
              /\ transcribeFile m = Ok (Some r)
              /\ Stt.resp_error r = None
              /\ Stt.resp_result r = Some (Some res)
              /\ Stt.firstResult res = Some first
              /\ Stt.fr_transcript first = Some transcript.
Proof.
  unfold processAudioChunk. destruct sttService as [transcribeFile|].
  - rewrite bind_log. unfold try_catch. rewrite bind_log. unfold bind at 1.
    set (w1 := snd (log Info "Decoded audio buffer" _)).
    pose proof (transcribe_outcome transcribeFile (Buffer_from_base64 audioBase64) w1) as Ht.
    destruct (Stt.transcribe transcribeFile (Buffer_from_base64 audioBase64) w1)
      as [[t|e] w2]; cbn [fst] in Ht; run_m.
    + exists true, t. split; [reflexivity|]. split; [discriminate|].
      split; [discriminate|]. intros x. cbn.
      destruct (String.eqb t EmptyString) eqn:He; cbn; [discriminate|].
      destruct (Js.strlen (Js.trim t) >? 2) eqn:Hl; [|discriminate].
      intros [= <-]. split; [reflexivity|]. split; [lia|].
      destruct Ht as [->|(_ & m & r & res & first & H)]; [discriminate He|].
      exists transcribeFile, m, r, res, first. tauto.
    + exists false, EmptyString. split; [reflexivity|]. split; [reflexivity|].
      split; [discriminate|]. intros x. cbn. discriminate.
  - run_m. exists false, EmptyString. split; [reflexivity|]. split; [reflexivity|].
    split; [split; reflexivity|]. intros x. cbn. discriminate.
Qed.

(** *** Asking to join *)

Lemma click_text_spec (buttons : string -> join_button) (text : string) (w : world) :
  fst (click_text buttons text w) = Ok (takes_click (buttons text))
  /\ actions (snd (click_text buttons text w))
     = actions w ++ (if present (buttons text) then ["click " ++ text]%string else [])
  /\ _state (snd (click_text buttons text w)) = _state w.
Proof.
  unfold click_text, takes_click, present.
  destruct (jb_count (buttons text)) as [count|e]; [|run_m; rewrite app_nil_r; auto].
  run_m. destruct (count >? 0); cbn;
    destruct (jb_click (buttons text)) as [[]|e]; cbn; rewrite ?app_nil_r; auto.
Qed.

Lemma takes_click_present (b : join_button) : takes_click b = true -> present b = true.
Proof.
  unfold takes_click, present. destruct (jb_count b); [|discriminate].
  destruct (jb_click b); [auto|discriminate].
Qed.

Lemma click_first_spec (buttons : string -> join_button) (texts : list string)
    (w : world) :
  fst (click_first buttons texts w)
  = Ok (existsb (fun text => takes_click (buttons text)) texts)
  /\ actions (snd (click_first buttons texts w))
     = actions w
       ++ map (fun text => "click " ++ text)%string
            (filter (fun text => present (buttons text) = true)
               (up_to_first (fun text => takes_click (buttons text)) texts))
  /\ _state (snd (click_first buttons texts w)) = _state w.
Proof.
  revert w. induction texts as [|text rest IH]; intros w.
  - cbn. now rewrite app_nil_r.
  - cbn [click_first existsb up_to_first]. unfold bind.
    destruct (click_text_spec buttons text w) as (Hv & Ha & Hs).
    destruct (click_text buttons text w) as [[b|e] w1]; cbn in Hv, Ha, Hs;
      [injection Hv as ->|discriminate].
    destruct (takes_click (buttons text)) eqn:Ht.
    + rewrite (takes_click_present _ Ht) in Ha.
      rewrite filter_cons_True by (now apply takes_click_present). cbn. auto.
    + destruct (IH w1) as (Hv' & Ha' & Hs'). rewrite Hv', Ha', Hs', Ha, Hs. cbn [orb].
      split; [reflexivity|]. split; [|reflexivity].
      destruct (present (buttons text)) eqn:Hp.
      * rewrite filter_cons_True by exact Hp. cbn [map]. now rewrite <- app_assoc.
      * rewrite filter_cons_False by (rewrite Hp; discriminate). now rewrite app_nil_r.
Qed.

Lemma up_to_first_last {A} (P : A -> bool) (l : list A) (x : A) :
  head (filter (fun a => P a = true) l) = Some x ->
  exists pre, up_to_first P l = pre ++ [x] /\ P x = true.
Proof.
  induction l as [|a l IH]; [discriminate|].
  cbn [up_to_first]. destruct (P a) eqn:Ha.
  - rewrite filter_cons_True by exact Ha. intros [= <-]. exists []. auto.
  - rewrite filter_cons_False by (rewrite Ha; discriminate). intros H.
    destruct (IH H) as (pre & -> & Hx). exists (a :: pre). auto.
Qed.

(** X15. The join action succeeds exactly when one of the three
    buttons, Ask to join, Join now, Join anyway, is there and takes
    the click, and throws its fixed error otherwise. It clicks the
    buttons that are there in that order and stops at the first click
    that is taken: no text after it is looked for, and that click is
    the last thing it does on the page. *)
Theorem askToJoin_stops_at_first_click (buttons : string -> join_button) (w : world) :
  let r := askToJoin buttons w in
  fst r = (if existsb (fun text => takes_click (buttons text)) possibleTexts
           then Ok tt
           else Throw (OtherError "Unable to complete the join action..."))
  /\ actions (snd r)
     = actions w
       ++ map (fun text => "click " ++ text)%string
            (filter (fun text => present (buttons text) = true)
               (up_to_first (fun text => takes_click (buttons text)) possibleTexts))
  /\ (forall text,
        head (filter (fun t => takes_click (buttons t) = true) possibleTexts) = Some text ->
        exists before, actions (snd r) = before ++ ["click " ++ text]%string).
Proof.
  cbn zeta. unfold askToJoin, bind.
  destruct (click_first_spec buttons possibleTexts w) as (Hv & Ha & _).
  destruct (click_first buttons possibleTexts w) as [[b|e] w1];
    cbn [fst snd] in Hv, Ha |- *; [|discriminate].
  assert (Hb : b = existsb (fun text => takes_click (buttons text)) possibleTexts)
    by congruence.
  clear Hv.
  assert (Hact : forall c : bool,
             actions (snd ((if negb c
                            then throw (OtherError "Unable to complete the join action...")
                            else ret tt) w1)) = actions w1)
    by (intros []; reflexivity).
  split; [rewrite <- Hb; destruct b; reflexivity|].
  rewrite Hact, Ha. split; [reflexivity|].
  intros text Hhead.
  destruct (up_to_first_last (fun t => takes_click (buttons t)) possibleTexts text Hhead)
    as (pre & -> & Htake).
  rewrite filter_app, filter_cons_True by (now apply takes_click_present).
  rewrite filter_nil, map_app. cbn [map]. rewrite app_assoc. eauto.
Qed.

(** *** The Got it modals *)

Lemma click_all_spec (btns : list (result unit)) (n : Z) (w : world) :
  exists n' w',
    click_all btns n w = (Ok n', w')
    /\ actions w' = actions w ++ repeat "click Got it"%string (length btns)
    /\ _state w' = _state w /\ reported w' = reported w
    /\ logs w `prefix_of` logs w'.
Proof.
  revert n w. induction btns as [|btn rest IH]; intros n w.
  - exists n, w. cbn. rewrite app_nil_r. auto.
  - cbn [click_all length repeat]. unfold bind.
    destruct btn as [[]|e]; run_m;
      match goal with
      | |- context [click_all rest ?m ?W] =>
          destruct (IH m W) as (n' & w' & -> & Ha & Hs & Hr & Hl)
      end;
      exists n', w'; cbn in Ha, Hs, Hr, Hl;
      (split; [reflexivity|]); rewrite Ha, <- app_assoc;
      (split; [reflexivity|]); (split; [exact Hs|]); (split; [exact Hr|]);
      (etransitivity; [|exact Hl]); apply prefix_app_r; reflexivity.
Qed.

(** One turn that clicks and goes on. *)
Lemma gotIt_turn (fuel : nat) (page : nat -> turn) (k : nat)
    (clicked previous consecutive : Z) (l : list (result unit)) (w : world) :
  visibleButtons (page k) = Ok l -> l <> [] -> pause (page k) = Ok tt ->
  let unchanged := Z.of_nat (length l) =? previous in
  let consecutive' := if unchanged then consecutive + 1 else 0 in
  unchanged && (consecutive' >=? maxConsecutiveNoChange) = false ->
  exists clicked' w',
    gotIt_loop (S fuel) page k clicked previous consecutive w
    = gotIt_loop fuel page (S k) clicked' (Z.of_nat (length l)) consecutive' w'
    /\ actions w' = actions w ++ repeat "click Got it"%string (length l)
    /\ logs w `prefix_of` logs w'.
Proof.
  intros Hv Hne Hp unchanged consecutive' Hgo.
  destruct (click_all_spec l clicked w) as (clicked' & w' & Hc & Ha & _ & _ & Hl).
  exists clicked', w'. split; [|auto].
  cbn [gotIt_loop]. rewrite Hv, Hp. unfold bind, await.
  assert (Hz : (Z.of_nat (length l) =? 0) = false)
    by (apply Z.eqb_neq; destruct l; [contradiction|cbn; lia]).
  rewrite Hz. fold unchanged. fold consecutive'. rewrite Hgo, Hc. reflexivity.
Qed.

(** X16. Modals that do not go away do not hold the bot: when every
    look at the page shows the same number of Got it buttons, the
    loop clicks each of them in two turns and leaves at the third,
    with a warning, whatever the clicks did; nothing is thrown. *)
Theorem gotIt_gives_up_on_stuck_modals (fuel : nat) (page : nat -> turn) (n : nat)
    (w : world) :
  (0 < n)%nat ->
  (forall k, exists l, visibleButtons (page k) = Ok l /\ length l = n) ->
  (forall k, pause (page k) = Ok tt) ->
  (3 <= fuel)%nat ->
  let r := dismissGotIt fuel (Ok tt) page w in
  fst r = Ok (Some true)
  /\ actions (snd r) = actions w ++ repeat "click Got it"%string (n + n)
  /\ logged Warn "Button count hasn't changed for 2 iterations, stopping" (snd r).
Proof.
  intros Hn Hb Hp Hfuel. cbn zeta.
  destruct fuel as [|[|[|fuel]]]; try lia.
  destruct (Hb 0%nat) as (l0 & Hv0 & Hl0), (Hb 1%nat) as (l1 & Hv1 & Hl1),
    (Hb 2%nat) as (l2 & Hv2 & Hl2).
  assert (Hne : forall l : list (result unit), length l = n -> l <> [])
    by (intros [|] H; [cbn in H; lia|discriminate]).
  set (w1 := snd (log Info ("Going to click all visible " ++ Js.quoted "Got it" ++ " buttons...")
                   (snd (log Info ("Waiting for the " ++ Js.quoted "Got it" ++ " button...") w)))).
  assert (Hloop : exists c wf,
             gotIt_loop (S (S (S fuel))) page 0 0 (-1) 0 w1 = (Ok (Some c), wf)
             /\ actions wf = actions w ++ repeat "click Got it"%string (n + n)
             /\ logged Warn "Button count hasn't changed for 2 iterations, stopping" wf).
  { destruct (gotIt_turn (S (S fuel)) page 0 0 (-1) 0 l0 w1 Hv0 (Hne _ Hl0) (Hp _))
      as (c1 & w2 & E1 & Ha2 & _).
    { replace (Z.of_nat (length l0) =? -1) with false by (symmetry; apply Z.eqb_neq; lia).
      reflexivity. }
    rewrite E1. clear E1.
    replace (Z.of_nat (length l0) =? -1) with false by (symmetry; apply Z.eqb_neq; lia).
    destruct (gotIt_turn (S fuel) page 1 c1 (Z.of_nat (length l0)) 0 l1 w2 Hv1 (Hne _ Hl1) (Hp _))
      as (c2 & w3 & E2 & Ha3 & _).
    { rewrite Hl0, Hl1, Z.eqb_refl. reflexivity. }
    rewrite E2. clear E2. rewrite Hl0, Hl1, Z.eqb_refl.
    cbn [gotIt_loop]. rewrite Hv2. unfold bind at 1, await.
    rewrite Hl2. replace (Z.of_nat n =? 0) with false by (symmetry; apply Z.eqb_neq; lia).
    rewrite Z.eqb_refl. cbn.
    eexists _, _. split; [reflexivity|]. unfold logged. cbn. split; [|set_solver].
    rewrite Ha3, Ha2, Hl0, Hl1, <- app_assoc, repeat_app. reflexivity. }
  destruct Hloop as (c & wf & E & Ha & Hl).
  unfold dismissGotIt, try_catch. rewrite bind_log, bind_await_ok, bind_log.
  unfold bind. fold w1. rewrite E. cbn. auto.
Qed.

Lemma gotIt_witness :
  let page := fun _ : nat => mkTurn (Ok [Ok tt; Throw (OtherError "detached")]) (Ok tt) in
  (0 < 2)%nat
  /\ (forall k, exists l, visibleButtons (page k) = Ok l /\ length l = 2%nat)
  /\ (forall k, pause (page k) = Ok tt)
  /\ (3 <= 5)%nat
  /\ fst (dismissGotIt 5 (Ok tt) page w0) = Ok (Some true)
  /\ actions (snd (dismissGotIt 5 (Ok tt) page w0))
     = repeat "click Got it"%string 4.
Proof.
  intros page.
  assert (H1 : (0 < 2)%nat) by lia.
  assert (H2 : forall k, exists l, visibleButtons (page k) = Ok l /\ length l = 2%nat)
    by (intros k; eexists; split; reflexivity).
  assert (H3 : forall k, pause (page k) = Ok tt) by reflexivity.
  assert (H4 : (3 <= 5)%nat) by lia.
  split; [exact H1|]. split; [exact H2|]. split; [exact H3|]. split; [exact H4|].
  pose proof (gotIt_gives_up_on_stuck_modals 5 page 2 w0 H1 H2 H3 H4) as (Hr & Ha & _).
  split; [exact Hr|exact Ha].
Defined.

(** *** Capturing the remote audio *)

Lemma capture_chain_cases (streams : list bool) (r : Z) :
  0 <= r < 10 ->
  let k := Z.to_nat (10 - r) in
  let chain := capture_chain streams r in
  (exists i, (i < k)%nat /\ take i streams = repeat false i
             /\ streams !! i = Some true
             /\ chain = repeat RetryIn5s i ++ [StartTranscription])
  \/ (take k streams = repeat false k /\ (k <= length streams)%nat
      /\ chain = repeat RetryIn5s (k - 1) ++ [StartMicrophoneRecognition])
  \/ (streams = repeat false (length streams) /\ (length streams < k)%nat
      /\ chain = repeat RetryIn5s (length streams)).
Proof.
  revert r. induction streams as [|stream rest IH]; intros r Hr; cbn zeta.
  - right; right. cbn. repeat split. lia.
  - cbn [capture_chain]. unfold tryCaptureAndTranscribe, maxRetries.
    destruct stream; cbn [negb].
    + left. exists 0%nat. cbn. repeat split. lia.
    + destruct (r + 1 <? 10) eqn:Hlt.
      * apply Z.ltb_lt in Hlt.
        replace (Z.to_nat (10 - r)) with (S (Z.to_nat (10 - (r + 1)))) by lia.
        destruct (IH (r + 1) ltac:(lia)) as [(i & Hi & Ht & Hs & ->)|[(Ht & Hl & ->)|(Hs & Hl & ->)]].
        -- left. exists (S i). cbn. rewrite Ht. repeat split; [lia|exact Hs].
        -- right; left. cbn [take repeat length]. rewrite Ht.
           split; [reflexivity|]. split; [lia|].
           replace (S (Z.to_nat (10 - (r + 1))) - 1)%nat
             with (S (Z.to_nat (10 - (r + 1)) - 1)) by lia.
           reflexivity.
        -- right; right. cbn [length repeat]. rewrite <- Hs.
           split; [reflexivity|]. split; [lia|reflexivity].
      * apply Z.ltb_ge in Hlt. assert (r = 9) as -> by lia.
        right; left. cbn. repeat split. lia.
Qed.

(** X17. The remote audio is looked for at most ten times, one try per
    timer. The first try that finds a stream starts the transcription
    and ends the tries; the microphone fallback starts at the tenth
    try in a row that finds none, and only then; fewer failed tries
    leave one more try armed. *)
Theorem capture_falls_back_after_ten_failures (streams : list bool) :
  let chain := capture_chain streams 0 in
  (length chain <= 10)%nat
  /\ ((exists i, (i < 10)%nat /\ take i streams = repeat false i
                 /\ streams !! i = Some true
                 /\ chain = repeat RetryIn5s i ++ [StartTranscription])
      \/ (take 10 streams = repeat false 10 /\ (10 <= length streams)%nat
          /\ chain = repeat RetryIn5s 9 ++ [StartMicrophoneRecognition])
      \/ (streams = repeat false (length streams) /\ (length streams < 10)%nat
          /\ chain = repeat RetryIn5s (length streams))).
Proof.
  cbn zeta. pose proof (capture_chain_cases streams 0 ltac:(lia)) as H. cbn zeta in H.
  change (Z.to_nat (10 - 0)) with 10%nat in H. change (10 - 1)%nat with 9%nat in H.
  split; [|exact H].
  destruct H as [(i & Hi & _ & _ & ->)|[(_ & _ & ->)|(_ & Hl & ->)]];
    rewrite ?length_app, ?repeat_length; cbn; lia.
Qed.

End BotFacts.
Section WavFacts.
Import Wav.

Lemma le_length (n : nat) (u : Z) : List.length (le n u) = n.
Proof. unfold le. now rewrite length_map, length_seq. Qed.

(** A write at the end of what was written so far. *)
Lemma store_spec (pre bs rest : list Z) :
  (List.length bs <= List.length rest)%nat ->
  store bs (mkWriter (pre ++ rest) (Z.of_nat (List.length pre)))
  = Some (mkWriter ((pre ++ bs) ++ drop (List.length bs) rest)
                   (Z.of_nat (List.length (pre ++ bs)))).
Proof.
  intros Hfit. unfold store. cbn [view pos].
  rewrite length_app.
  replace ((0 <=? Z.of_nat (List.length pre))
           && (Z.of_nat (List.length pre) + Z.of_nat (List.length bs)
               <=? Z.of_nat (List.length pre + List.length rest)))
    with true by (symmetry; apply andb_true_intro; split; [apply Z.leb_le|apply Z.leb_le]; lia).
  f_equal. f_equal.
  - rewrite Nat2Z.id, take_app_length.
    replace (Z.to_nat (Z.of_nat (List.length pre) + Z.of_nat (List.length bs)))
      with (List.length pre + List.length bs)%nat by lia.
    rewrite drop_app_add'; [|reflexivity]. now rewrite <- app_assoc.
  - rewrite length_app. lia.
Qed.

Lemma write_header_spec (buffer : AudioBuffer) (n : nat) :
  write_header buffer (mkWriter (replicate (44 + n) 0) 0)
  = Some (mkWriter (header_bytes buffer ++ replicate n 0) 44).
Proof.
  unfold write_header, setUint32, setUint16.
  change (mkWriter (replicate (44 + n) 0) 0)
    with (mkWriter ([] ++ replicate (44 + n) 0) (Z.of_nat (List.length (@nil Z)))).
  cbn [mbind option_bind].
  repeat (rewrite store_spec
            by (rewrite ?length_drop, ?length_replicate, ?le_length; lia);
          cbn [mbind option_bind]).
  reflexivity.
Qed.

Lemma frame_bytes_length (chs : list (list float)) (offset : nat) :
  List.length (frame_bytes chs offset) = (List.length chs * 2)%nat.
Proof.
  unfold frame_bytes. induction chs as [|ch chs IH]; [reflexivity|].
  cbn [flat_map]. rewrite length_app, le_length, IH. cbn. lia.
Qed.

Lemma no_channel_no_bytes (l : list nat) : flat_map (frame_bytes []) l = [].
Proof. induction l as [|k l IH]; [reflexivity|exact IH]. Qed.

Lemma write_frame_spec (chs : list (list float)) (offset : nat) (pre rest : list Z) :
  (List.length chs * 2 <= List.length rest)%nat ->
  write_frame chs offset (mkWriter (pre ++ rest) (Z.of_nat (List.length pre)))
  = Some (mkWriter ((pre ++ frame_bytes chs offset)
                    ++ drop (List.length chs * 2) rest)
                   (Z.of_nat (List.length (pre ++ frame_bytes chs offset)))).
Proof.
  revert pre rest. induction chs as [|ch chs IH]; intros pre rest Hfit.
  - cbn. now rewrite !app_nil_r.
  - cbn [write_frame]. unfold setInt16.
    rewrite store_spec by (rewrite le_length; cbn in Hfit; lia).
    cbn [mbind option_bind].
    rewrite IH by (rewrite length_drop, le_length; cbn in Hfit; lia).
    rewrite drop_drop, le_length. unfold frame_bytes. cbn [flat_map].
    fold (pcm16 (sample_at ch offset)). rewrite <- !app_assoc.
    replace (2 + List.length chs * 2)%nat with (List.length (ch :: chs) * 2)%nat
      by (cbn; lia).
    reflexivity.
Qed.

(** The loop writes the frames that are left and stops: it needs no
    more turns than there are frames. *)
Lemma write_frames_spec (chs : list (list float)) (left fuel offset : nat)
    (pre : list Z) :
  (left <= fuel)%nat ->
  write_frames fuel chs offset
    (mkWriter (pre ++ replicate (left * List.length chs * 2) 0)
              (Z.of_nat (List.length pre)))
  = Done (pre ++ flat_map (frame_bytes chs) (seq offset left)).
Proof.
  revert fuel offset pre. induction left as [|left IH]; intros fuel offset pre Hfuel.
  - cbn [Nat.mul replicate seq flat_map]. rewrite app_nil_r.
    destruct fuel; cbn [write_frames view pos]; rewrite Z.ltb_irrefl; reflexivity.
  - destruct chs as [|ch chs].
    + rewrite Nat.mul_0_r. cbn [Nat.mul replicate]. rewrite app_nil_r.
      rewrite no_channel_no_bytes.
      destruct fuel; cbn [write_frames view pos]; rewrite Z.ltb_irrefl;
        rewrite ?app_nil_r; reflexivity.
    + destruct fuel as [|fuel]; [lia|].
      cbn [write_frames view pos].
      replace (Z.of_nat (List.length pre)
               <? Z.of_nat (List.length
                              (pre ++ replicate (S left * List.length (ch :: chs) * 2) 0)))
        with true
        by (symmetry; apply Z.ltb_lt; rewrite length_app, length_replicate; cbn; lia).
      rewrite write_frame_spec by (rewrite length_replicate; cbn; lia).
      rewrite drop_replicate.
      replace (S left * List.length (ch :: chs) * 2 - List.length (ch :: chs) * 2)%nat
        with (left * List.length (ch :: chs) * 2)%nat by (cbn; lia).
      rewrite IH by lia. cbn [seq flat_map]. now rewrite <- app_assoc.
Qed.

Lemma header_bytes_length (buffer : AudioBuffer) : List.length (header_bytes buffer) = 44%nat.
Proof. unfold header_bytes. rewrite !length_app, !le_length. reflexivity. Qed.

(** The encoder in closed form: it returns, with the header and then
    the frames. *)
Lemma audioBufferToWav_closed (buffer : AudioBuffer) (fuel : nat) :
  (length buffer <= fuel)%nat ->
  audioBufferToWav fuel buffer
  = Done (header_bytes buffer
          ++ flat_map (frame_bytes (channels buffer)) (seq 0 (length buffer))).
Proof.
  intros Hfuel. unfold audioBufferToWav. rewrite write_header_spec.
  change 44 with (Z.of_nat 44). rewrite <- (header_bytes_length buffer).
  apply write_frames_spec. exact Hfuel.
Qed.

Lemma frames_length (chs : list (list float)) (offset n : nat) :
  List.length (flat_map (frame_bytes chs) (seq offset n)) = (n * List.length chs * 2)%nat.
Proof.
  revert offset. induction n as [|n IH]; intros offset; [reflexivity|].
  cbn [seq flat_map]. rewrite length_app, frame_bytes_length, IH. lia.
Qed.

Lemma le4_decode (u : Z) :
  0 <= u < 2 ^ 32 ->
  getUint32 (le 4 u) 0 = Some u.
Proof.
  intros Hu. cbn. f_equal.
  change (256 ^ Z.of_nat 0) with 1. change (256 ^ Z.of_nat 1) with 256.
  change (256 ^ Z.of_nat 2) with 65536. change (256 ^ Z.of_nat 3) with 16777216.
  rewrite Z.div_1_r.
  assert (E1 : u / 256 / 256 = u / 65536) by (rewrite Z.div_div by lia; reflexivity).
  assert (E2 : u / 65536 / 256 = u / 16777216) by (rewrite Z.div_div by lia; reflexivity).
  pose proof (Z.div_mod u 256 ltac:(lia)) as H0.
  pose proof (Z.div_mod (u / 256) 256 ltac:(lia)) as H1.
  pose proof (Z.div_mod (u / 65536) 256 ltac:(lia)) as H2.
  rewrite E1 in H1. rewrite E2 in H2.
  assert (H3 : (u / 16777216) mod 256 = u / 16777216).
  { apply Z.mod_small. split; [apply Z.div_pos; lia|].
    apply Z.div_lt_upper_bound; lia. }
  lia.
Qed.

Lemma lookup_after (pre l : list Z) (i : nat) :
  (pre ++ l) !! (List.length pre + i)%nat = l !! i.
Proof. rewrite lookup_app_r by lia. f_equal. lia. Qed.

Lemma getUint32_at (pre bs post : list Z) (u : Z) :
  getUint32 bs 0 = Some u -> List.length bs = 4%nat ->
  getUint32 (pre ++ bs ++ post) (List.length pre) = Some u.
Proof.
  intros Hg Hl. destruct bs as [|b0 [|b1 [|b2 [|b3 [|]]]]]; try discriminate.
  unfold getUint32 in *. cbn in Hg.
  pose proof (lookup_after pre ([b0; b1; b2; b3] ++ post) 0) as L0.
  pose proof (lookup_after pre ([b0; b1; b2; b3] ++ post) 1) as L1.
  pose proof (lookup_after pre ([b0; b1; b2; b3] ++ post) 2) as L2.
  pose proof (lookup_after pre ([b0; b1; b2; b3] ++ post) 3) as L3.
  rewrite Nat.add_0_r in L0.
  replace (List.length pre + 1)%nat with (S (List.length pre)) in L1 by lia.
  replace (List.length pre + 2)%nat with (S (S (List.length pre))) in L2 by lia.
  replace (List.length pre + 3)%nat with (S (S (S (List.length pre)))) in L3 by lia.
  cbn [app] in L0, L1, L2, L3 |- *.
  rewrite L0. cbn [mbind option_bind lookup list_lookup].
  rewrite L1. cbn [mbind option_bind lookup list_lookup].
  rewrite L2. cbn [mbind option_bind lookup list_lookup].
  rewrite L3. cbn [mbind option_bind lookup list_lookup]. exact Hg.
Qed.

Lemma header_fields (buffer : AudioBuffer) (rest : list Z) :
  let data := Z.of_nat (length buffer) * numberOfChannels buffer * 2 in
  getUint32 (header_bytes buffer ++ rest) 4 = Some ((36 + data) mod 2 ^ 32)
  /\ getUint32 (header_bytes buffer ++ rest) 24 = Some (sampleRate buffer mod 2 ^ 32)
  /\ getUint32 (header_bytes buffer ++ rest) 40 = Some (data mod 2 ^ 32).
Proof.
  cbn zeta.
  assert (Hm : forall u, 0 <= u mod 2 ^ 32 < 2 ^ 32) by (intros; apply Z.mod_pos_bound; lia).
  set (data := Z.of_nat (length buffer) * numberOfChannels buffer * 2).
  split; [|split].
  - set (before := le 4 (1179011410 mod 2 ^ 32)).
    assert (E : exists post,
               header_bytes buffer ++ rest
               = before ++ le 4 ((36 + data) mod 2 ^ 32) ++ post)
      by (eexists; unfold header_bytes; rewrite <- !app_assoc; reflexivity).
    destruct E as [post ->]. change 4%nat with (List.length before).
    apply getUint32_at; [apply le4_decode, Hm|apply le_length].
  - set (before := le 4 (1179011410 mod 2 ^ 32)
                   ++ le 4 ((36 + data) mod 2 ^ 32)
                   ++ le 4 (1163280727 mod 2 ^ 32)
                   ++ le 4 (544501094 mod 2 ^ 32)
                   ++ le 4 (16 mod 2 ^ 32)
                   ++ le 2 (1 mod 2 ^ 16)
                   ++ le 2 (numberOfChannels buffer mod 2 ^ 16)).
    assert (E : exists post,
               header_bytes buffer ++ rest
               = before ++ le 4 (sampleRate buffer mod 2 ^ 32) ++ post)
      by (eexists; unfold header_bytes, before; rewrite <- !app_assoc; reflexivity).
    destruct E as [post ->]. change 24%nat with (List.length before).
    apply getUint32_at; [apply le4_decode, Hm|apply le_length].
  - set (before := le 4 (1179011410 mod 2 ^ 32)
                   ++ le 4 ((36 + data) mod 2 ^ 32)
                   ++ le 4 (1163280727 mod 2 ^ 32)
                   ++ le 4 (544501094 mod 2 ^ 32)
                   ++ le 4 (16 mod 2 ^ 32)
                   ++ le 2 (1 mod 2 ^ 16)
                   ++ le 2 (numberOfChannels buffer mod 2 ^ 16)
                   ++ le 4 (sampleRate buffer mod 2 ^ 32)
                   ++ le 4 ((sampleRate buffer * numberOfChannels buffer * 2) mod 2 ^ 32)
                   ++ le 2 ((numberOfChannels buffer * 2) mod 2 ^ 16)
                   ++ le 2 (16 mod 2 ^ 16)
                   ++ le 4 (1635017060 mod 2 ^ 32)).
    assert (E : header_bytes buffer ++ rest = before ++ le 4 (data mod 2 ^ 32) ++ rest)
      by (unfold header_bytes, before; rewrite <- !app_assoc; reflexivity).
    rewrite E. change 40%nat with (List.length before).
    apply getUint32_at; [apply le4_decode, Hm|apply le_length].
Qed.

Lemma transcribe_first_request (transcribeFile : Stt.mimetype -> result (option Stt.response))
    (audioBuffer : Stt.buffer) (w : world) :
  Stt.isWav audioBuffer = true ->
  head (Stt.requests w (snd (Stt.transcribe transcribeFile audioBuffer w)))
  = Some (Stt.request Stt.AudioWav).
Proof.
  intros Hw. unfold Stt.transcribe, Stt.requests. rewrite Hw.
  repeat (run_m;
          match goal with
          | |- context [match transcribeFile ?m with _ => _ end] =>
              destruct (transcribeFile m) as [[?|]|?]
          end);
    run_m;
    try match goal with
        | |- context [Stt.read_response ?r ?W] =>
            destruct (read_response_cases r W) as (t & Ht & Hact & _);
            destruct (Stt.read_response r W) as [[?|?] ?]; cbn in Hact |- *
        end;
    rewrite ?Hact; cbn [actions]; rewrite <- ?app_assoc, drop_app_length; reflexivity.
Qed.

(** X18. The encoder always returns, within as many turns of its loop
    as the buffer has samples, and never writes out of bounds. What it
    returns is 44 bytes of header and two bytes per sample and channel;
    it starts with RIFF, so transcribe takes it for WAV and asks with
    the WAV mimetype first; its size fields read back as the data size
    and the data size plus 36, modulo 2^32, and its rate field as the
    sample rate. *)
Theorem audioBufferToWav_writes_a_wave_file (buffer : AudioBuffer) :
  exists bytes,
    (forall fuel, (length buffer <= fuel)%nat -> audioBufferToWav fuel buffer = Done bytes)
    /\ List.length bytes
       = (44 + length buffer * List.length (channels buffer) * 2)%nat
    /\ Stt.isWav bytes = true
    /\ (forall transcribeFile w,
          head (Stt.requests w (snd (Stt.transcribe transcribeFile bytes w)))
          = Some (Stt.request Stt.AudioWav))
    /\ getUint32 bytes 4
       = Some ((36 + Z.of_nat (length buffer) * numberOfChannels buffer * 2) mod 2 ^ 32)
    /\ getUint32 bytes 24 = Some (sampleRate buffer mod 2 ^ 32)
    /\ getUint32 bytes 40
       = Some ((Z.of_nat (length buffer) * numberOfChannels buffer * 2) mod 2 ^ 32).
Proof.
  exists (header_bytes buffer
          ++ flat_map (frame_bytes (channels buffer)) (seq 0 (length buffer))).
  assert (Hw : Stt.isWav (header_bytes buffer
                          ++ flat_map (frame_bytes (channels buffer))
                               (seq 0 (length buffer))) = true).
  { apply isWav_RIFF. eexists. unfold header_bytes. rewrite <- !app_assoc.
    change (le 4 (1179011410 mod 2 ^ 32)) with [82; 73; 70; 70]. reflexivity. }
  split; [intros fuel Hfuel; now apply audioBufferToWav_closed|].
  split; [rewrite length_app, header_bytes_length, frames_length; reflexivity|].
  split; [exact Hw|].
  split; [intros transcribeFile w; now apply transcribe_first_request|].
  apply header_fields.
Qed.

(** *** The samples *)

Lemma flat_map_chunk {A} (f : A -> list Z) (m : nat) (l : list A) (i : nat) (x : A) :
  (forall a, List.length (f a) = m) ->
  l !! i = Some x ->
  take m (drop (i * m) (flat_map f l)) = f x.
Proof.
  intros Hm. revert i. induction l as [|a l IH]; intros i Hi; [discriminate|].
  change (flat_map f (a :: l)) with (f a ++ flat_map f l).
  destruct i as [|i]; cbn in Hi.
  - injection Hi as ->. rewrite Nat.mul_0_l, drop_0. apply take_app_length'. auto.
  - replace (S i * m)%nat with (m + i * m)%nat by lia.
    rewrite drop_app_add' by auto. auto.
Qed.

Lemma take_take_drop_frame (n m : nat) (l : list Z) :
  (n <= m)%nat -> take n (take m l) = take n l.
Proof. intros H. rewrite take_take. f_equal. lia. Qed.

Lemma ToInt16_range (x : float) : -32768 <= ToInt16 x <= 32767.
Proof.
  destruct x as [q| | |]; cbn; try lia.
  pose proof (Z.mod_pos_bound (truncate q) 65536 ltac:(lia)).
  destruct (truncate q mod 65536 >=? 32768) eqn:H1; lia.
Qed.

Lemma le2_decode (v : Z) :
  -32768 <= v <= 32767 ->
  getInt16 (le 2 (v mod 2 ^ 16)) 0 = Some v.
Proof.
  intros Hv. cbn. f_equal.
  change (256 ^ Z.of_nat 0) with 1. change (256 ^ Z.of_nat 1) with 256.
  change (2 ^ 16) with 65536.
  rewrite Z.div_1_r.
  set (u := v mod 65536).
  assert (Hu : 0 <= u < 65536) by (apply Z.mod_pos_bound; lia).
  pose proof (Z.div_mod u 256 ltac:(lia)) as H0.
  assert (H1 : (u / 256) mod 256 = u / 256).
  { apply Z.mod_small. split; [apply Z.div_pos; lia|apply Z.div_lt_upper_bound; lia]. }
  rewrite H1. replace (u mod 256 + 256 * (u / 256)) with u by lia.
  assert (Hcase : (0 <= v /\ u = v) \/ (v < 0 /\ u = v + 65536)).
  { destruct (Z_lt_le_dec v 0) as [Hneg|Hpos].
    - right. split; [exact Hneg|]. unfold u.
      replace v with (v + 65536 + (-1) * 65536) at 1 by lia.
      rewrite Z.mod_add by lia. apply Z.mod_small. lia.
    - left. split; [exact Hpos|]. apply Z.mod_small. lia. }
  destruct (u >=? 32768) eqn:Hge; destruct Hcase as [[? ?]|[? ?]]; lia.
Qed.

Lemma getInt16_chunk (bytes : list Z) (p : nat) (v : Z) :
  take 2 (drop p bytes) = le 2 (v mod 2 ^ 16) ->
  -32768 <= v <= 32767 ->
  getInt16 bytes p = Some v.
Proof.
  intros Ht Hv. pose proof (le2_decode v Hv) as Hd.
  rewrite <- Ht in Hd. unfold getInt16 in *.
  rewrite !lookup_take_lt in Hd by lia. rewrite !lookup_drop in Hd.
  rewrite Nat.add_0_r in Hd. replace (p + 1)%nat with (S p) in Hd by lia. exact Hd.
Qed.

(** X19. Every sample is where a WAV reader looks for it: in the file
    the encoder returns, the two bytes at 44 + 2 * (k * channels + c)
    read back, as a signed 16-bit number, as the value the encoder
    computed for sample k of channel c; that value is always within
    -32768 .. 32767. *)
Theorem wav_sample_reads_back (buffer : AudioBuffer) (k c : nat) (channel : list float) :
  (k < length buffer)%nat ->
  channels buffer !! c = Some channel ->
  exists bytes,
    audioBufferToWav (length buffer) buffer = Done bytes
    /\ getInt16 bytes (44 + (k * List.length (channels buffer) + c) * 2)
       = Some (pcm16 (sample_at channel k))
    /\ -32768 <= pcm16 (sample_at channel k) <= 32767.
Proof.
  intros Hk Hc. eexists. split; [apply audioBufferToWav_closed; lia|].
  assert (Hrange : -32768 <= pcm16 (sample_at channel k) <= 32767)
    by apply ToInt16_range.
  split; [|exact Hrange].
  apply getInt16_chunk; [|exact Hrange].
  set (chs := channels buffer) in *.
  rewrite <- (header_bytes_length buffer) at 1.
  rewrite drop_app_add' by reflexivity.
  replace ((k * List.length chs + c) * 2)%nat
    with (k * (List.length chs * 2) + c * 2)%nat by lia.
  rewrite <- drop_drop.
  assert (Hc2 : (c < List.length chs)%nat) by (eapply lookup_lt_Some; eauto).
  rewrite take_drop_commute.
  rewrite <- (take_take_drop_frame (c * 2 + 2) (List.length chs * 2)) by lia.
  rewrite (flat_map_chunk (frame_bytes chs) (List.length chs * 2) _ k k);
    [|intros; apply frame_bytes_length|apply lookup_seq_lt; lia].
  rewrite <- take_drop_commute. unfold frame_bytes.
  apply (flat_map_chunk
           (fun channel => le 2 (pcm16 (sample_at channel k) mod 2 ^ 16)) 2 chs c channel);
    [intros; apply le_length|exact Hc].
Qed.

Lemma wav_sample_witness :
  (1 < length (mkAudioBuffer 2 16000 [[Finite (1 # 2); Finite (-2)]]))%nat
  /\ channels (mkAudioBuffer 2 16000 [[Finite (1 # 2); Finite (-2)]]) !! 0%nat
     = Some [Finite (1 # 2); Finite (-2)]
  /\ exists bytes,
       audioBufferToWav 2 (mkAudioBuffer 2 16000 [[Finite (1 # 2); Finite (-2)]])
       = Done bytes
       /\ getInt16 bytes 46 = Some (-32768)
       /\ -32768 <= -32768 <= 32767.
Proof.
  assert (Hk : (1 < length (mkAudioBuffer 2 16000 [[Finite (1 # 2); Finite (-2)]]))%nat)
    by (cbn; lia).
  assert (Hc : channels (mkAudioBuffer 2 16000 [[Finite (1 # 2); Finite (-2)]]) !! 0%nat
               = Some [Finite (1 # 2); Finite (-2)]) by reflexivity.
  split; [exact Hk|]. split; [exact Hc|].
  exact (wav_sample_reads_back (mkAudioBuffer 2 16000 [[Finite (1 # 2); Finite (-2)]])
           1 0 [Finite (1 # 2); Finite (-2)] Hk Hc).
Defined.

(** *** Saturation *)

Lemma ToInt16_small (q : Q) :
  -32768 <= truncate q <= 32767 -> ToInt16 (Finite q) = truncate q.
Proof.
  intros H. cbn [ToInt16]. set (t := truncate q) in *.
  destruct (Z_lt_le_dec t 0) as [Hneg|Hpos].
  - assert (E : t mod 65536 = t + 65536).
    { replace t with (t + 65536 + (-1) * 65536) at 1 by lia.
      rewrite Z.mod_add by lia. apply Z.mod_small. lia. }
    rewrite E. destruct (t + 65536 >=? 32768) eqn:Hge; lia.
  - rewrite Z.mod_small by lia. destruct (t >=? 32768) eqn:Hge; lia.
Qed.

Lemma truncate_scaled (q : Q) (n : Z) :
  truncate (q * inject_Z n) = Z.quot (Qnum q * n) (Z.pos (Qden q)).
Proof. unfold truncate. destruct q as [a d]. cbn. now rewrite Pos.mul_1_r. Qed.

Lemma Qltb_spec (a b : Q) : Recording.Qltb a b = true <-> (a < b)%Q.
Proof.
  unfold Recording.Qltb. rewrite negb_true_iff. split.
  - intros H. apply Qnot_le_lt. intros Hle. apply Qle_bool_iff in Hle. congruence.
  - intros H. destruct (Qle_bool b a) eqn:E; [|reflexivity].
    apply Qle_bool_iff in E. exfalso. exact (Qlt_not_le _ _ H E).
Qed.

Lemma clamp_inside (q : Q) :
  (-1 < q)%Q -> (q < 1)%Q -> max_minus_1 (min_1 (Finite q)) = Finite q.
Proof.
  intros Hlo Hhi. cbn [min_1 max_minus_1]. f_equal.
  assert (E1 : Qmin 1 q = q).
  { unfold Qmin, GenericMinMax.gmin. destruct (1 ?= q)%Q eqn:Hc; [| |reflexivity].
    - apply Qeq_alt in Hc. rewrite Hc in Hhi. exfalso. exact (Qlt_irrefl _ Hhi).
    - apply Qlt_alt in Hc. exfalso. exact (Qlt_irrefl _ (Qlt_trans _ _ _ Hc Hhi)). }
  rewrite E1. unfold Qmax, GenericMinMax.gmax.
  destruct (-1 ?= q)%Q eqn:Hc; [|reflexivity|].
  - apply Qeq_alt in Hc. rewrite <- Hc in Hlo. exfalso. exact (Qlt_irrefl _ Hlo).
  - apply Qgt_alt in Hc. exfalso. exact (Qlt_irrefl _ (Qlt_trans _ _ _ Hc Hlo)).
Qed.

Lemma clamp_above (q : Q) : (1 <= q)%Q -> max_minus_1 (min_1 (Finite q)) = Finite 1.
Proof.
  intros H. cbn [min_1 max_minus_1].
  assert (E1 : Qmin 1 q = 1%Q).
  { unfold Qmin, GenericMinMax.gmin. destruct (1 ?= q)%Q eqn:Hc; try reflexivity.
    apply Qgt_alt in Hc. exfalso. exact (Qlt_not_le _ _ Hc H). }
  rewrite E1. reflexivity.
Qed.

Lemma clamp_below (q : Q) : (q <= -1)%Q -> max_minus_1 (min_1 (Finite q)) = Finite (-1).
Proof.
  intros H. cbn [min_1 max_minus_1].
  assert (E1 : Qmin 1 q = q).
  { unfold Qmin, GenericMinMax.gmin. destruct (1 ?= q)%Q eqn:Hc; [| |reflexivity].
    - apply Qeq_alt in Hc. rewrite <- Hc in H. exfalso. revert H. apply Qlt_not_le. reflexivity.
    - apply Qlt_alt in Hc. exfalso.
      assert (Hx : (1 < -1)%Q) by (eapply Qlt_le_trans; eauto).
      revert Hx. apply Qle_not_lt. discriminate. }
  rewrite E1. f_equal. unfold Qmax, GenericMinMax.gmax.
  destruct (-1 ?= q)%Q eqn:Hc; try reflexivity.
  apply Qlt_alt in Hc. exfalso. exact (Qlt_not_le _ _ Hc H).
Qed.

(** X20. Samples out of range saturate, they do not wrap: a sample of 1
    or more, or plus infinity, is written as 32767 and one of -1 or
    less, or minus infinity, as -32768; NaN and a missing sample are
    written as 0; a sample strictly between is scaled by 32768 when
    negative and by 32767 otherwise and cut towards zero, which stays
    strictly inside the 16-bit range. *)
Theorem pcm16_saturates :
  pcm16 NaN = 0 /\ pcm16 PosInf = 32767 /\ pcm16 NegInf = -32768
  /\ (forall channel offset, channel !! offset = None -> pcm16 (sample_at channel offset) = 0)
  /\ (forall q, (1 <= q)%Q -> pcm16 (Finite q) = 32767)
  /\ (forall q, (q <= -1)%Q -> pcm16 (Finite q) = -32768)
  /\ (forall q, (-1 < q)%Q -> (q < 0)%Q ->
        pcm16 (Finite q) = truncate (q * 32768) /\ -32768 < pcm16 (Finite q) <= 0)
  /\ (forall q, (0 <= q)%Q -> (q < 1)%Q ->
        pcm16 (Finite q) = truncate (q * 32767) /\ 0 <= pcm16 (Finite q) < 32767).
Proof.
  split; [reflexivity|]. split; [reflexivity|]. split; [reflexivity|].
  split; [intros channel offset H; unfold sample_at; now rewrite H|].
  split; [intros q H; unfold pcm16; now rewrite clamp_above|].
  split; [intros q H; unfold pcm16; now rewrite clamp_below|].
  split.
  - intros q Hlo Hneg. unfold pcm16.
    assert (Hhi : (q < 1)%Q) by (eapply Qlt_trans; [exact Hneg|reflexivity]).
    rewrite (clamp_inside q Hlo Hhi).
    cbn [scale]. rewrite (proj2 (Qltb_spec q 0) Hneg).
    assert (Hb : -32768 < truncate (q * 32768) <= 0).
    { change 32768%Q with (inject_Z 32768). rewrite truncate_scaled.
      destruct q as [a d]. unfold Qlt in Hlo, Hneg. cbn in Hlo, Hneg |- *.
      assert (Ha : a < 0) by lia.
      replace (a * 32768) with (- (- a * 32768)) by lia.
      rewrite Z.quot_opp_l by lia.
      assert (0 <= Z.quot (- a * 32768) (Z.pos d) < 32768).
      { split; [apply Z.quot_pos; lia|apply Z.quot_lt_upper_bound; lia]. }
      lia. }
    rewrite ToInt16_small by lia. split; [reflexivity|exact Hb].
  - intros q Hpos Hhi. unfold pcm16.
    assert (Hlo : (-1 < q)%Q) by (eapply Qlt_le_trans; [|exact Hpos]; reflexivity).
    rewrite (clamp_inside q Hlo Hhi).
    cbn [scale].
    assert (Hn : Recording.Qltb q 0 = false).
    { destruct (Recording.Qltb q 0) eqn:E; [|reflexivity].
      apply Qltb_spec in E. exfalso. exact (Qlt_not_le _ _ E Hpos). }
    rewrite Hn.
    assert (Hb : 0 <= truncate (q * 32767) < 32767).
    { change 32767%Q with (inject_Z 32767). rewrite truncate_scaled.
      destruct q as [a d]. unfold Qle in Hpos. unfold Qlt in Hhi. cbn in Hpos, Hhi |- *.
      split; [apply Z.quot_pos; lia|apply Z.quot_lt_upper_bound; lia]. }
    rewrite ToInt16_small by lia. split; [reflexivity|exact Hb].
Qed.

(** *** The binary string *)

Lemma chunkSize_pos : (0 < chunkSize)%nat.
Proof. unfold chunkSize. lia. Qed.

Lemma binaryString_chunked_spec (fuel : nat) (bytes : list Z) (i : nat) (acc : list Z) :
  (List.length bytes - i <= fuel * chunkSize)%nat ->
  binaryString_chunked fuel bytes i acc = Some (acc ++ drop i bytes).
Proof.
  pose proof chunkSize_pos as Hcs.
  revert i acc. induction fuel as [|fuel IH]; intros i acc Hfuel.
  - cbn [binaryString_chunked].
    replace (i <? List.length bytes)%nat with false by (symmetry; apply Nat.ltb_ge; lia).
    rewrite drop_ge by lia. now rewrite app_nil_r.
  - cbn [binaryString_chunked].
    destruct (i <? List.length bytes)%nat eqn:Hlt.
    + rewrite IH by lia. rewrite <- app_assoc. do 2 f_equal.
      rewrite <- drop_drop. apply take_drop.
    + apply Nat.ltb_ge in Hlt. rewrite drop_ge by lia. now rewrite app_nil_r.
Qed.

Lemma binaryString_bytewise_spec (bytes acc : list Z) :
  fold_left (fun binary b => binary ++ [b]) bytes acc = acc ++ bytes.
Proof.
  revert acc. induction bytes as [|b bytes IH]; intros acc; cbn.
  - now rewrite app_nil_r.
  - rewrite IH, <- app_assoc. reflexivity.
Qed.

(** X21. The two ways the page turns bytes into the string it gives to
    btoa agree: the loop over chunks of 8192 bytes of the capture path
    ends, within one turn per chunk, with the same code units as the
    loop over single bytes of the recorder, which are the bytes
    themselves, in order and none lost at a chunk border. *)
Theorem binary_strings_agree (bytes : list Z) (fuel : nat) :
  (List.length bytes <= fuel * chunkSize)%nat ->
  binaryString_chunked fuel bytes 0 [] = Some (binaryString_bytewise bytes)
  /\ binaryString_bytewise bytes = bytes.
Proof.
  intros Hfuel. unfold binaryString_bytewise.
  rewrite binaryString_bytewise_spec, binaryString_chunked_spec by lia.
  rewrite drop_0. auto.
Qed.

Lemma binary_strings_witness :
  (List.length [82; 73; 70; 70] <= 1 * chunkSize)%nat
  /\ binaryString_chunked 1 [82; 73; 70; 70] 0 []
     = Some (binaryString_bytewise [82; 73; 70; 70])
  /\ binaryString_bytewise [82; 73; 70; 70] = [82; 73; 70; 70].
Proof.
  assert (H : (List.length [82; 73; 70; 70] <= 1 * chunkSize)%nat)
    by (pose proof chunkSize_pos; unfold chunkSize in *; cbn; lia).
  split; [exact H|].
  exact (binary_strings_agree [82; 73; 70; 70] 1 H).
Defined.

End WavFacts.
Section EvaluationFacts.
Import Evaluation.

Lemma decisionMatch_includes (s group : string) :
  decisionMatch s = Some group -> includes_ci s "DECISION:" = true.
Proof.
  induction s as [|c s IH].
  - cbn. discriminate.
  - intros H. cbn [decisionMatch] in H. cbn [includes_ci].
    destruct (starts_ci "DECISION:" (String c s)) eqn:Hs; [reflexivity|].
    unfold decision_here in H. rewrite Hs in H. auto.
Qed.

Lemma after_first_includes (p s r : string) :
  after_first p s = Some r -> Js.str_includes s p = true.
Proof.
  induction s as [|c s IH]; cbn [after_first Js.str_includes];
    destruct (String.prefix p _); try reflexivity; try discriminate. exact IH.
Qed.

Lemma starts_ci_lower (p s : string) :
  starts_ci p s = true ->
  toLowerCase (str_take (String.length p) s) = toLowerCase p.
Proof.
  revert s. induction p as [|a p IH]; intros s H; [reflexivity|].
  destruct s as [|b s]; [discriminate|]. cbn in H |- *.
  apply andb_prop in H as [Hab Hps]. apply Ascii.eqb_eq in Hab.
  rewrite Hab, (IH s Hps). reflexivity.
Qed.

(** The group of a match is one of the two words, in some case. *)
Lemma decisionMatch_group (s group : string) :
  decisionMatch s = Some group ->
  toLowerCase group = "suitable"%string \/ toLowerCase group = "not_suitable"%string.
Proof.
  induction s as [|c s IH]; intros H; cbn [decisionMatch] in H.
  - cbn in H. discriminate.
  - destruct (decision_here (String c s)) as [g|] eqn:Hd; [|auto].
    injection H as <-. unfold decision_here in Hd.
    destruct (starts_ci "DECISION:" (String c s)); [|discriminate].
    destruct (starts_ci "suitable" _) eqn:H1.
    + injection Hd as <-. left. exact (starts_ci_lower "suitable" _ H1).
    + destruct (starts_ci "not_suitable" _) eqn:H2; [|discriminate].
      injection Hd as <-. right. exact (starts_ci_lower "not_suitable" _ H2).
Qed.

(** X22. However the completion reads, the evaluation has a reasoning
    and a response that are not empty, and its verdict is not_suitable
    unless the text states a decision: a completion without the text
    DECISION: in any case of letters, and the empty completion, are
    read as not_suitable; without the text RESPONSE: the response is
    the canned sentence of the verdict, the rejection for not_suitable
    and the acceptance for suitable. *)
Theorem evaluation_defaults_to_rejection (responseText : string) :
  let e := read responseText in
  reasoning e <> EmptyString
  /\ response e <> EmptyString
  /\ (includes_ci responseText "DECISION:" = false -> verdict e = not_suitable)
  /\ (Js.str_includes responseText "RESPONSE:" = false ->
      response e = match verdict e with suitable => accepted | not_suitable => rejected end)
  /\ (Js.str_includes responseText "REASONING:" = false ->
      reasoning e = "No reasoning provided"%string)
  /\ (verdict e = suitable ->
      exists group, decisionMatch responseText = Some group
                    /\ toLowerCase group = "suitable"%string)
  /\ read EmptyString = mkEvaluation "No reasoning provided" not_suitable rejected.
Proof.
  cbn zeta. unfold read. cbn [reasoning response verdict].
  split; [apply or_else_nonempty; discriminate|].
  split; [apply or_else_nonempty; destruct (decisionMatch responseText) as [g|];
          [destruct (String.eqb _ _)|]; discriminate|].
  split.
  { intros Hno. destruct (decisionMatch responseText) as [g|] eqn:Hd; [|reflexivity].
    apply decisionMatch_includes in Hd. congruence. }
  split.
  { intros Hno. unfold responseMatch.
    destruct (after_first "RESPONSE:" responseText) as [r|] eqn:Ha; [|reflexivity].
    apply after_first_includes in Ha. congruence. }
  split.
  { intros Hno. unfold reasoningMatch.
    destruct (after_first "REASONING:" responseText) as [r|] eqn:Ha; [|reflexivity].
    apply after_first_includes in Ha. congruence. }
  split; [|reflexivity].
  destruct (decisionMatch responseText) as [g|]; [|discriminate].
  destruct (String.eqb (toLowerCase g) "suitable") eqn:He; [|discriminate].
  intros _. exists g. split; [reflexivity|]. now apply String.eqb_eq.
Qed.

(** X23. evaluateCandidate has no fallback: it throws exactly when the
    completion request does, with the same error, after logging it;
    otherwise it returns the evaluation read from the trimmed content,
    a missing content being read as the empty text and so as a
    rejection. *)
Theorem evaluateCandidate_rethrows (completion : result (option string)) (w : world) :
  let r := evaluateCandidate completion w in
  match completion with
  | Throw e =>
      fst r = Throw e /\ logged Err "Error evaluating candidate" (snd r)
  | Ok content =>
      fst r = Ok (read (OpenAI.trimmed content))
      /\ (content = None -> fst r = Ok (mkEvaluation "No reasoning provided" not_suitable rejected))
      /\ logs (snd r) = logs w ++ [(Info, "Evaluating candidate responses");
                                   (Info, "Successfully evaluated candidate")]
  end.
Proof.
  cbn zeta. unfold evaluateCandidate, logged.
  destruct completion as [content|e]; run_m.
  - split; [reflexivity|]. split; [intros ->; reflexivity|]. now rewrite <- app_assoc.
  - split; [reflexivity|]. set_solver.
Qed.

End EvaluationFacts.
Section DismissFacts.
Import Recording Dismisser.

Lemma dismiss_step (cfg : config) (ok : bool) (fails : nat) (s : state) :
  dismisser_state fails s ->
  let s' := fire cfg (DismissModals ok) s in
  dismisser_state (if ok then fails else S fails) s'
  /\ recording s' = recording s
  /\ tracks s' = tracks s
  /\ count RecorderStop s' = count RecorderStop s
  /\ pending s' ∖ {[dismissModalsInterval]} = pending s ∖ {[dismissModalsInterval]}.
Proof.
  intros (Hc & Hp). cbn zeta. unfold fire. cbn [timer_of is_interval].
  case_bool_decide as Hin.
  - assert (Hf : (fails <= 10)%nat) by (apply Hp; exact Hin).
    destruct ok; cbn [callback].
    + repeat split; auto; intros; tauto.
    + unfold dismiss_failed. cbn [dismissModalErrorCount].
      rewrite Hc. rewrite Nat.min_l by lia.
      destruct (Z.of_nat fails + 1 >? 10) eqn:Hgt.
      * assert (fails = 10%nat) as -> by lia.
        unfold clear, add_effect, set_pending, count, dismisser_state. cbn.
        rewrite filter_app, length_app. cbn.
        rewrite decide_False by discriminate. cbn.
        repeat split; try lia; try set_solver.
      * unfold dismisser_state. cbn.
        rewrite Nat.min_l by lia.
        unfold count. cbn.
        repeat split; try lia; try (intros _; exact Hin); try reflexivity.
  - assert (Hf : (10 < fails)%nat).
    { destruct (le_lt_dec fails 10) as [Hle|Hlt]; [|exact Hlt].
      exfalso. apply Hin, Hp, Hle. }
    split; [|auto].
    unfold dismisser_state in *. rewrite Hc.
    destruct ok; (split; [rewrite !Nat.min_r by lia; reflexivity|]);
      (split; [intros H; contradiction|intros H; lia]).
Qed.

(** X24. The modal dismisser keeps its interval through ten failed
    runs and clears it at the eleventh, not at the tenth its message
    names; the runs that succeed in between do not reset the count.
    Whatever its runs do, it never stops the recording and it touches
    no other timer. *)
Theorem dismisser_stops_at_eleventh_failure (cfg : config) (n : nat) (oks : list bool) :
  let s := run cfg (map DismissModals oks) (started n) in
  let fails := List.length (filter (fun ok => ok = false) oks) in
  (dismissModalsInterval ∈ pending s <-> (fails <= 10)%nat)
  /\ dismissModalErrorCount s = Z.of_nat (Nat.min fails 11)
  /\ recording s = true
  /\ count RecorderStop s = 0%nat
  /\ pending s ∖ {[dismissModalsInterval]}
     = pending (started n) ∖ {[dismissModalsInterval]}.
Proof.
  cbn zeta.
  assert (Hgen : forall oks s fails0,
             dismisser_state fails0 s ->
             let s' := run cfg (map DismissModals oks) s in
             dismisser_state (fails0 + List.length (filter (fun ok => ok = false) oks)) s'
             /\ recording s' = recording s
             /\ count RecorderStop s' = count RecorderStop s
             /\ pending s' ∖ {[dismissModalsInterval]}
                = pending s ∖ {[dismissModalsInterval]}).
  { clear oks. induction oks as [|ok oks IH]; intros s fails0 Hs; cbn zeta.
    - cbn. rewrite Nat.add_0_r. auto.
    - cbn [map].
      change (run cfg (DismissModals ok :: map DismissModals oks) s)
        with (run cfg (map DismissModals oks) (fire cfg (DismissModals ok) s)).
      destruct (dismiss_step cfg ok fails0 s Hs) as (Hs1 & Hr1 & _ & Hc1 & Hp1).
      destruct (IH _ _ Hs1) as (Hs2 & Hr2 & Hc2 & Hp2).
      cbn zeta in Hs2, Hr2, Hc2, Hp2.
      split; [|rewrite Hr2, Hc2, Hp2; auto].
      destruct ok.
      + rewrite filter_cons_False by discriminate. exact Hs2.
      + rewrite filter_cons_True by reflexivity. cbn [List.length].
        replace (fails0 + S (List.length (filter (fun ok => ok = false) oks)))%nat
          with (S fails0 + List.length (filter (fun ok => ok = false) oks))%nat by lia.
        exact Hs2. }
  destruct (Hgen oks (started n) 0%nat) as ((Hc & Hp) & Hr & Hcount & Hpend).
  { split; [reflexivity|]. cbn. split; [intros _; lia|intros _; set_solver]. }
  cbn zeta in *. auto.
Qed.

End DismissFacts.

Section LobbyFailureFacts.
Import Lobby.

(** X25. When the wait in the lobby does not end in the meeting,
    joinMeeting closes the browser and throws the retry error with the
    text of the page, an empty text when there is none, at most 2
    retries, and retryable exactly when the text does not hold the
    denial sentence. An exception of reading the text, or of closing
    the browser, is thrown in its place. *)
Theorem lobby_failure_is_retryable_unless_denied (denied : string) (joinWaitTime : Z)
    (obs : nat -> poll_obs) (body : result (option string)) (close : result unit)
    (w : world) (e : exit) :
  fst (waitAtLobbyPromise joinWaitTime obs w) = Ok e ->
  e <> EnteredMeeting ->
  let r := waitAtLobby denied joinWaitTime obs body close w in
  fst r
  = match close, body with
    | Throw closeError, _ => Throw closeError
    | Ok _, Throw bodyError => Throw bodyError
    | Ok _, Ok bodyText =>
        Throw (WaitingAtLobbyRetryError "Google Meet bot could not enter the meeting..."
                 (default EmptyString bodyText)
                 (negb (Js.str_includes (default EmptyString bodyText) denied)) 2)
    end
  /\ last (actions (snd r)) = Some "browser.close"%string.
Proof.
  intros He Hne. cbn zeta.
  unfold waitAtLobby, waitAtLobbyPromise, try_catch, bind in *.
  destruct (waitInterval _ obs 0 w) as [[e'|err] w1]; cbn [fst] in He;
    [injection He as ->|discriminate].
  assert (Hr : resolved_value e = false) by (destruct e; [contradiction|reflexivity..]).
  rewrite Hr. cbn [negb].
  destruct body as [bodyText|bodyError], close as [[]|closeError]; run_m;
    rewrite last_snoc; auto.
Qed.

Lemma lobby_failure_witness :
  fst (waitAtLobbyPromise 10 (fun _ => Examples.denied_outside) w0) = Ok DeniedAccess
  /\ DeniedAccess <> EnteredMeeting
  /\ fst (waitAtLobby "You can't join this call" 10 (fun _ => Examples.denied_outside)
            (Ok (Some "You can't join this call")) (Ok tt) w0)
     = Throw (WaitingAtLobbyRetryError "Google Meet bot could not enter the meeting..."
                "You can't join this call" false 2)
  /\ last (actions (snd (waitAtLobby "You can't join this call" 10
                           (fun _ => Examples.denied_outside)
                           (Ok (Some "You can't join this call")) (Ok tt) w0)))
     = Some "browser.close"%string.
Proof.
  assert (H1 : fst (waitAtLobbyPromise 10 (fun _ => Examples.denied_outside) w0)
               = Ok DeniedAccess) by (vm_compute; reflexivity).
  assert (H2 : DeniedAccess <> EnteredMeeting) by discriminate.
  split; [exact H1|]. split; [exact H2|].
  exact (lobby_failure_is_retryable_unless_denied "You can't join this call" 10
           (fun _ => Examples.denied_outside) (Ok (Some "You can't join this call"%string))
           (Ok tt) w0 DeniedAccess H1 H2).
Defined.

End LobbyFailureFacts.
Section PageValidityFacts.
Import Recording PageValidity.

Lemma run_cons (cfg : config) (ev : event) (evs : list event) (s : state) :
  run cfg (ev :: evs) s = run cfg evs (fire cfg ev s).
Proof. reflexivity. Qed.

(** Once its interval is cleared the check does nothing. *)
Lemma checks_after_clear (cfg : config) (ps : list shown) (s : state) :
  isOnValidGoogleMeetPageInterval ∉ pending s ->
  run cfg (map check ps) s = s.
Proof.
  intros Hn. induction ps as [|p ps IH]; [reflexivity|].
  cbn [map]. rewrite run_cons. unfold check in *. unfold fire. cbn [timer_of].
  rewrite bool_decide_eq_false_2 by exact Hn. exact IH.
Qed.

Lemma checks_while_valid (cfg : config) (ps : list shown) (s : state) :
  forallb isOnValidGoogleMeetPage ps = true ->
  run cfg (map check ps) s = s.
Proof.
  induction ps as [|p ps IH]; [reflexivity|].
  cbn [forallb map]. intros H. apply andb_prop in H as [Hp Hps].
  rewrite run_cons. unfold check in *. unfold fire. cbn [timer_of is_interval].
  case_bool_decide; cbn [callback]; rewrite ?Hp; auto.
Qed.

Lemma forallb_split {A} (f : A -> bool) (l : list A) :
  forallb f l = false ->
  exists l1 x l2, l = l1 ++ x :: l2 /\ forallb f l1 = true /\ f x = false.
Proof.
  induction l as [|a l IH]; [discriminate|].
  cbn [forallb]. destruct (f a) eqn:Ha; cbn [andb].
  - intros H. destruct (IH H) as (l1 & x & l2 & -> & H1 & Hx).
    exists (a :: l1), x, l2. cbn [forallb]. rewrite Ha, H1. auto.
  - intros _. exists [], a, l. auto.
Qed.

(** X26. The page-validity check ends the recording at its first run
    that finds the page invalid: the address without meet.google.com,
    the removal or the no-response sentence in the text, neither the
    People nor the Leave call button, or an exception while looking.
    It clears its own interval first, so it enters the stop routine
    once and never runs again; while every run finds the page valid
    it changes nothing. *)
Theorem invalid_page_stops_the_recording_once (cfg : config) (n : nat)
    (ps : list shown) :
  let s := run cfg (map check ps) (started n) in
  if forallb isOnValidGoogleMeetPage ps
  then (s = started n)
  else (recording s = false
        /\ tracks s = repeat false n
        /\ count RecorderStop s = 1%nat
        /\ count (MeetEnd (slightlySecretId cfg)) s = 1%nat
        /\ (isOnValidGoogleMeetPageInterval ∉ pending s)
        /\ (timeoutId ∉ pending s)).
Proof.
  cbn zeta. destruct (forallb isOnValidGoogleMeetPage ps) eqn:Hall.
  - now apply checks_while_valid.
  - destruct (forallb_split _ _ Hall) as (l1 & p & l2 & -> & H1 & Hp).
    unfold run. rewrite map_app, fold_left_app. fold (run cfg (map check l1) (started n)).
    rewrite (checks_while_valid cfg l1 _ H1).
    cbn [map]. fold (run cfg (check p :: map check l2) (started n)).
    rewrite run_cons.
    set (s1 := fire cfg (check p) (started n)).
    assert (Hs1 : s1 = stopTheRecording cfg (clear isOnValidGoogleMeetPageInterval (started n))).
    { unfold s1, check, fire. cbn [timer_of is_interval].
      rewrite bool_decide_eq_true_2 by (cbn; set_solver).
      cbn [callback]. now rewrite Hp. }
    assert (Hnot : isOnValidGoogleMeetPageInterval ∉ pending s1).
    { rewrite Hs1. cbn. set_solver. }
    rewrite (checks_after_clear cfg l2 s1 Hnot).
    split; [rewrite Hs1; reflexivity|].
    split.
    { rewrite Hs1. cbn [tracks stopTheRecording clear add_effect set_pending started].
      clear. induction n as [|k IH]; [reflexivity|]. cbn [repeat map]. now rewrite IH. }
    assert (Hcount : forall e,
               e = RecorderStop \/ e = MeetEnd (slightlySecretId cfg)
               \/ (exists i, (i < length (tracks (clear isOnValidGoogleMeetPageInterval
                                                   (started n))))%nat /\ e = TrackStop i) ->
               count e s1 = 1%nat).
    { intros e He. rewrite Hs1. unfold count. cbn [effects stopTheRecording].
      rewrite occurrences_app, (cleanup_once cfg _ e He).
      cbn [effects clear add_effect set_pending started app].
      rewrite filter_cons_False, filter_nil; [reflexivity|].
      destruct He as [->|[->|(i & _ & ->)]]; discriminate. }
    split; [apply Hcount; auto|]. split; [apply Hcount; auto|].
    split; [exact Hnot|]. rewrite Hs1. cbn. set_solver.
Qed.

End PageValidityFacts.

(* ================================================================= *)
(** ** Searching for an element and clicking it *)
(* ================================================================= *)

Section FinderFacts.
Import Speak Finder.

Lemma find_outcome (el : element) (xpath : string) (shouldClick : bool) (w : world) :
  fst (findAndOptionallyClickElement el xpath shouldClick w)
  = Ok (if shouldClick then clicked el else attempted el)
  /\ actions (snd (findAndOptionallyClickElement el xpath shouldClick w))
     = actions w ++ (if shouldClick && attempted el then [click_of xpath] else []).
Proof.
  unfold findAndOptionallyClickElement, clicked, attempted, click_of.
  unfold try_catch, bind, await, ret, log, act.
  destruct (el_count el) as [c|e]; [destruct (c =? 0)|];
    destruct (el_visible el) as [[|]|e']; destruct shouldClick;
    destruct (el_click el) as [[]|e'']; destruct (el_wait el) as [[]|e'''];
    cbn; rewrite ?app_nil_r; auto.
Qed.

(** X27. findAndOptionallyClickElement never throws. It answers true
    exactly when the locator counts an element, reports it visible
    and, if a click is asked for, the click and the wait after it both
    return; an exception of the count, of the click or of the wait
    reads as false, and one of the visibility test as not visible.
    It clicks at most once, and not at all when no click is asked
    for. *)
Theorem find_answers_true_only_after_a_click (el : element) (xpath : string)
    (shouldClick : bool) (w : world) :
  let r := findAndOptionallyClickElement el xpath shouldClick w in
  (exists b, fst r = Ok b
     /\ (b = true <->
         (exists count, el_count el = Ok count /\ count <> 0)
         /\ el_visible el = Ok true
         /\ (shouldClick = true -> el_click el = Ok tt /\ el_wait el = Ok tt)))
  /\ (shouldClick = false -> actions (snd r) = actions w)
  /\ (actions (snd r) = actions w \/ actions (snd r) = actions w ++ [click_of xpath]).
Proof.
  cbn zeta. destruct (find_outcome el xpath shouldClick w) as [Hv Ha].
  split; [|split].
  - eexists. split; [exact Hv|].
    unfold clicked, attempted.
    destruct (el_count el) as [c|e]; cbn.
    + destruct (Z.eqb_spec c 0) as [->|Hc]; cbn.
      * split; [now destruct shouldClick|]. intros [(c & [= <-] & Hc) _]. lia.
      * destruct (el_visible el) as [[|]|e]; cbn;
          try (split; [now destruct shouldClick|]; intros (_ & [=] & _)).
        destruct shouldClick; cbn.
        -- destruct (el_click el) as [[]|e]; cbn;
             [|split; [discriminate|]; intros (_ & _ & H); now destruct H].
           destruct (el_wait el) as [[]|e]; cbn;
             [|split; [discriminate|]; intros (_ & _ & H); now destruct H].
           split; [|reflexivity]. intros _. eauto 6.
        -- split; [|reflexivity]. intros _. split; [eauto|]. split; [reflexivity|discriminate].
    + split; [now destruct shouldClick|]. intros [(c & [=] & _) _].
  - intros ->. rewrite Ha. cbn. apply app_nil_r.
  - rewrite Ha. destruct (shouldClick && attempted el); [now right|left; apply app_nil_r].
Qed.

(** X28. The loop over the microphone selectors tries them in order
    and stops at the first whose element is clicked: it answers
    whether there is one, never throws, and clicks every element
    it got as far as clicking, up to and with that first one, and
    none after it. *)
Theorem first_clicked_stops_at_the_first_success (find : string -> element)
    (selectors : list string) (msg : string) (w : world) :
  let r := first_clicked find selectors msg w in
  fst r = Ok (existsb (fun selector => clicked (find selector)) selectors)
  /\ actions (snd r)
     = actions w
       ++ map click_of
            (List.filter (fun selector => attempted (find selector))
               (Bot.up_to_first (fun selector => clicked (find selector)) selectors)).
Proof.
  cbn zeta. revert w.
  induction selectors as [|sel rest IH]; intros w.
  - cbn. now rewrite app_nil_r.
  - cbn [first_clicked existsb Bot.up_to_first].
    destruct (find_outcome (find sel) sel true w) as [Hv Ha].
    unfold bind at 1 3.
    destruct (findAndOptionallyClickElement (find sel) sel true w) as [[b|e] w1] eqn:E;
      cbn [fst snd] in Hv, Ha; [|discriminate].
    injection Hv as ->. cbn [andb] in Ha.
    destruct (clicked (find sel)) eqn:Hc.
    + cbn [orb]. rewrite bind_log. cbn [fst snd ret log actions].
      split; [reflexivity|]. rewrite Ha.
      assert (Hat : attempted (find sel) = true).
      { unfold clicked in Hc. now destruct (attempted (find sel)). }
      cbn [List.filter]. rewrite Hat. reflexivity.
    + cbn [orb]. destruct (IH w1) as [IHv IHa]. split; [exact IHv|].
      rewrite IHa, Ha. cbn [List.filter].
      destruct (attempted (find sel)); cbn [map app].
      * now rewrite <- app_assoc.
      * now rewrite app_nil_r.
Qed.

End FinderFacts.
